(** * Energy_Conversion_PIC: particle files, velocity histograms and spectrum fitting

    A shallow embedding of the decoding and fitting core of
    [python/particle_distribution.py] and [python/spectrum_fitting.py].

    Conventions of the embedding.
    - numpy [float32]/[float64] values and Python floats are the real numbers
      they denote ([R]).  Where the floating-point result of an operation
      decides what the routine does next (a comparison, a test for zero, an
      index, an exception), the rounding of the operation is a parameter
      [fl : R -> R]: [fl x] is the floating-point number that stands for the
      exact result [x], and what is known of it is [rounding fl].  In the
      other routines the operations are exact.  Overflow and the sign of
      zero are not modelled.
    - The IEEE special values (a division by zero, [np.log10] of a
      non-positive number, an infinity or a NaN stored in a file) are kept
      apart in the type [xfloat].
    - Python exceptions are values [Raise e] of the result type [res]; an
      exception is identified by the name of its class.
    - Library routines whose algorithm is not part of this repository
      ([scipy.optimize.curve_fit], [np.genfromtxt], the IEEE-754 decoding of
      a byte string, the floating-point sum of products inside
      [np.convolve]) and [fitting_funcs.func_maxwellian], of a module that
      is imported but is not among the sources, are parameters of the
      routines that use them.
    - The diagnostics printed by the routines are not modelled, except for
      the array elements they read, which may raise [IndexError], and for
      the line printed by [read_spectrum_data]. *)

From Stdlib Require Import String Ascii DecimalString.
From Stdlib.Strings Require Import Byte.
From Stdlib Require Import Reals Lra Lia ZArith Bool List.
Import ListNotations.

(** ** Python results and exceptions *)

Inductive exn : Type := Exn (name : string).

Definition IOError : exn := Exn "IOError".
Definition ValueError : exn := Exn "ValueError".
Definition IndexError : exn := Exn "IndexError".
Definition TypeError : exn := Exn "TypeError".
Definition ZeroDivisionError : exn := Exn "ZeroDivisionError".

(** Two names of the specification's error taxonomy; no routine of the two
    source files raises them. *)
Definition FileNotFoundError : exn := Exn "FileNotFoundError".
Definition InvalidFitWindowError : exn := Exn "InvalidFitWindowError".

Inductive res (A : Type) : Type :=
| Ok (a : A)
| Raise (e : exn).

Arguments Ok {A} a.
Arguments Raise {A} e.

Definition bind {A B : Type} (m : res A) (k : A -> res B) : res B :=
  match m with
  | Ok a => k a
  | Raise e => Raise e
  end.

Declare Scope py_scope.
Delimit Scope py_scope with py.
Notation "x <- m ;; k" := (bind m (fun x => k))
  (at level 61, m at next level, right associativity) : py_scope.
Notation "' pat <- m ;; k" := (bind m (fun x => match x with pat => k end))
  (at level 61, pat pattern, m at next level, right associativity) : py_scope.
Open Scope py_scope.

(** [for b in l: a = body(a, b)], stopping at the first exception. *)
Fixpoint foldM {A B : Type} (body : A -> B -> res A) (l : list B) (a : A)
  : res A :=
  match l with
  | [] => Ok a
  | b :: t => a' <- body a b ;; foldM body t a'
  end.

(** ** Arrays *)

(** [a[i]] for an index [i >= 0]. *)
Definition get {A : Type} (a : list A) (i : nat) : res A :=
  match nth_error a i with
  | Some x => Ok x
  | None => Raise IndexError
  end.

(** [a[i] = v] for an index inside the array; the loops below only store
    inside the arrays they allocated. *)
Fixpoint set_item {A : Type} (a : list A) (i : nat) (v : A) : list A :=
  match a, i with
  | [], _ => []
  | _ :: t, O => v :: t
  | x :: t, S j => x :: set_item t j v
  end.

(** Python index [a[i]] for any integer: a negative index counts from the
    end, an index outside [-len, len) raises [IndexError]. *)
Definition py_index {A : Type} (a : list A) (i : Z) : res A :=
  let n := Z.of_nat (length a) in
  if (0 <=? i)%Z then get a (Z.to_nat i)
  else if (0 <=? i + n)%Z then get a (Z.to_nat (i + n))
  else Raise IndexError.

(** Bound of a slice: negative bounds count from the end, and the result is
    clamped to [0, len]. *)
Definition slice_bound (n : nat) (i : Z) : nat :=
  let i' := if (i <? 0)%Z then (i + Z.of_nat n)%Z else i in
  Z.to_nat (Z.min (Z.max 0 i') (Z.of_nat n)).

(** Python slice [a[lo:hi]]; never raises. *)
Definition py_slice {A : Type} (a : list A) (lo hi : Z) : list A :=
  let l := slice_bound (length a) lo in
  let h := slice_bound (length a) hi in
  firstn (h - l) (skipn l a).

(** ** Real-valued helpers *)

Open Scope R_scope.

Definition Rltb (x y : R) : bool := if Rlt_dec x y then true else false.
Definition Rleb (x y : R) : bool := if Rle_dec x y then true else false.

(** Python's builtin [max]: the first element is kept until a strictly
    greater one is met; an empty sequence raises [ValueError]. *)
Definition py_max (l : list R) : res R :=
  match l with
  | [] => Raise ValueError
  | x :: t => Ok (fold_left (fun m y => if Rltb m y then y else m) t x)
  end.

(** Python's builtin [min]. *)
Definition py_min (l : list R) : res R :=
  match l with
  | [] => Raise ValueError
  | x :: t => Ok (fold_left (fun m y => if Rltb y m then y else m) t x)
  end.

Definition log10 (x : R) : R := ln x / ln 10.

(** [math.log10]: a [ValueError] (math domain error) outside [x > 0]. *)
Definition math_log10 (x : R) : res R :=
  if Rltb 0 x then Ok (log10 x) else Raise ValueError.

(** [np.argmax]: index of the first occurrence of the maximum;
    [ValueError] on an empty array. *)
Fixpoint argmax_from (best : R) (ibest : nat) (i : nat) (l : list R) : nat :=
  match l with
  | [] => ibest
  | y :: t =>
      if Rltb best y then argmax_from y i (S i) t
      else argmax_from best ibest (S i) t
  end.

Definition np_argmax (l : list R) : res nat :=
  match l with
  | [] => Raise ValueError
  | x :: t => Ok (argmax_from x 0 1 t)
  end.

(** ** IEEE special values

    The routines divide arrays by numbers that may be zero and take
    [np.log10] of arrays that may hold non-positive numbers; numpy then
    stores an infinity or a NaN and only warns.  [xfloat] is a real number
    or one of these values. *)

Inductive xfloat : Type :=
| Fin (x : R)
| PInf
| NInf
| NaN.

(** numpy division of two finite numbers. *)
Definition np_div (x y : R) : xfloat :=
  if Req_EM_T y 0 then
    (if Rltb 0 x then PInf else if Rltb x 0 then NInf else NaN)
  else Fin (x / y).

(** [np.log10] of one array element. *)
Definition np_log10 (x : R) : xfloat :=
  if Rltb 0 x then Fin (log10 x)
  else if Req_EM_T x 0 then NInf
  else NaN.

(** [np.power(10, x)]. *)
Definition np_power10 (x : xfloat) : xfloat :=
  match x with
  | Fin r => Fin (Rpower 10 r)
  | PInf => PInf
  | NInf => Fin 0
  | NaN => NaN
  end.

(** [a <= b] on numpy values: false as soon as one side is a NaN. *)
Definition xleb (a b : xfloat) : bool :=
  match a, b with
  | NaN, _ | _, NaN => false
  | NInf, _ => true
  | _, PInf => true
  | PInf, _ => false
  | _, NInf => false
  | Fin x, Fin y => Rleb x y
  end.

(** The finite elements of an array, when all of them are finite. *)
Fixpoint finite_list (l : list xfloat) : option (list R) :=
  match l with
  | [] => Some []
  | Fin x :: t =>
      match finite_list t with
      | Some r => Some (x :: r)
      | None => None
      end
  | _ :: t => None
  end.

(** ** Rounding

    [fl x] is the number of a floating-point format that an operation
    returns when its exact result is [x].  Round-to-nearest is monotone
    and odd, and it is exact on the numbers [m / 2^k] with a short
    numerator, as long as the format holds them (8 bits of precision and
    exponents down to -100 are enough here; [float32] and [float64] have
    more). *)
Definition rounding (fl : R -> R) : Prop :=
  (forall x y, x <= y -> fl x <= fl y) /\
  (forall x, fl (- x) = - fl x) /\
  (forall (m : Z) (k : nat), (Z.abs m <= 128)%Z -> (k <= 100)%nat ->
     fl (IZR m / 2 ^ k) = IZR m / 2 ^ k).

(** numpy division of two finite numbers, the quotient rounded. *)
Definition fl_div (fl : R -> R) (x y : R) : xfloat :=
  match np_div x y with
  | Fin q => Fin (fl q)
  | s => s
  end.

(** Sum and product of two numpy values, and quotient of a numpy value by
    a number that is not negative. *)
Definition xadd (fl : R -> R) (a b : xfloat) : xfloat :=
  match a, b with
  | NaN, _ | _, NaN => NaN
  | PInf, NInf | NInf, PInf => NaN
  | PInf, _ | _, PInf => PInf
  | NInf, _ | _, NInf => NInf
  | Fin x, Fin y => Fin (fl (x + y))
  end.

Definition xmult (fl : R -> R) (a b : xfloat) : xfloat :=
  let signed (x : R) (pos neg : xfloat) :=
    if Rltb 0 x then pos else if Rltb x 0 then neg else NaN in
  match a, b with
  | NaN, _ | _, NaN => NaN
  | Fin x, Fin y => Fin (fl (x * y))
  | Fin x, PInf | PInf, Fin x => signed x PInf NInf
  | Fin x, NInf | NInf, Fin x => signed x NInf PInf
  | PInf, PInf | NInf, NInf => PInf
  | PInf, NInf | NInf, PInf => NInf
  end.

Definition xdivr (fl : R -> R) (a : xfloat) (d : R) : xfloat :=
  match a with
  | Fin x => fl_div fl x d
  | PInf => PInf
  | NInf => NInf
  | NaN => NaN
  end.

(** ** spectrum_fitting.accumulated_particle_info *)

(** One pass of the loop body, for the bin [i >= 1]:
    [nacc_ene[i] = f[i] * (ene[i] + ene[i-1]) * 0.5 + nacc_ene[i-1]] and
    [eacc_ene[i] = 0.5 * f[i] * (ene[i] - ene[i-1]) * (ene[i] + ene[i-1])],
    followed by [eacc_ene[i] += eacc_ene[i-1]]. *)
Definition accumulate_step (ene f : list R) (acc : list R * list R) (i : nat)
  : res (list R * list R) :=
  let '(nacc_ene, eacc_ene) := acc in
  fi <- get f i ;;
  ei <- get ene i ;;
  ei1 <- get ene (i - 1) ;;
  n1 <- get nacc_ene (i - 1) ;;
  let nacc_ene := set_item nacc_ene i (fi * (ei + ei1) * 0.5 + n1) in
  let eacc_ene := set_item eacc_ene i (0.5 * fi * (ei - ei1) * (ei + ei1)) in
  ei' <- get eacc_ene i ;;
  e1 <- get eacc_ene (i - 1) ;;
  let eacc_ene := set_item eacc_ene i (ei' + e1) in
  Ok (nacc_ene, eacc_ene).

Definition accumulated_particle_info (ene f : list R)
  : res (list R * list R) :=
  let nbins := length f in
  emax <- py_max ene ;;
  lmax <- math_log10 emax ;;
  emin <- py_min ene ;;
  lmin <- math_log10 emin ;;
  dlogE <- (if Nat.eqb nbins 0 then Raise ZeroDivisionError
            else Ok ((lmax - lmin) / INR nbins)) ;;
  let nacc_ene := repeat 0 nbins in
  let eacc_ene := repeat 0 nbins in
  f0 <- get f 0 ;;
  e0 <- get ene 0 ;;
  let nacc_ene := set_item nacc_ene 0 (f0 * e0) in
  let eacc_ene := set_item eacc_ene 0 (0.5 * f0 * e0 ^ 2) in
  '(nacc_ene, eacc_ene) <-
     foldM (accumulate_step ene f) (seq 1 (nbins - 1)) (nacc_ene, eacc_ene) ;;
  Ok (map (fun x => x * dlogE) nacc_ene, map (fun x => x * dlogE) eacc_ene).


(** ** numpy helpers of the fitting routines *)

(** [np.convolve(a, v, 'same')]: the longer array comes first, an empty
    array is an error, and entry [i] of the result is the sum of the
    products of the reversed [v], centred at [i] ([n/2] of its [n] entries
    lie on the left), with the entries of [a] under it.  numpy hands the
    two parts that overlap to its floating-point sum of products, the
    parameter [dot]. *)
Definition np_convolve_same (dot : list R -> list R -> R) (a v : list R)
  : res (list R) :=
  let '(a, v) := if (length a <? length v)%nat then (v, a) else (a, v) in
  if (length v =? 0)%nat then Raise ValueError
  else
    let n := length v in
    let n_left := (n / 2)%nat in
    Ok (map (fun i =>
               (* entries of the reversed [v] on the left of [a[0]] *)
               let cut := (n_left - i)%nat in
               let w := firstn (n - cut) (skipn (i - n_left) a) in
               dot w (firstn (length w) (skipn cut (rev v))))
            (seq 0 (length a))).

(** A table read by [np.genfromtxt]: a file of one row gives a vector,
    several rows give a matrix of [ncols] columns. *)
Inductive ndarray : Type :=
| Array1 (v : list R)
| Array2 (ncols : nat) (rows : list (list R)).

(** [data[:, j]]; [data] is [None] when no table was read. *)
Definition column (data : option ndarray) (j : nat) : res (list R) :=
  match data with
  | None => Raise TypeError
  | Some (Array1 _) => Raise IndexError
  | Some (Array2 ncols rows) =>
      if (j <? ncols)%nat then Ok (map (fun r => nth j r 0) rows)
      else Raise IndexError
  end.

(** ** Files *)

Definition filesystem : Type := string -> option (list byte).

Definition exn_eqb (a b : exn) : bool :=
  match a, b with Exn x, Exn y => String.eqb x y end.

(** [open(fname, 'r')] under Python 2: a missing file is an [IOError]. *)
Definition py_open (fs : filesystem) (fname : string) : res (list byte) :=
  match fs fname with
  | Some bytes => Ok bytes
  | None => Raise IOError
  end.

(** Modelled from the spec: [fitting_funcs.func_line], the line
    [slope * x + intercept] fitted in log-log space ([fitting_funcs] is
    imported by [spectrum_fitting.py] but is not among the sources).  It is
    applied to [np.log10] of an array, hence to IEEE special values too. *)
Definition func_line (x : xfloat) (a b : R) : xfloat :=
  match x with
  | Fin r => Fin (a * r + b)
  | PInf => if Rltb 0 a then PInf else if Rltb a 0 then NInf else NaN
  | NInf => if Rltb 0 a then NInf else if Rltb a 0 then PInf else NaN
  | NaN => NaN
  end.

(** The namedtuple returned by [power_law_fit]. *)
Record power_fitting : Type := {
  fpower : list xfloat;
  es : Z;
  ee : Z;
  params : R * R;
  nfraction : xfloat;
  efraction : xfloat
}.

(** ** spectrum_fitting: fits and spectrum files *)

Section SpectrumFitting.

(** [scipy.optimize.curve_fit(model, xdata, ydata)]: the fitted pair of
    parameters [popt], or the exception the library raises.  [X] is the type
    of the array elements. *)
Variable curve_fit :
  forall X : Type, (X -> R -> R -> X) -> list X -> list X -> res (R * R).

(** [fitting_funcs.func_maxwellian(x, a, b)], on one array element. *)
Variable func_maxwellian : R -> R -> R -> R.

(** [np.genfromtxt(f, delimiter='')] on the bytes of a file. *)
Variable genfromtxt : list byte -> res ndarray.

(** The rounding of [float64] and the sum of products of [np.convolve]. *)
Variable fl : R -> R.
Variable dot : list R -> list R -> R.

Definition fit_thermal_core (ene f : list R) : res (list R) :=
  let estart := 0%Z in
  let ng := 3%nat in
  let kernel := map (fun x => fl (x / INR ng)) (repeat 1 ng) in
  fnew <- np_convolve_same dot f kernel ;;
  let nshift := 10%Z in
  imax <- np_argmax fnew ;;
  let eend := (Z.of_nat imax + nshift)%Z in
  popt <- curve_fit R func_maxwellian
            (py_slice ene estart eend) (py_slice f estart eend) ;;
  let fthermal := map (fun e => func_maxwellian e (fst popt) (snd popt)) ene in
  (* print 'Energy with maximum flux: ', ene[eend - 10] *)
  _ <- py_index ene (eend - 10) ;;
  Ok fthermal.

(** The printed lines and the value returned: [None] after the [except]
    branch, which ends without a [return]. *)
Definition read_spectrum_data (fs : filesystem) (fname : string)
  : list string * res (option ndarray) :=
  match py_open fs fname with
  | Raise e =>
      if exn_eqb e IOError then (["cannot open  " ++ fname]%string, Ok None)
      else ([], Raise e)
  | Ok f =>
      match genfromtxt f with
      | Ok data => ([], Ok (Some data))
      | Raise e => ([], Raise e)
      end
  end.

Definition get_energy_distribution (fs : filesystem) (fname : string)
    (fnorm : R) : res (list R * list R * list R * list xfloat) :=
  data <- snd (read_spectrum_data fs fname) ;;
  ene_lin <- column data 0 ;;
  flin <- column data 1 ;;
  ene_log <- column data 2 ;;
  flog <- column data 3 ;;
  let flog := map (fun x => np_div x fnorm) flog in
  Ok (ene_lin, flin, ene_log, flog).

Definition power_law_fit (ene f : list R) (offset extend : Z)
  : res power_fitting :=
  imax <- np_argmax f ;;
  let estart := (Z.of_nat imax + offset)%Z in
  let eend := (estart + extend)%Z in
  popt <- curve_fit xfloat func_line
            (map np_log10 (py_slice ene estart eend))
            (map np_log10 (py_slice f estart eend)) ;;
  (* print 'Starting and ending energies for fitting: ',
           ene[estart], ene[eend] *)
  _ <- py_index ene estart ;;
  _ <- py_index ene eend ;;
  let fpower :=
    map (fun e => func_line (np_log10 e) (fst popt) (snd popt)) ene in
  let fpower := map np_power10 fpower in
  (* accumulated_particle_info(ene[estart:eend], fpower[estart:eend]):
     when the curve is not finite on the window, an energy of the window is
     not positive and the call raises at math.log10 *)
  '(npower, epower) <-
     (match finite_list (py_slice fpower estart eend) with
      | Some fw => accumulated_particle_info (py_slice ene estart eend) fw
      | None => Raise ValueError
      end) ;;
  '(ntot, etot) <- accumulated_particle_info ene f ;;
  np_last <- py_index npower (-1) ;;
  nt_last <- py_index ntot (-1) ;;
  ep_last <- py_index epower (-1) ;;
  et_last <- py_index etot (-1) ;;
  Ok {| fpower := fpower; es := estart; ee := eend; params := popt;
        nfraction := np_div np_last nt_last;
        efraction := np_div ep_last et_last |}.

End SpectrumFitting.

(** ** Binary files *)

(** An open file: its bytes and the position of the next read. *)
Record file : Type := { content : list byte; pos : nat }.

(** Little-endian integers (the native order of the machines that write
    and read the particle files). *)
Definition le_unsigned (bs : list byte) : Z :=
  fold_right (fun b acc => (Z.of_N (Byte.to_N b) + 256 * acc)%Z) 0%Z bs.

Definition le_signed (bs : list byte) : Z :=
  let u := le_unsigned bs in
  let w := Z.of_nat (8 * length bs) in
  if (u <? 2 ^ (w - 1))%Z then u else (u - 2 ^ w)%Z.

(** A [float32] or [float64] element is kept as the bit pattern read from
    the file; the sections below take the real number it denotes as a
    parameter. *)
Definition float32 : Type := Z.
Definition float64 : Type := Z.

(** [count] consecutive items of [size] bytes. *)
Fixpoint chunks (size count : nat) (bs : list byte) : list (list byte) :=
  match count with
  | O => []
  | S c => firstn size bs :: chunks size c (skipn size bs)
  end.

(** [np.memmap(fh, dtype, mode, offset, shape)]: the file length is found by
    seeking to the end of the file (the position stays there), and mapping
    more bytes than the file holds, or an empty file, is a [ValueError]. *)
Definition np_memmap {A : Type} (decode : list byte -> A) (itemsize : nat)
    (fh : file) (offset shape : nat) : res (list A * file) :=
  let flen := length (content fh) in
  if ((flen =? 0) || (flen <? offset + shape * itemsize))%nat
  then Raise ValueError
  else Ok (map decode (chunks itemsize shape (skipn offset (content fh))),
           {| content := content fh; pos := flen |}).

(** [fh.seek(offset, os.SEEK_SET)]. *)
Definition seek_set (fh : file) (offset : nat) : file :=
  {| content := content fh; pos := offset |}.

(** [np.fromfile(fh, dtype, count)]: reads from the current position;
    a negative [count] asks for all the items up to the end of the file,
    and a file that ends early gives the complete items it holds. *)
Definition np_fromfile {A : Type} (decode : list byte -> A) (itemsize : nat)
    (fh : file) (count : Z) : list A * file :=
  let avail := ((length (content fh) - pos fh) / itemsize)%nat in
  let n := if (count <? 0)%Z then avail else Nat.min (Z.to_nat count) avail in
  (map decode (chunks itemsize n (skipn (pos fh) (content fh))),
   {| content := content fh; pos := pos fh + n * itemsize |}).

(** ** particle_distribution: particle files *)

Module v0header.
Record t : Type := {
  version : Z; type : Z; nt : Z; nx : Z; ny : Z; nz : Z;
  dt : float32; dx : float32; dy : float32; dz : float32;
  x0 : float32; y0 : float32; z0 : float32;
  cvac : float32; eps0 : float32; damp : float32;
  rank : Z; ndom : Z; spid : Z; spqm : Z
}.
End v0header.

Module header_particle.
Record t : Type := { size : Z; ndim : Z; dim : Z }.
End header_particle.

(** One element of [particle_type]: 3 [float32], 1 [int32], 3 [float32],
    1 [float32], packed in 32 bytes. *)
Module particle.
Record t : Type := {
  dxyz : float32 * float32 * float32;
  icell : Z;
  u : float32 * float32 * float32;
  q : float32
}.
Definition itemsize : nat := 3 * 4 + 4 + 3 * 4 + 4.
End particle.

Definition decode_particle (bs : list byte) : particle.t :=
  let w k := le_unsigned (firstn 4 (skipn (4 * k) bs)) in
  {| particle.dxyz := (w 0, w 1, w 2)%nat;
     particle.icell := le_signed (firstn 4 (skipn 12 bs));
     particle.u := (w 4, w 5, w 6)%nat;
     particle.q := w 7%nat |}.

Definition read_boilerplate (fh : file) : res file :=
  let offset := 0%nat in
  '(sizearr, fh) <- np_memmap le_signed 1 fh offset 5 ;;
  let offset := (offset + 5)%nat in
  '(cafevar, fh) <- np_memmap le_signed 2 fh offset 1 ;;
  let offset := (offset + 2)%nat in
  '(deadbeefvar, fh) <- np_memmap le_signed 4 fh offset 1 ;;
  let offset := (offset + 4)%nat in
  '(realone, fh) <- np_memmap le_unsigned 4 fh offset 1 ;;
  let offset := (offset + 4)%nat in
  '(doubleone, fh) <- np_memmap le_unsigned 8 fh offset 1 ;;
  Ok fh.

Definition read_particle_header (fh : file)
  : res (v0header.t * header_particle.t * nat * file) :=
  let offset := 23%nat in
  '(tmp1, fh) <- np_memmap le_signed 4 fh offset 6 ;;
  let offset := (offset + 6 * 4)%nat in
  '(tmp2, fh) <- np_memmap le_unsigned 4 fh offset 10 ;;
  let offset := (offset + 10 * 4)%nat in
  '(tmp3, fh) <- np_memmap le_signed 4 fh offset 4 ;;
  let i1 k := nth k tmp1 0%Z in
  let f2 k := nth k tmp2 0%Z in
  let i3 k := nth k tmp3 0%Z in
  let v0 :=
    {| v0header.version := i1 0%nat; v0header.type := i1 1%nat;
       v0header.nt := i1 2%nat; v0header.nx := i1 3%nat;
       v0header.ny := i1 4%nat; v0header.nz := i1 5%nat;
       v0header.dt := f2 0%nat; v0header.dx := f2 1%nat;
       v0header.dy := f2 2%nat; v0header.dz := f2 3%nat;
       v0header.x0 := f2 4%nat; v0header.y0 := f2 5%nat;
       v0header.z0 := f2 6%nat; v0header.cvac := f2 7%nat;
       v0header.eps0 := f2 8%nat; v0header.damp := f2 9%nat;
       v0header.rank := i3 0%nat; v0header.ndom := i3 1%nat;
       v0header.spid := i3 2%nat; v0header.spqm := i3 3%nat |} in
  let offset := (offset + 4 * 4)%nat in
  '(tmp4, fh) <- np_memmap le_signed 4 fh offset 3 ;;
  let pheader :=
    {| header_particle.size := nth 0 tmp4 0%Z;
       header_particle.ndim := nth 1 tmp4 0%Z;
       header_particle.dim := nth 2 tmp4 0%Z |} in
  let offset := (offset + 3 * 4)%nat in
  Ok (v0, pheader, offset, fh).

Definition read_particle_data (fs : filesystem) (fname : string)
  : res (v0header.t * header_particle.t * list particle.t) :=
  bytes <- py_open fs fname ;;
  let fh := {| content := bytes; pos := 0 |} in
  fh <- read_boilerplate fh ;;
  '(v0, pheader, offset, fh) <- read_particle_header fh ;;
  let nptl := header_particle.dim pheader in
  let fh := seek_set fh offset in
  let '(data, fh) := np_fromfile decode_particle particle.itemsize fh nptl in
  Ok (v0, pheader, data).

(** ** particle_distribution: velocity histograms *)

(** Modelled from the spec: the simulation descriptor loaded by
    [pic_information] (not among the sources), with the fields that the
    routines below read. *)
Module pic_info.
Record t : Type := { mime : R; nx : R; ny : R; nz : R; nppc : R }.
End pic_info.

(** [math.sqrt]: a [ValueError] (math domain error) below zero. *)
Definition math_sqrt (x : R) : res R :=
  if Rltb x 0 then Raise ValueError else Ok (sqrt x).

(** [np.linspace(lo, hi, num)] for [num >= 2]: [arange(num) * step + lo]
    with [step = (hi - lo) / (num - 1)], each operation rounded, and the
    last element set to [hi]. *)
Definition np_linspace (fl : R -> R) (lo hi : R) (num : nat) : list R :=
  let step := fl (fl (hi - lo) / INR (num - 1)) in
  map (fun k => if (k =? num - 1)%nat then hi
                else fl (fl (INR k * step) + lo))
      (seq 0 num).

(** Bin of one coordinate: the edges not above [v] are counted (what a
    right-sided search in the sorted edges returns), a value on the last
    edge goes to the last bin, and a value outside the edges has no bin. *)
Definition bin_index (edges : list R) (v : R) : option nat :=
  let nb := (length edges - 1)%nat in
  let c := length (filter (fun e => Rleb e v) edges) in
  if Req_EM_T v (last edges 0) then Some (nb - 1)%nat
  else if (c =? 0)%nat then None
  else if (nb <? c)%nat then None
  else Some (c - 1)%nat.

(** A sample that is an infinity or a NaN falls in no bin. *)
Definition in_bin (edges : list R) (i : nat) (v : xfloat) : bool :=
  match v with
  | Fin r =>
      match bin_index edges r with
      | Some k => (k =? i)%nat
      | None => false
      end
  | _ => false
  end.

(** [np.histogram2d(x, y, bins, range)] with the same range [lo, hi] on both
    axes: entry [i][j] counts the samples whose [x] falls in bin [i] and
    whose [y] falls in bin [j].  The counts are floats. *)
Definition np_histogram2d (fl : R -> R) (x y : list xfloat) (bins : nat)
    (lo hi : R) : res (list (list R) * list R * list R) :=
  if (bins =? 0)%nat then Raise ValueError
  else if negb (length x =? length y)%nat then Raise ValueError
  else
    let edges := np_linspace fl lo hi (bins + 1) in
    let count i j :=
      length (filter (fun s => in_bin edges i (fst s) && in_bin edges j (snd s))
                     (combine x y)) in
    Ok (map (fun i => map (fun j => INR (count i j)) (seq 0 bins)) (seq 0 bins),
        edges, edges).

(** [str(n)] of an integer. *)
Definition py_str (n : Z) : string := NilZero.string_of_int (Z.to_int n).

(** Rows of a C-ordered array of shape [(rows, cols)]. *)
Fixpoint reshape (rows cols : nat) (l : list R) : list (list R) :=
  match rows with
  | O => []
  | S r => firstn cols l :: reshape r cols (skipn cols l)
  end.

(** [np.min(a[np.nonzero(a)])] and [np.max(a[np.nonzero(a)])] on the
    elements of an array; a reduction over no element is a [ValueError]. *)
Definition nonzero (l : list R) : list R :=
  filter (fun x => if Req_EM_T x 0 then false else true) l.

Definition np_min_nonzero (l : list R) : res R := py_min (nonzero l).
Definition np_max_nonzero (l : list R) : res R := py_max (nonzero l).

(** The namedtuples returned by the readers of distribution files. *)
Module fvelocity.
Record t : Type := {
  species : string; tframe : Z;
  center : list R; sizes : list R;
  vmin : xfloat; vmax : xfloat; nbins : Z;
  vbins_short : list xfloat; vbins_long : list xfloat;
  fvel_para_perp : list (list R); fvel_xy : list (list R);
  fvel_xz : list (list R); fvel_yz : list (list R);
  fvel_para : list R; fvel_perp : list R;
  vmin_2d : R; vmax_2d : R; vmin_1d : R; vmax_1d : R
}.
End fvelocity.

Module fenergy.
Record t : Type := {
  species : string;
  elin : list R; flin : list R; elog : list R; flog : list xfloat
}.
End fenergy.

Section ParticleDistribution.

(** The real number denoted by a [float32] and by a [float64] pattern. *)
Variable f32 : float32 -> R.
Variable f64 : float64 -> R.

(** [np.genfromtxt], as in the section on [spectrum_fitting]. *)
Variable genfromtxt : list byte -> res ndarray.

(** The roundings of [float32] and of [float64]. *)
Variable fl32 : R -> R.
Variable fl64 : R -> R.

(** The numpy value of a [float32] pattern: the patterns with all the
    exponent bits set are the infinities and the NaNs. *)
Definition x32 (w : float32) : xfloat :=
  if ((w / 2 ^ 23) mod 2 ^ 8 =? 2 ^ 8 - 1)%Z then
    (if (w mod 2 ^ 23 =? 0)%Z
     then (if (w / 2 ^ 31 =? 0)%Z then PInf else NInf)
     else NaN)
  else Fin (f32 w).

(** The cell coordinates [(ix, iy, iz)] of a flattened cell index, on the
    grid with ghost cells.  Integer division floors, and numpy gives 0 for
    a division by zero, as [Z.div] does.  The machine integers are not
    wrapped: for the cell indices of a grid of fewer than [2^31] cells every
    intermediate value lies between 0 and [icell]. *)
Definition cell_coords (v0 : v0header.t) (icell : Z) : Z * Z * Z :=
  let nx := (v0header.nx v0 + 2)%Z in
  let ny := (v0header.ny v0 + 2)%Z in
  let nz := (v0header.nz v0 + 2)%Z in
  let iz := (icell / (nx * ny))%Z in
  let iy := ((icell - iz * nx * ny) / nx)%Z in
  let ix := (icell - iz * nx * ny - iy * nx)%Z in
  (ix, iy, iz).

(** Position of a particle in ion skin depths.  [dz + 1.0] and its product
    by [0.5] are [float32] arrays; [iz - 1.0] is a [float64] array, and so
    are the sum, its product by the [float32] number [v0.dz] and the sum
    with [v0.z0]. *)
Definition position_di (v0 : v0header.t) (p : particle.t)
  : xfloat * xfloat * xfloat :=
  let '(dx, dy, dz) := particle.dxyz p in
  let '(ix, iy, iz) := cell_coords v0 (particle.icell p) in
  let z := xadd fl64 (x32 (v0header.z0 v0))
             (xmult fl64
                (xadd fl64 (Fin (fl64 (IZR iz - 1.0)))
                   (xmult fl32 (xadd fl32 (x32 dz) (Fin 1.0)) (Fin 0.5)))
                (x32 (v0header.dz v0))) in
  let y := xadd fl64 (x32 (v0header.y0 v0))
             (xmult fl64
                (xadd fl64 (Fin (fl64 (IZR iy - 1.0)))
                   (xmult fl32 (xadd fl32 (x32 dy) (Fin 1.0)) (Fin 0.5)))
                (x32 (v0header.dy v0))) in
  let x := xadd fl64 (x32 (v0header.x0 v0))
             (xmult fl64
                (xadd fl64 (Fin (fl64 (IZR ix - 1.0)))
                   (xmult fl32 (xadd fl32 (x32 dx) (Fin 1.0)) (Fin 0.5)))
                (x32 (v0header.dx v0))) in
  (x, y, z).

(** Position in electron skin depths: [x /= smime] and so on. *)
Definition position_de (v0 : v0header.t) (smime : R) (p : particle.t)
  : xfloat * xfloat * xfloat :=
  let '(x, y, z) := position_di v0 p in
  (xdivr fl64 x smime, xdivr fl64 y smime, xdivr fl64 z smime).

Definition corners_t : Type := (R * R) * (R * R) * (R * R).

(** One entry of [mask]. *)
Definition in_box (corners : corners_t) (xyz : xfloat * xfloat * xfloat)
  : bool :=
  let '(c0, c1, c2) := corners in
  let '(x, y, z) := xyz in
  xleb (Fin (fst c0)) x && xleb x (Fin (snd c0)) &&
  xleb (Fin (fst c1)) y && xleb y (Fin (snd c1)) &&
  xleb (Fin (fst c2)) z && xleb z (Fin (snd c2)).

Definition calc_velocity_distribution (v0 : v0header.t)
    (pheader : header_particle.t) (ptl : list particle.t)
    (pic : pic_info.t) (corners : corners_t) (nbins : nat)
  : res (list (list R) * list (list R) * list (list R) * list R * list R) :=
  smime <- math_sqrt (pic_info.mime pic) ;;
  let smime := fl64 smime in
  let mask := fun p => in_box corners (position_de v0 smime p) in
  let kept := filter mask ptl in
  let ux_d := map (fun p => x32 (fst (fst (particle.u p)))) kept in
  let uy_d := map (fun p => x32 (snd (fst (particle.u p)))) kept in
  let uz_d := map (fun p => x32 (snd (particle.u p))) kept in
  '(hist_xy, xedges, yedges) <-
     np_histogram2d fl64 uy_d ux_d nbins (-1.0) 1.0 ;;
  '(hist_xz, xedges, yedges) <-
     np_histogram2d fl64 uz_d ux_d nbins (-1.0) 1.0 ;;
  '(hist_yz, xedges, yedges) <-
     np_histogram2d fl64 uz_d uy_d nbins (-1.0) 1.0 ;;
  Ok (hist_xy, hist_xz, hist_yz, xedges, yedges).

Definition read_velocity_distribution (fs : filesystem) (species : string)
    (tframe : Z) (pic : pic_info.t) (fpath : string) : res fvelocity.t :=
  (* 2D distributions *)
  let fname :=
    (if String.eqb species "e"
     then fpath ++ "vdist_2d-" ++ species ++ "." ++ py_str tframe
     else fpath ++ "vdist_2d-h." ++ py_str tframe)%string in
  bytes <- py_open fs fname ;;
  let f := {| content := bytes; pos := 0 |} in
  let mm32 := np_memmap (fun bs => f32 (le_unsigned bs)) 4 in
  let mm64 := np_memmap (fun bs => f64 (le_unsigned bs)) 8 in
  let offset := 0%nat in
  '(center, f) <- mm32 f offset 3%nat ;;
  let offset := (3 * 4)%nat in
  '(sizes, f) <- mm32 f offset 3%nat ;;
  let offset := (offset + 3 * 4)%nat in
  '(vminmax, f) <- mm32 f offset 2%nat ;;
  let vmin := nth 0 vminmax 0 in
  let vmax := nth 1 vminmax 0 in
  let offset := (offset + 2 * 4)%nat in
  '(nbins_, f) <- np_memmap le_signed 4 f offset 1 ;;
  let nbins_z := nth 0 nbins_ 0%Z in
  let offset := (offset + 4)%nat in
  (* np.zeros(nbins) refuses a negative size *)
  _ <- (if (nbins_z <? 0)%Z then Raise ValueError else Ok tt) ;;
  let nbins := Z.to_nat nbins_z in
  '(vbins_short, f) <- mm64 f offset nbins ;;
  let offset := (offset + 8 * nbins)%nat in
  '(vbins_long, f) <- mm64 f offset (2 * nbins)%nat ;;
  let offset := (offset + 8 * nbins * 2)%nat in
  '(fvel_para_perp, f) <- mm64 f offset (nbins * (2 * nbins))%nat ;;
  let fvel_para_perp := reshape nbins (2 * nbins) fvel_para_perp in
  let offset := (offset + 8 * nbins * 2 * nbins)%nat in
  '(fvel_xy, f) <- mm64 f offset (2 * nbins * (2 * nbins))%nat ;;
  let fvel_xy := reshape (2 * nbins) (2 * nbins) fvel_xy in
  let offset := (offset + 8 * 2 * nbins * 2 * nbins)%nat in
  '(fvel_xz, f) <- mm64 f offset (2 * nbins * (2 * nbins))%nat ;;
  let fvel_xz := reshape (2 * nbins) (2 * nbins) fvel_xz in
  let offset := (offset + 8 * 2 * nbins * 2 * nbins)%nat in
  '(fvel_yz, f) <- mm64 f offset (2 * nbins * (2 * nbins))%nat ;;
  let fvel_yz := reshape (2 * nbins) (2 * nbins) fvel_yz in
  (* 1D distributions *)
  let fname :=
    (if String.eqb species "e"
     then fpath ++ "vdist_1d-" ++ species ++ "." ++ py_str tframe
     else fpath ++ "vdist_1d-h." ++ py_str tframe)%string in
  bytes <- py_open fs fname ;;
  let f := {| content := bytes; pos := 0 |} in
  (* skip headers *)
  let offset := (9 * 4 + 8 * nbins * 3)%nat in
  '(fvel_para, f) <- mm64 f offset (2 * nbins)%nat ;;
  let offset := (offset + 8 * nbins * 2)%nat in
  '(fvel_perp, f) <- mm64 f offset nbins ;;
  (* For ions, the saved variable is sqrt(m_i) * u *)
  smime <- math_sqrt (pic_info.mime pic) ;;
  let '(vbins_short, vbins_long, vmin, vmax) :=
    if String.eqb species "h"
    then (map (fun v => np_div v smime) vbins_short,
          map (fun v => np_div v smime) vbins_long,
          np_div vmin smime, np_div vmax smime)
    else (map Fin vbins_short, map Fin vbins_long, Fin vmin, Fin vmax) in
  (* Add small number to the distributions to avoid zeros *)
  let delta := 0.01 in
  let add2 := map (map (fun x => x + delta)) in
  let fvel_para_perp := add2 fvel_para_perp in
  let fvel_xy := add2 fvel_xy in
  let fvel_xz := add2 fvel_xz in
  let fvel_yz := add2 fvel_yz in
  let fvel_para := map (fun x => x + delta) fvel_para in
  let fvel_perp := map (fun x => x + delta) fvel_perp in
  m1 <- np_min_nonzero (concat fvel_para_perp) ;;
  m2 <- np_min_nonzero (concat fvel_xy) ;;
  m3 <- np_min_nonzero (concat fvel_xz) ;;
  m4 <- np_min_nonzero (concat fvel_yz) ;;
  vmin_2d <- py_min [m1; m2; m3; m4] ;;
  m1 <- np_max_nonzero (concat fvel_para_perp) ;;
  m2 <- np_max_nonzero (concat fvel_xy) ;;
  m3 <- np_max_nonzero (concat fvel_xz) ;;
  m4 <- np_max_nonzero (concat fvel_yz) ;;
  vmax_2d <- py_max [m1; m2; m3; m4] ;;
  m1 <- np_min_nonzero fvel_para ;;
  m2 <- np_min_nonzero fvel_perp ;;
  vmin_1d <- py_min [m1; m2] ;;
  m1 <- np_max_nonzero fvel_para ;;
  m2 <- np_max_nonzero fvel_perp ;;
  vmax_1d <- py_max [m1; m2] ;;
  Ok {| fvelocity.species := species; fvelocity.tframe := tframe;
        fvelocity.center := center; fvelocity.sizes := sizes;
        fvelocity.vmin := vmin; fvelocity.vmax := vmax;
        fvelocity.nbins := nbins_z;
        fvelocity.vbins_short := vbins_short;
        fvelocity.vbins_long := vbins_long;
        fvelocity.fvel_para_perp := fvel_para_perp;
        fvelocity.fvel_xy := fvel_xy; fvelocity.fvel_xz := fvel_xz;
        fvelocity.fvel_yz := fvel_yz;
        fvelocity.fvel_para := fvel_para; fvelocity.fvel_perp := fvel_perp;
        fvelocity.vmin_2d := vmin_2d; fvelocity.vmax_2d := vmax_2d;
        fvelocity.vmin_1d := vmin_1d; fvelocity.vmax_1d := vmax_1d |}.

Definition read_energy_distribution (fs : filesystem) (species : string)
    (tframe : Z) (pic : pic_info.t) (fpath : string) : res fenergy.t :=
  let fname :=
    (if String.eqb species "e"
     then fpath ++ "spectrum-" ++ species ++ "." ++ py_str tframe
     else fpath ++ "spectrum-h." ++ py_str tframe)%string in
  let ntot := pic_info.nx pic * pic_info.ny pic
              + pic_info.nz pic * pic_info.nppc pic in
  '(elin, flin, elog, flog) <- get_energy_distribution genfromtxt fs fname ntot ;;
  Ok {| fenergy.species := species; fenergy.elin := elin;
        fenergy.flin := flin; fenergy.elog := elog; fenergy.flog := flog |}.

End ParticleDistribution.

(** ** Sample inputs *)

Definition bytes_of (l : list N) : list byte :=
  map (fun n => match Byte.of_N n with Some b => b | None => x00 end) l.

(** A particle file: 103 bytes of boilerplate and grid header, the
    sub-header [size = 32, ndim = 1, dim = 1], one particle record holding
    the bytes 1 to 32, and three more bytes. *)
Definition sample_header : list byte :=
  bytes_of (repeat 0%N 103 ++ [32; 0; 0; 0; 1; 0; 0; 0; 1; 0; 0; 0]%N).

Definition sample_record : list byte :=
  bytes_of (map N.of_nat (seq 1 32)).

Definition sample_particle_file : list byte :=
  sample_header ++ sample_record ++ bytes_of [255; 255; 255]%N.

Definition sample_fs : filesystem :=
  fun name =>
    if String.eqb name "eparticle.0.0" then Some sample_particle_file
    else None.

(** A reader of text tables that answers with one table of two rows and
    four columns, and file systems with no file and with one spectrum
    file. *)
Definition sample_genfromtxt (bytes : list byte) : res ndarray :=
  Ok (Array2 4 [[1; 2; 3; 4]; [5; 6; 7; 8]]).

Definition empty_fs : filesystem := fun _ => None.

Definition sample_spectrum_fs : filesystem :=
  fun name => if String.eqb name "spectrum-e.10" then Some [] else None.

(** A fit routine that answers with slope [-1] and intercept [3]: the
    least-squares line through the points (1, 2), (2, 1), (3, 0). *)
Definition sample_curve_fit (X : Type) (model : X -> R -> R -> X)
    (xdata ydata : list X) : res (R * R) :=
  Ok (-1, 3).

(** The moving average of length 3 at bin [i] of at least three bins, with
    the weight [k] and the sum of products [dot]: the bin and its two
    neighbours, one neighbour only at the two ends. *)
Definition moving_average3 (dot : list R -> list R -> R) (k : R)
    (f : list R) (i : nat) : R :=
  match i with
  | O => dot [nth 0 f 0; nth 1 f 0] [k; k]
  | S j =>
      if (S i <? length f)%nat
      then dot [nth j f 0; nth i f 0; nth (S i) f 0] [k; k; k]
      else dot [nth j f 0; nth i f 0] [k; k]
  end.

(** Arithmetic without rounding, and the sum of products in it. *)
Definition exact_arithmetic (x : R) : R := x.

Definition exact_dot (x y : list R) : R :=
  fold_left (fun acc p => acc + fst p * snd p) (combine x y) 0.

(** An arithmetic that is exact except close to 1 and to -1, where it
    gives 1 and -1: as in floating-point arithmetic, [1 - x] is 1 for a
    small [x]. *)
Definition coarse_rounding (x : R) : R :=
  if Rltb 0.998 x && Rltb x 1.002 then 1
  else if Rltb (-1.002) x && Rltb x (-0.998) then -1
  else x.

(** The real number denoted by a finite IEEE-754 pattern [w] with [ebits]
    exponent bits and [mbits] fraction bits (the patterns of the infinities
    and of the NaNs denote no real number), used as decoder in the sample
    runs. *)
Definition ieee_value (ebits mbits : Z) (w : Z) : R :=
  let m := (w mod 2 ^ mbits)%Z in
  let e := ((w / 2 ^ mbits) mod 2 ^ ebits)%Z in
  let s := (w / 2 ^ (mbits + ebits))%Z in
  let bias := (2 ^ (ebits - 1) - 1)%Z in
  (if (s =? 0)%Z then 1 else -1) *
  (if (e =? 0)%Z then IZR m * powerRZ 2 (1 - bias - mbits)
   else IZR (2 ^ mbits + m) * powerRZ 2 (e - bias - mbits)).

Definition sample_f32 : float32 -> R := ieee_value 8 23.
Definition sample_f64 : float64 -> R := ieee_value 11 52.

(** A grid of one cell per axis with unit spacing and origin 0, and a
    particle at the centre of the inner cell (1, 1, 1) with velocity
    (0.5, 0.5, 0.5); [0x3F800000] is 1.0 and [0x3F000000] is 0.5. *)
Definition sample_v0 : v0header.t :=
  {| v0header.version := 0; v0header.type := 0; v0header.nt := 0;
     v0header.nx := 1; v0header.ny := 1; v0header.nz := 1;
     v0header.dt := 0;
     v0header.dx := 0x3F800000; v0header.dy := 0x3F800000;
     v0header.dz := 0x3F800000;
     v0header.x0 := 0; v0header.y0 := 0; v0header.z0 := 0;
     v0header.cvac := 0x3F800000; v0header.eps0 := 0x3F800000;
     v0header.damp := 0;
     v0header.rank := 0; v0header.ndom := 1; v0header.spid := 0;
     v0header.spqm := 0 |}%Z.

Definition sample_pheader : header_particle.t :=
  {| header_particle.size := 32; header_particle.ndim := 1;
     header_particle.dim := 1 |}%Z.

Definition sample_particle : particle.t :=
  {| particle.dxyz := (0, 0, 0);
     particle.icell := 13;
     particle.u := (0x3F000000, 0x3F000000, 0x3F000000);
     particle.q := 0x3F800000 |}%Z.

Definition sample_pic : pic_info.t :=
  {| pic_info.mime := 25; pic_info.nx := 1; pic_info.ny := 1;
     pic_info.nz := 1; pic_info.nppc := 1 |}.

Definition sample_corners : (R * R) * (R * R) * (R * R) :=
  ((0, 1), (0, 1), (0, 1)).

(** The [count] values of type [float64] stored from byte [offset] of a
    file, and the [float32] value stored at byte [offset]. *)
Definition stored64 (f64 : float64 -> R) (b : list byte) (offset count : nat)
  : list R :=
  map (fun bs => f64 (le_unsigned bs)) (chunks 8 count (skipn offset b)).

Definition stored32 (f32 : float32 -> R) (b : list byte) (offset : nat) : R :=
  f32 (le_unsigned (firstn 4 (skipn offset b))).

(** Well-formed pair of velocity-distribution files of a species: the
    2D file [b2] announces [n >= 1] bins at byte 32, both files hold all the
    arrays that the reader maps, and the stored histograms are counts, hence
    not negative. *)
Definition vdist_files (f64 : float64 -> R) (fs : filesystem)
    (species : string) (tframe : Z) (fpath : string) (b2 b1 : list byte)
    (n : nat) : Prop :=
  fs (if String.eqb species "e"
      then fpath ++ "vdist_2d-" ++ species ++ "." ++ py_str tframe
      else fpath ++ "vdist_2d-h." ++ py_str tframe)%string = Some b2 /\
  fs (if String.eqb species "e"
      then fpath ++ "vdist_1d-" ++ species ++ "." ++ py_str tframe
      else fpath ++ "vdist_1d-h." ++ py_str tframe)%string = Some b1 /\
  le_signed (firstn 4 (skipn 32 b2)) = Z.of_nat n /\
  (1 <= n)%nat /\
  (36 + 24 * n + 112 * (n * n) <= length b2)%nat /\
  (36 + 48 * n <= length b1)%nat /\
  Forall (fun x => 0 <= x) (stored64 f64 b2 (36 + 24 * n) (n * (2 * n))) /\
  Forall (fun x => 0 <= x)
         (stored64 f64 b2 (36 + 24 * n + 16 * (n * n)) (2 * n * (2 * n))) /\
  Forall (fun x => 0 <= x)
         (stored64 f64 b2 (36 + 24 * n + 48 * (n * n)) (2 * n * (2 * n))) /\
  Forall (fun x => 0 <= x)
         (stored64 f64 b2 (36 + 24 * n + 80 * (n * n)) (2 * n * (2 * n))) /\
  Forall (fun x => 0 <= x) (stored64 f64 b1 (36 + 24 * n) (2 * n)) /\
  Forall (fun x => 0 <= x) (stored64 f64 b1 (36 + 40 * n) n).

(** Ion files of frame 10 with one bin: the only short velocity bin holds
    5.0 ([0x4014000000000000], little-endian), everything else is zero. *)
Definition sample_vdist_2d : list byte :=
  bytes_of (repeat 0 32 ++ [1; 0; 0; 0] ++ [0; 0; 0; 0; 0; 0; 0x14; 0x40]
            ++ repeat 0 (16 + 112))%N.

Definition sample_vdist_1d : list byte := bytes_of (repeat 0%N 84).

Definition sample_vdist_fs : filesystem :=
  fun name =>
    if String.eqb name "vdist_2d-h.10" then Some sample_vdist_2d
    else if String.eqb name "vdist_1d-h.10" then Some sample_vdist_1d
    else None.

(** What the two arrays of [accumulated_particle_info] hold, before the final
    scaling, once the bins below [k] have been written. *)
Definition accumulated_upto (ene f : list R) (k : nat) (nacc eacc : list R)
  : Prop :=
  length nacc = length f /\ length eacc = length f /\
  nth 0 nacc 0 = nth 0 f 0 * nth 0 ene 0 /\
  nth 0 eacc 0 = 0.5 * nth 0 f 0 * nth 0 ene 0 ^ 2 /\
  forall i, (1 <= i < k)%nat ->
    nth i nacc 0 =
      nth i f 0 * (nth i ene 0 + nth (i - 1) ene 0) * 0.5 + nth (i - 1) nacc 0 /\
    nth i eacc 0 =
      0.5 * nth i f 0 * (nth i ene 0 - nth (i - 1) ene 0)
        * (nth i ene 0 + nth (i - 1) ene 0) + nth (i - 1) eacc 0.

(** * Further routines of the two files *)

(** ** Further numpy helpers *)

(** Index of the first occurrence of the minimum for the strict order
    [lt]. *)
Fixpoint argmin_by {A : Type} (lt : A -> A -> bool) (best : A)
    (ibest i : nat) (l : list A) : nat :=
  match l with
  | [] => ibest
  | y :: t =>
      if lt y best then argmin_by lt y i (S i) t
      else argmin_by lt best ibest (S i) t
  end.

(** [np.argmin] on finite values; [ValueError] on an empty array. *)
Definition np_argmin (l : list R) : res nat :=
  match l with
  | [] => Raise ValueError
  | x :: t => Ok (argmin_by Rltb x 0 1 t)
  end.

(** [a < b] on numpy values that are not NaN. *)
Definition xltb (a b : xfloat) : bool :=
  match a, b with
  | NaN, _ | _, NaN => false
  | NInf, NInf => false
  | NInf, _ => true
  | _, NInf => false
  | PInf, _ => false
  | Fin _, PInf => true
  | Fin x, Fin y => Rltb x y
  end.

Definition is_nan (x : xfloat) : bool :=
  match x with NaN => true | _ => false end.

(** Index of the first element that satisfies [p]. *)
Fixpoint find_index {A : Type} (p : A -> bool) (l : list A) : option nat :=
  match l with
  | [] => None
  | x :: t =>
      if p x then Some 0%nat
      else match find_index p t with
           | Some k => Some (S k)
           | None => None
           end
  end.

(** [np.argmin] on an array that may hold special values: a NaN counts as
    the minimum, and the first one is returned. *)
Definition np_argmin_x (l : list xfloat) : res nat :=
  match l with
  | [] => Raise ValueError
  | x :: t =>
      match find_index is_nan l with
      | Some k => Ok k
      | None => Ok (argmin_by xltb x 0 1 t)
      end
  end.

(** [np.nanargmin]: the NaNs are replaced by [+inf] before [np.argmin];
    an array of NaNs only is a [ValueError]. *)
Definition np_nanargmin (l : list xfloat) : res nat :=
  match l with
  | [] => Raise ValueError
  | _ :: _ =>
      if forallb is_nan l then Raise ValueError
      else np_argmin_x (map (fun x => if is_nan x then PInf else x) l)
  end.

(** Broadcasting of two one-dimensional operands: equal lengths, or one
    operand of length 1, which is repeated; a [ValueError] otherwise. *)
Definition np_broadcast {A B C : Type} (op : A -> B -> C) (da : A) (db : B)
    (a : list A) (b : list B) : res (list C) :=
  if (length a =? length b)%nat
  then Ok (map (fun p => op (fst p) (snd p)) (combine a b))
  else if (length a =? 1)%nat then Ok (map (fun y => op (nth 0 a da) y) b)
  else if (length b =? 1)%nat then Ok (map (fun x => op x (nth 0 b db)) a)
  else Raise ValueError.

(** [a - b] and [a / b] on arrays; the quotients are rounded. *)
Definition np_sub (a b : list R) : res (list R) :=
  np_broadcast Rminus 0 0 a b.

Definition np_divide (fl : R -> R) (a b : list R) : res (list xfloat) :=
  np_broadcast (fl_div fl) 0 0 a b.

(** [t += d] on an array or on a view of one: the operand must have the
    length of the target, or length 1. *)
Definition np_iadd (t d : list R) : res (list R) :=
  if (length d =? length t)%nat
  then Ok (map (fun p => fst p + snd p) (combine t d))
  else if (length d =? 1)%nat then Ok (map (fun x => x + nth 0 d 0) t)
  else Raise ValueError.

(** Product of a number by a numpy value, rounded. *)
Definition xmul (fl : R -> R) (x : R) (s : xfloat) : xfloat :=
  match s with
  | Fin a => Fin (fl (x * a))
  | PInf => if Rltb 0 x then PInf else if Rltb x 0 then NInf else NaN
  | NInf => if Rltb 0 x then NInf else if Rltb x 0 then PInf else NaN
  | NaN => NaN
  end.

(** [1.0 / math.sqrt(1.0 - 3.0 * vth**2)] on Python floats, every operation
    rounded: the square root of a negative number is a [ValueError], the
    division by zero a [ZeroDivisionError]. *)
Definition lorentz_gamma (fl : R -> R) (vth : R) : res R :=
  s <- math_sqrt (fl (1.0 - fl (3.0 * fl (vth ^ 2)))) ;;
  let s := fl s in
  if Req_EM_T s 0 then Raise ZeroDivisionError else Ok (fl (1.0 / s)).

(** [s.zfill(width)]: zeros are added on the left, after a sign, up to the
    width. *)
Definition py_zfill (s : string) (width : nat) : string :=
  if (width <=? String.length s)%nat then s
  else
    let zeros :=
      string_of_list_ascii (repeat "0"%char (width - String.length s)) in
    match s with
    | String c rest =>
        if (Ascii.eqb c "+" || Ascii.eqb c "-")%bool
        then String c (zeros ++ rest)
        else (zeros ++ s)%string
    | EmptyString => zeros
    end.

(** [np.max(np.nonzero(a))]: the index of the last element that is not
    zero; a [ValueError] when all of them are. *)
Definition is_nonzero (x : xfloat) : bool :=
  match x with
  | Fin r => if Req_EM_T r 0 then false else true
  | _ => true
  end.

Fixpoint last_nonzero_from (i : nat) (l : list xfloat) (found : option nat)
  : option nat :=
  match l with
  | [] => found
  | x :: t =>
      last_nonzero_from (S i) t (if is_nonzero x then Some i else found)
  end.

Definition np_max_nonzero_index (a : list xfloat) : res nat :=
  match last_nonzero_from 0 a None with
  | Some k => Ok k
  | None => Raise ValueError
  end.

(** Modelled from the spec: the simulation descriptor with the further
    fields that the routines below read; the descriptor holds Python
    numbers.  [info] holds the fields of [pic_info]. *)
Module pic_run.
Record t : Type := {
  info : pic_info.t;
  vthe : R; vthi : R;
  ntp : Z;
  lx_di : R; ly_di : R; lz_di : R;
  dx_di : R; dy_di : R; dz_di : R;
  topology_x : Z; topology_y : Z; topology_z : Z
}.
End pic_run.

(** ** spectrum_fitting: thermal and power-law parts *)

Definition get_thermal_total (ene f fthermal : list R) (fnorm : R)
  : res (R * R * R * R) :=
  '(nacc, eacc) <- accumulated_particle_info ene f ;;
  ntot <- py_index nacc (-1) ;;
  etot <- py_index eacc (-1) ;;
  '(nacc_thermal, eacc_thermal) <- accumulated_particle_info ene fthermal ;;
  nthermal <- py_index nacc_thermal (-1) ;;
  ethermal <- py_index eacc_thermal (-1) ;;
  let nthermal := nthermal * fnorm in
  let ethermal := ethermal * fnorm in
  let ntot := ntot * fnorm in
  let etot := etot * fnorm in
  Ok (nthermal, ntot, ethermal, etot).

Section SpectrumFittingParts.

Variable curve_fit :
  forall X : Type, (X -> R -> R -> X) -> list X -> list X -> res (R * R).
Variable func_maxwellian : R -> R -> R -> R.

(** The rounding of [float64]. *)
Variable fl : R -> R.

(** [vth] and [mime] are Python numbers, so that [1.5 / thermalEnergy]
    raises [ZeroDivisionError] for a zero thermal energy. *)
Definition background_thermal_core (ene f : list R) (vth mime : R)
  : res (list xfloat) :=
  gama <- lorentz_gamma fl vth ;;
  let thermalEnergy := fl (fl (gama - 1) * mime) in
  b <- (if Req_EM_T thermalEnergy 0 then Raise ZeroDivisionError
        else Ok (fl (1.5 / thermalEnergy))) ;;
  let fthermal := map (fun e => func_maxwellian e 1.0 b) ene in
  ratio <- np_divide fl f fthermal ;;
  nanMinIndex <- np_nanargmin ratio ;;
  let k := Z.of_nat nanMinIndex in
  ratio <- np_divide fl (py_slice f 0 k) (py_slice fthermal 0 k) ;;
  tindex <- np_argmin_x ratio ;;
  ft <- get f tindex ;;
  ftht <- get fthermal tindex ;;
  let scale := fl_div fl ft ftht in
  Ok (map (fun x => xmul fl x scale) fthermal).

Definition lower_thermal_core (ene f : list R) : res (list R) :=
  let estart := 0%Z in
  eend <- np_argmax f ;;
  emin <- np_argmin (py_slice f 0 (Z.of_nat eend)) ;;
  let emin := Z.of_nat emin in
  popt <- curve_fit R func_maxwellian
            (py_slice ene estart emin) (py_slice f estart emin) ;;
  let fthermal := map (fun e => func_maxwellian e (fst popt) (snd popt)) ene in
  (* fthermal[:emin] += f[:emin] - fthermal[:emin] *)
  d <- np_sub (py_slice f 0 emin) (py_slice fthermal 0 emin) ;;
  head <- np_iadd (py_slice fthermal 0 emin) d ;;
  let fthermal := head ++ skipn (length head) fthermal in
  (* fthermal[emin:] = 0.0 *)
  let cut := slice_bound (length fthermal) emin in
  let fthermal := firstn cut fthermal ++ repeat 0.0 (length fthermal - cut) in
  Ok fthermal.

Definition fit_nonthermal_power_law (ene f fthermal : list R)
    (species : string) (eshift erange : Z)
  : res (list xfloat * Z * Z * (R * R)) :=
  fnonthermal <- np_sub f fthermal ;;
  imax <- np_argmax fnonthermal ;;
  let estart := (Z.of_nat imax + eshift)%Z in
  let eend := (estart + erange)%Z in
  popt <- curve_fit xfloat func_line
            (map np_log10 (py_slice ene estart eend))
            (map np_log10 (py_slice fnonthermal estart eend)) ;;
  (* print 'Starting and ending energies for fitting: ',
           ene[estart], ene[eend] *)
  _ <- py_index ene estart ;;
  _ <- py_index ene eend ;;
  let fpowerlaw :=
    map (fun e => func_line (np_log10 e) (fst popt) (snd popt)) ene in
  let fpowerlaw := map np_power10 fpowerlaw in
  Ok (fpowerlaw, estart, eend, popt).

Definition fit_powerlaw_whole (ene f : list R) (species : string)
  : res (list xfloat * Z * Z * (R * R) * xfloat * xfloat) :=
  imax <- np_argmax f ;;
  let estart := (Z.of_nat imax + 50)%Z in
  let power_range := if String.eqb species "e" then 90%Z else 130%Z in
  let eend := (estart + power_range)%Z in
  popt <- curve_fit xfloat func_line
            (map np_log10 (py_slice ene estart eend))
            (map np_log10 (py_slice f estart eend)) ;;
  (* print 'Starting and ending energies for fitting: ',
           ene[estart], ene[eend] *)
  _ <- py_index ene estart ;;
  _ <- py_index ene eend ;;
  let fpower :=
    map (fun e => func_line (np_log10 e) (fst popt) (snd popt)) ene in
  let fpower := map np_power10 fpower in
  (* as in power_law_fit: a curve that is not finite on the window comes
     with an energy that is not positive, on which the call raises *)
  '(npower, epower) <-
     (match finite_list (py_slice fpower estart eend) with
      | Some fw => accumulated_particle_info (py_slice ene estart eend) fw
      | None => Raise ValueError
      end) ;;
  '(ntot, etot) <- accumulated_particle_info ene f ;;
  np_last <- py_index npower (-1) ;;
  nt_last <- py_index ntot (-1) ;;
  ep_last <- py_index epower (-1) ;;
  et_last <- py_index etot (-1) ;;
  let nportion := np_div np_last nt_last in
  let eportion := np_div ep_last et_last in
  Ok (fpower, estart, eend, popt, nportion, eportion).

End SpectrumFittingParts.

(** ** spectrum_fitting: normalized and maximum energies *)

(** [vth] is [pic_info.vthe] for the species ['e'] and [pic_info.vthi] for
    any other one; [fl] is the rounding of [float64]. *)
Definition get_normalized_energy (fl : R -> R) (species : string)
    (ene_bins : list R) (pic : pic_run.t) : res (list xfloat) :=
  let vth :=
    if String.eqb species "e" then pic_run.vthe pic else pic_run.vthi pic in
  gama <- lorentz_gamma fl vth ;;
  let eth := fl (gama - 1.0) in
  let ene_bins_norm := map (fun e => fl_div fl e eth) ene_bins in
  Ok ene_bins_norm.

Section MaximumEnergy.

(** [np.genfromtxt(f, delimiter='')], as in the section on
    [spectrum_fitting], and [np.genfromtxt(f)], which gives an array of any
    shape: its shape and its elements. *)
Variable genfromtxt : list byte -> res ndarray.
Variable genfromtxt_default : list byte -> res (list nat * list R).

(** The rounding of [float64]. *)
Variable fl : R -> R.

(** One pass of the loop of [maximum_energy_spectra]; [None] stands for the
    [return] without a value. *)
Definition maximum_energy_spectra_step (fs : filesystem) (species : string)
    (pic : pic_run.t) (fpath : string) (acc : option (list R)) (ct : nat)
  : res (option (list R)) :=
  match acc with
  | None => Ok None
  | Some max_ene =>
      let sct := py_str (Z.of_nat ct) in
      let fname :=
        (fpath ++ "spectrum-" ++ species ++ "."
           ++ py_zfill sct (String.length sct))%string in
      let nx := pic_info.nx (pic_run.info pic) in
      let ny := pic_info.ny (pic_run.info pic) in
      let nz := pic_info.nz (pic_run.info pic) in
      let nppc := pic_info.nppc (pic_run.info pic) in
      let ptl_mass :=
        if String.eqb species "e" then 1.0
        else pic_info.mime (pic_run.info pic) in
      let fnorm := nx * ny * nz * nppc * ptl_mass in
      match fs fname with
      | None => Ok None
      | Some _ =>
          '(ene_lin, flin, ene_log, flog) <-
             get_energy_distribution genfromtxt fs fname fnorm ;;
          ene_log_norm <- get_normalized_energy fl species ene_log pic ;;
          k <- np_max_nonzero_index flog ;;
          e <- get ene_log k ;;
          Ok (Some (set_item max_ene ct e))
      end
  end.

Definition maximum_energy_spectra (fs : filesystem) (ntp : Z)
    (species : string) (pic : pic_run.t) (fpath : string)
  : res (option (list xfloat)) :=
  (* np.zeros(ntp) *)
  _ <- (if (ntp <? 0)%Z then Raise ValueError else Ok tt) ;;
  let max_ene := repeat 0 (Z.to_nat ntp) in
  r <- foldM (maximum_energy_spectra_step fs species pic fpath)
         (seq 1 (Z.to_nat ntp - 1)) (Some max_ene) ;;
  match r with
  | None => Ok None
  | Some max_ene =>
      let vth :=
        if String.eqb species "e" then pic_run.vthe pic
        else pic_run.vthi pic in
      gama <- lorentz_gamma fl vth ;;
      let eth := fl (gama - 1.0) in
      Ok (Some (map (fun e => fl_div fl e eth) max_ene))
  end.

Definition maximum_energy_particle (fs : filesystem) (species : string)
    (pic : pic_run.t) (fpath : string) : res (list nat * list xfloat) :=
  (* np.zeros(pic_info.ntp) *)
  _ <- (if (pic_run.ntp pic <? 0)%Z then Raise ValueError else Ok tt) ;;
  let fname := (fpath ++ "emax-" ++ species ++ ".dat")%string in
  f <- py_open fs fname ;;
  max_ene <- genfromtxt_default f ;;
  let vth :=
    if String.eqb species "e" then pic_run.vthe pic else pic_run.vthi pic in
  gama <- lorentz_gamma fl vth ;;
  let eth := fl (gama - 1.0) in
  Ok (fst max_ene, map (fun e => fl_div fl e eth) (snd max_ene)).

End MaximumEnergy.

(** ** particle_distribution: the box of a query *)

(** A coordinate of the box: its value, and whether it is the Python float
    assigned by a clamp ([true]) or the numpy number computed from the
    centre. *)
Definition coord : Type := (R * bool)%type.

(** [if (x < lo): x = lo] followed by [if (x > hi): x = hi]. *)
Definition clamp (lo hi : R) (x : coord) : coord :=
  let x := if Rltb (fst x) lo then (lo, true) else x in
  if Rltb hi (fst x) then (hi, true) else x.

(** [int(math.floor(x / d))], the floor of the rounded quotient: a Python
    float divided by zero raises [ZeroDivisionError]; a numpy number divided
    by zero is a NaN or an infinity, which [int] refuses with [ValueError]
    and [OverflowError]. *)
Definition floor_div (fl : R -> R) (x : coord) (d : R) : res Z :=
  if Req_EM_T d 0 then
    (if snd x then Raise ZeroDivisionError
     else if Req_EM_T (fst x) 0 then Raise ValueError
     else Raise (Exn "OverflowError"))
  else Ok (Int_part (fl (fst x / d))).

(** [lx_di / topology_x]: Python float by Python integer. *)
Definition py_div_int (fl : R -> R) (x : R) (n : Z) : res R :=
  if (n =? 0)%Z then Raise ZeroDivisionError else Ok (fl (x / IZR n)).

Definition ranks_t : Type := ((Z * Z) * (Z * Z) * (Z * Z))%type.

(** [fl] is the rounding of [float64]. *)
Definition set_mpi_ranks (fl : R -> R) (pic : pic_run.t)
    (center sizes : R * R * R) : res (corners_t * ranks_t) :=
  (* The domain sizes for each MPI process (in di) *)
  dx_domain <- py_div_int fl (pic_run.lx_di pic) (pic_run.topology_x pic) ;;
  dy_domain <- py_div_int fl (pic_run.ly_di pic) (pic_run.topology_y pic) ;;
  dz_domain <- py_div_int fl (pic_run.lz_di pic) (pic_run.topology_z pic) ;;
  let lx_di := pic_run.lx_di pic in
  let ly_di := pic_run.ly_di pic in
  let lz_di := pic_run.lz_di pic in
  (* The sizes of each cell *)
  let dx_di := pic_run.dx_di pic in
  let dy_di := pic_run.dy_di pic in
  let dz_di := pic_run.dz_di pic in
  let '(c0, c1, c2) := center in
  let '(s0, s1, s2) := sizes in
  let h0 := fl (s0 / 2.0) in
  let h1 := fl (s1 / 2.0) in
  let h2 := fl (s2 / 2.0) in
  let xs : coord := (fl (c0 - fl (h0 * dx_di)), false) in
  let xe : coord := (fl (c0 + fl (h0 * dx_di)), false) in
  let ys : coord := (fl (c1 - fl (h1 * dy_di)), false) in
  let ye : coord := (fl (c1 + fl (h1 * dy_di)), false) in
  let zs : coord := (fl (c2 - fl (h2 * dz_di)), false) in
  let ze : coord := (fl (c2 + fl (h2 * dz_di)), false) in
  (* x in [0, lx_di], y in [-ly_di/2, ly_di/2], z in [-lz_di/2, lz_di/2] *)
  let xs := clamp 0.0 lx_di xs in
  let xe := clamp 0.0 lx_di xe in
  let ys := clamp (fl (- ly_di * 0.5)) (fl (ly_di * 0.5)) ys in
  let ye := clamp (fl (- ly_di * 0.5)) (fl (ly_di * 0.5)) ye in
  let zs := clamp (fl (- lz_di * 0.5)) (fl (lz_di * 0.5)) zs in
  let ze := clamp (fl (- lz_di * 0.5)) (fl (lz_di * 0.5)) ze in
  ixs <- floor_div fl xs dx_domain ;;
  ixe <- floor_div fl xe dx_domain ;;
  iys <- floor_div fl (fl (fst ys + fl (ly_di * 0.5)), snd ys) dy_domain ;;
  iye <- floor_div fl (fl (fst ye + fl (ly_di * 0.5)), snd ye) dy_domain ;;
  izs <- floor_div fl (fl (fst zs + fl (lz_di * 0.5)), snd zs) dz_domain ;;
  ize <- floor_div fl (fl (fst ze + fl (lz_di * 0.5)), snd ze) dz_domain ;;
  let ixe :=
    if (pic_run.topology_x pic <=? ixe)%Z
    then (pic_run.topology_x pic - 1)%Z else ixe in
  let iye :=
    if (pic_run.topology_y pic <=? iye)%Z
    then (pic_run.topology_y pic - 1)%Z else iye in
  let ize :=
    if (pic_run.topology_z pic <=? ize)%Z
    then (pic_run.topology_z pic - 1)%Z else ize in
  let corners := ((fst xs, fst xe), (fst ys, fst ye), (fst zs, fst ze)) in
  let mpi_ranks := ((ixs, ixe), (iys, iye), (izs, ize)) in
  Ok (corners, mpi_ranks).

(** ** Sample inputs of the further routines *)

(** A run of 3 frames on a domain of 8 x 4 x 4 ion inertial lengths, cells
    of half an inertial length and 4 x 2 x 2 MPI processes. *)
Definition sample_pic_run : pic_run.t :=
  {| pic_run.info := sample_pic;
     pic_run.vthe := 0.5; pic_run.vthi := 0.1;
     pic_run.ntp := 3;
     pic_run.lx_di := 8; pic_run.ly_di := 4; pic_run.lz_di := 4;
     pic_run.dx_di := 0.5; pic_run.dy_di := 0.5; pic_run.dz_di := 0.5;
     pic_run.topology_x := 4; pic_run.topology_y := 2;
     pic_run.topology_z := 2 |}.

(** A reader that answers with a vector of three energies, and a file
    system with the file of the maximum electron energies only. *)
Definition sample_genfromtxt_default (bytes : list byte)
  : res (list nat * list R) :=
  Ok ([3%nat], [0; 1; 2]).

Definition sample_emax_fs : filesystem :=
  fun name => if String.eqb name "emax-e.dat" then Some [] else None.

(** The same descriptor with other thermal speeds. *)
Definition with_speeds (pic : pic_run.t) (vthe vthi : R) : pic_run.t :=
  {| pic_run.info := pic_run.info pic;
     pic_run.vthe := vthe; pic_run.vthi := vthi;
     pic_run.ntp := pic_run.ntp pic;
     pic_run.lx_di := pic_run.lx_di pic; pic_run.ly_di := pic_run.ly_di pic;
     pic_run.lz_di := pic_run.lz_di pic;
     pic_run.dx_di := pic_run.dx_di pic; pic_run.dy_di := pic_run.dy_di pic;
     pic_run.dz_di := pic_run.dz_di pic;
     pic_run.topology_x := pic_run.topology_x pic;
     pic_run.topology_y := pic_run.topology_y pic;
     pic_run.topology_z := pic_run.topology_z pic |}.

(** A file system with the electron spectrum of frame 1 only. *)
Definition sample_spectra_fs : filesystem :=
  fun name => if String.eqb name "spectrum-e.1" then Some [] else None.

(** What one frame contributes: the energy of the last bin of the
    logarithmic spectrum whose flux is not zero. *)
Definition frame_maximum (genfromtxt : list byte -> res ndarray)
    (fs : filesystem) (species : string) (pic : pic_run.t) (fpath : string)
    (ct : nat) (e : R) : Prop :=
  exists elin flin elog flog k,
    get_energy_distribution genfromtxt fs
      (fpath ++ "spectrum-" ++ species ++ "." ++ py_str (Z.of_nat ct))%string
      (pic_info.nx (pic_run.info pic) * pic_info.ny (pic_run.info pic)
       * pic_info.nz (pic_run.info pic) * pic_info.nppc (pic_run.info pic)
       * (if String.eqb species "e" then 1.0
          else pic_info.mime (pic_run.info pic)))
      = Ok (elin, flin, elog, flog) /\
    (k < length elog)%nat /\ (k < length flog)%nat /\
    is_nonzero (nth k flog (Fin 0)) = true /\
    (forall j, (k < j < length flog)%nat -> nth j flog (Fin 0) = Fin 0) /\
    e = nth k elog 0.

(** ** particle_distribution: sums of histograms *)

(** [hist_xy += vhist_xy] of [get_particle_distribution], on two arrays of
    the same shape. *)
Definition hist_add (hist vhist : list (list R)) : list (list R) :=
  map (fun rows => map (fun p => fst p + snd p)
                       (combine (fst rows) (snd rows)))
      (combine hist vhist).

(** * Proofs *)

(** ** Arrays *)

Lemma get_nth {A : Type} (a : list A) (i : nat) (d : A) :
  (i < length a)%nat -> get a i = Ok (nth i a d).
Proof.
  intros Hi. unfold get.
  rewrite (nth_error_nth' a d Hi). reflexivity.
Qed.

Lemma get_out {A : Type} (a : list A) (i : nat) :
  (length a <= i)%nat -> get a i = Raise IndexError.
Proof.
  intros Hi. unfold get.
  apply nth_error_None in Hi. rewrite Hi. reflexivity.
Qed.

Lemma set_item_length {A : Type} (a : list A) (i : nat) (v : A) :
  length (set_item a i v) = length a.
Proof.
  revert i. induction a as [|x t IH]; intros [|j]; simpl; auto.
Qed.

Lemma nth_set_item_eq {A : Type} (a : list A) (i : nat) (v d : A) :
  (i < length a)%nat -> nth i (set_item a i v) d = v.
Proof.
  revert i. induction a as [|x t IH]; intros [|j] Hi; simpl in *;
    try lia; auto.
  apply IH. lia.
Qed.

Lemma nth_set_item_neq {A : Type} (a : list A) (i j : nat) (v d : A) :
  i <> j -> nth j (set_item a i v) d = nth j a d.
Proof.
  revert i j. induction a as [|x t IH]; intros [|i] [|j] Hij; simpl;
    try congruence; auto.
Qed.

(** ** Builtin [max] and [min] *)

Lemma Rltb_true (x y : R) : Rltb x y = true <-> x < y.
Proof. unfold Rltb. destruct (Rlt_dec x y); split; intros; auto; discriminate. Qed.

Lemma Rltb_false (x y : R) : Rltb x y = false <-> y <= x.
Proof.
  unfold Rltb. destruct (Rlt_dec x y); split; intros; auto; try discriminate; lra.
Qed.

Lemma Rleb_true (x y : R) : Rleb x y = true <-> x <= y.
Proof. unfold Rleb. destruct (Rle_dec x y); split; intros; auto; discriminate. Qed.

Lemma Rleb_false (x y : R) : Rleb x y = false <-> y < x.
Proof.
  unfold Rleb. destruct (Rle_dec x y); split; intros; auto; try discriminate; lra.
Qed.

Lemma fold_max_spec (t : list R) (x : R) :
  let m := fold_left (fun m y => if Rltb m y then y else m) t x in
  In m (x :: t) /\ forall y, In y (x :: t) -> y <= m.
Proof.
  revert x. induction t as [|z t IH]; intros x; simpl.
  - split; [auto | intros y [<-|[]]; lra].
  - destruct (Rltb x z) eqn:E.
    + apply Rltb_true in E. destruct (IH z) as [Hin Hub]. split.
      * simpl in Hin. tauto.
      * intros y [<-|Hy]; [|apply Hub; exact Hy].
        specialize (Hub z (or_introl eq_refl)). lra.
    + apply Rltb_false in E. destruct (IH x) as [Hin Hub]. split.
      * simpl in Hin. tauto.
      * intros y [<-|[<-|Hy]].
        -- apply Hub; left; reflexivity.
        -- specialize (Hub x (or_introl eq_refl)). lra.
        -- apply Hub; right; exact Hy.
Qed.

Lemma fold_min_spec (t : list R) (x : R) :
  let m := fold_left (fun m y => if Rltb y m then y else m) t x in
  In m (x :: t) /\ forall y, In y (x :: t) -> m <= y.
Proof.
  revert x. induction t as [|z t IH]; intros x; simpl.
  - split; [auto | intros y [<-|[]]; lra].
  - destruct (Rltb z x) eqn:E.
    + apply Rltb_true in E. destruct (IH z) as [Hin Hlb]. split.
      * simpl in Hin. tauto.
      * intros y [<-|Hy]; [|apply Hlb; exact Hy].
        specialize (Hlb z (or_introl eq_refl)). lra.
    + apply Rltb_false in E. destruct (IH x) as [Hin Hlb]. split.
      * simpl in Hin. tauto.
      * intros y [<-|[<-|Hy]].
        -- apply Hlb; left; reflexivity.
        -- specialize (Hlb x (or_introl eq_refl)). lra.
        -- apply Hlb; right; exact Hy.
Qed.

(** On a non-empty array [max] returns an element that bounds all others. *)
Lemma py_max_spec (l : list R) :
  l <> [] ->
  exists m, py_max l = Ok m /\ In m l /\ forall y, In y l -> y <= m.
Proof.
  destruct l as [|x t]; [congruence|]. intros _.
  eexists. split; [reflexivity|]. apply fold_max_spec.
Qed.

Lemma py_min_spec (l : list R) :
  l <> [] ->
  exists m, py_min l = Ok m /\ In m l /\ forall y, In y l -> m <= y.
Proof.
  destruct l as [|x t]; [congruence|]. intros _.
  eexists. split; [reflexivity|]. apply fold_min_spec.
Qed.

(** ** Rounding *)

Lemma rounding_exact : rounding exact_arithmetic.
Proof.
  unfold rounding, exact_arithmetic. repeat split; auto.
Qed.

Lemma fl_monotone (fl : R -> R) (x y : R) :
  rounding fl -> x <= y -> fl x <= fl y.
Proof. intros (H & _ & _). apply H. Qed.

Lemma fl_opp (fl : R -> R) (x : R) : rounding fl -> fl (- x) = - fl x.
Proof. intros (_ & H & _). apply H. Qed.

(** The small integers and their halves, quarters and so on are not
    rounded. *)
Lemma fl_dyadic (fl : R -> R) (m : Z) (k : nat) (x : R) :
  rounding fl -> (Z.abs m <= 128)%Z -> (k <= 100)%nat ->
  x = IZR m / 2 ^ k -> fl x = x.
Proof. intros (_ & _ & H) Hm Hk ->. apply H; assumption. Qed.

Lemma fl_0 (fl : R -> R) : rounding fl -> fl 0 = 0.
Proof.
  intros H. apply (fl_dyadic fl 0 0 0 H); [lia | lia | cbn; lra].
Qed.

Lemma fl_1 (fl : R -> R) : rounding fl -> fl 1 = 1.
Proof.
  intros H. apply (fl_dyadic fl 1 0 1 H); [lia | lia | cbn; lra].
Qed.

Lemma fl_nonneg (fl : R -> R) (x : R) : rounding fl -> 0 <= x -> 0 <= fl x.
Proof.
  intros H Hx. rewrite <- (fl_0 fl H). apply fl_monotone; assumption.
Qed.

Lemma pow2_ge_256 (k : nat) : 256 <= 2 ^ (8 + k).
Proof.
  rewrite pow_add.
  assert (1 <= 2 ^ k) by (apply pow_R1_Rle; lra).
  replace (2 ^ 8) with 256 by (cbn; lra). lra.
Qed.

(** A fraction [m / 2^k] with [|m| <= 128] that lies close to 1 is 1. *)
Lemma dyadic_near_one (m : Z) (k : nat) :
  (Z.abs m <= 128)%Z ->
  0.998 < IZR m / 2 ^ k < 1.002 -> IZR m / 2 ^ k = 1.
Proof.
  intros Hm [Hlo Hhi].
  assert (Hm' : IZR m <= 128) by (apply IZR_le; lia).
  assert (Hcase : (k < 8)%nat \/ exists j, k = (8 + j)%nat).
  { destruct (Nat.lt_ge_cases k 8) as [H|H]; [left; exact H|].
    right. exists (k - 8)%nat. lia. }
  destruct Hcase as [Hk|(j & ->)].
  - assert (Hint : forall p : Z,
              2 ^ k = IZR p -> (1 <= p <= 128)%Z -> IZR m / 2 ^ k = 1).
    { intros p Hp Hp'. rewrite Hp in *.
      assert (0 < IZR p) by (apply IZR_lt; lia).
      assert (H1 : IZR (998 * p) < IZR (1000 * m)).
      { rewrite !mult_IZR.
        apply (Rmult_lt_compat_r (IZR p)) in Hlo; [|assumption].
        replace (IZR m / IZR p * IZR p) with (IZR m) in Hlo by (field; lra).
        lra. }
      assert (H2 : IZR (1000 * m) < IZR (1002 * p)).
      { rewrite !mult_IZR.
        apply (Rmult_lt_compat_r (IZR p)) in Hhi; [|assumption].
        replace (IZR m / IZR p * IZR p) with (IZR m) in Hhi by (field; lra).
        lra. }
      apply lt_IZR in H1. apply lt_IZR in H2.
      assert (m = p) by lia. subst m. field. lra. }
    destruct k as [|[|[|[|[|[|[|[|k]]]]]]]]; try lia.
    + apply (Hint 1%Z); [cbn; lra | lia].
    + apply (Hint 2%Z); [cbn; lra | lia].
    + apply (Hint 4%Z); [cbn; lra | lia].
    + apply (Hint 8%Z); [cbn; lra | lia].
    + apply (Hint 16%Z); [cbn; lra | lia].
    + apply (Hint 32%Z); [cbn; lra | lia].
    + apply (Hint 64%Z); [cbn; lra | lia].
    + apply (Hint 128%Z); [cbn; lra | lia].
  - exfalso. pose proof (pow2_ge_256 j) as Hp.
    set (D := 2 ^ (8 + j)) in *.
    apply (Rmult_lt_compat_r D) in Hlo; [|lra].
    replace (IZR m / D * D) with (IZR m) in Hlo by (field; lra).
    nra.
Qed.

Lemma rounding_coarse : rounding coarse_rounding.
Proof.
  unfold rounding. split; [|split].
  - intros x y Hxy. unfold coarse_rounding.
    repeat match goal with
           | |- context [Rltb ?a ?b] =>
               let E := fresh "E" in
               destruct (Rltb a b) eqn:E;
               [apply Rltb_true in E | apply Rltb_false in E]
           end; cbn [andb]; lra.
  - intros x. unfold coarse_rounding.
    repeat match goal with
           | |- context [Rltb ?a ?b] =>
               let E := fresh "E" in
               destruct (Rltb a b) eqn:E;
               [apply Rltb_true in E | apply Rltb_false in E]
           end; cbn [andb]; lra.
  - intros m k Hm Hk. unfold coarse_rounding.
    destruct (Rltb 0.998 (IZR m / 2 ^ k)) eqn:E1;
      [apply Rltb_true in E1 | apply Rltb_false in E1];
    destruct (Rltb (IZR m / 2 ^ k) 1.002) eqn:E2;
      [apply Rltb_true in E2 | apply Rltb_false in E2 | |];
    cbn [andb];
    try (symmetry; apply dyadic_near_one; [exact Hm | lra]).
    all: destruct (Rltb (-1.002) (IZR m / 2 ^ k)) eqn:E3;
      [apply Rltb_true in E3 | apply Rltb_false in E3];
    destruct (Rltb (IZR m / 2 ^ k) (-0.998)) eqn:E4;
      [apply Rltb_true in E4 | apply Rltb_false in E4 | |];
    cbn [andb]; try reflexivity; try lra.
    all: assert (Hn : IZR (- m) / 2 ^ k = 1)
      by (apply dyadic_near_one;
          [lia | rewrite opp_IZR; unfold Rdiv in *;
                 rewrite <- Ropp_mult_distr_l; lra]);
      rewrite opp_IZR in Hn; unfold Rdiv in *;
      rewrite <- Ropp_mult_distr_l in Hn; lra.
Qed.

(** ** The accumulation loop *)

Section AccumulateLoop.

Variables ene f : list R.
Hypothesis Hlen : length ene = length f.

Lemma accumulate_step_ok (k : nat) (nacc eacc : list R) :
  (1 <= k < length f)%nat ->
  accumulated_upto ene f k nacc eacc ->
  exists nacc' eacc',
    accumulate_step ene f (nacc, eacc) k = Ok (nacc', eacc') /\
    accumulated_upto ene f (S k) nacc' eacc'.
Proof.
  intros Hk (Hn & He & Hn0 & He0 & Hrec).
  unfold accumulate_step.
  rewrite (get_nth f _ 0) by lia.
  rewrite (get_nth ene _ 0) by lia.
  rewrite (get_nth ene _ 0) by lia.
  rewrite (get_nth nacc _ 0) by lia.
  cbn [bind].
  rewrite (get_nth _ _ 0) by (rewrite set_item_length; lia).
  rewrite (get_nth _ _ 0) by (rewrite set_item_length; lia).
  cbn [bind].
  do 2 eexists. split; [reflexivity|].
  unfold accumulated_upto.
  rewrite !set_item_length.
  repeat split; auto.
  - rewrite nth_set_item_neq by lia. exact Hn0.
  - rewrite !nth_set_item_neq by lia. exact He0.
  - destruct (Nat.eq_dec i k) as [->|Hne].
    + rewrite nth_set_item_eq by lia.
      rewrite nth_set_item_neq by lia. reflexivity.
    + rewrite !nth_set_item_neq by lia. apply Hrec. lia.
  - destruct (Nat.eq_dec i k) as [->|Hne].
    + rewrite nth_set_item_eq by (rewrite set_item_length; lia).
      rewrite nth_set_item_eq by lia.
      rewrite !nth_set_item_neq by lia. reflexivity.
    + rewrite !nth_set_item_neq by lia. apply Hrec. lia.
Qed.

Lemma accumulate_loop_ok (cnt : nat) :
  forall (start : nat) (nacc eacc : list R),
    (1 <= start)%nat -> (start + cnt <= length f)%nat ->
    accumulated_upto ene f start nacc eacc ->
    exists nacc' eacc',
      foldM (accumulate_step ene f) (seq start cnt) (nacc, eacc)
        = Ok (nacc', eacc') /\
      accumulated_upto ene f (start + cnt) nacc' eacc'.
Proof.
  induction cnt as [|cnt IH]; intros start nacc eacc Hs Hb Hinv.
  - exists nacc, eacc. rewrite Nat.add_0_r. split; [reflexivity | exact Hinv].
  - destruct (accumulate_step_ok start nacc eacc)
      as (n1 & e1 & Hstep & Hinv1); [lia | exact Hinv |].
    destruct (IH (S start) n1 e1) as (n2 & e2 & Hloop & Hinv2);
      [lia | lia | exact Hinv1 |].
    exists n2, e2. split.
    + cbn [seq foldM]. rewrite Hstep. cbn [bind]. exact Hloop.
    + replace (start + S cnt)%nat with (S start + cnt)%nat by lia.
      exact Hinv2.
Qed.

End AccumulateLoop.

Lemma log10_le (x y : R) : 0 < x -> x <= y -> log10 x <= log10 y.
Proof.
  intros Hx Hxy. unfold log10.
  assert (H10 : 0 < ln 10) by (rewrite <- ln_1; apply ln_increasing; lra).
  apply Rmult_le_compat_r; [left; apply Rinv_0_lt_compat; exact H10|].
  destruct Hxy as [Hlt| ->]; [left; apply ln_increasing; assumption | lra].
Qed.

(** On arrays of one positive length with positive energies the routine
    returns: the two arrays built by the loop, each scaled by [dlogE]. *)
Lemma accumulated_particle_info_ok (ene f : list R) :
  length ene = length f -> (0 < length f)%nat ->
  Forall (fun e => 0 < e) ene ->
  exists emax emin nacc eacc,
    (In emax ene /\ forall y, In y ene -> y <= emax) /\
    (In emin ene /\ forall y, In y ene -> emin <= y) /\
    accumulated_upto ene f (length f) nacc eacc /\
    accumulated_particle_info ene f =
      Ok (map (fun x => x * ((log10 emax - log10 emin) / INR (length f))) nacc,
          map (fun x => x * ((log10 emax - log10 emin) / INR (length f))) eacc).
Proof.
  intros Hlen Hpos Hene.
  assert (Hne : ene <> []) by (destruct ene; simpl in *; [lia | congruence]).
  destruct (py_max_spec ene Hne) as (emax & Hmax & Hmaxin & Hmaxub).
  destruct (py_min_spec ene Hne) as (emin & Hmin & Hminin & Hminlb).
  assert (Hemax : 0 < emax) by (rewrite Forall_forall in Hene; auto).
  assert (Hemin : 0 < emin) by (rewrite Forall_forall in Hene; auto).
  destruct (accumulate_loop_ok ene f Hlen (length f - 1) 1
              (set_item (repeat 0 (length f)) 0 (nth 0 f 0 * nth 0 ene 0))
              (set_item (repeat 0 (length f)) 0
                 (0.5 * nth 0 f 0 * nth 0 ene 0 ^ 2)))
    as (nacc & eacc & Hloop & Hinv); [lia | lia | |].
  { unfold accumulated_upto. rewrite !set_item_length, !repeat_length.
    repeat split; try (rewrite nth_set_item_eq; [reflexivity|rewrite repeat_length; lia]);
      lia. }
  exists emax, emin, nacc, eacc.
  split; [split; assumption|]. split; [split; assumption|]. split.
  - replace (1 + (length f - 1))%nat with (length f) in Hinv by lia. exact Hinv.
  - unfold accumulated_particle_info.
    rewrite Hmax, Hmin. cbn [bind]. unfold math_log10.
    rewrite (proj2 (Rltb_true 0 emax) Hemax), (proj2 (Rltb_true 0 emin) Hemin).
    cbn [bind].
    destruct (Nat.eqb_spec (length f) 0) as [E|_]; [lia|]. cbn [bind].
    rewrite (get_nth f _ 0) by lia. rewrite (get_nth ene _ 0) by lia. cbn [bind].
    rewrite Hloop. reflexivity.
Qed.

Lemma nth_map_scale (c : R) (l : list R) (i : nat) :
  nth i (map (fun x => x * c) l) 0 = nth i l 0 * c.
Proof.
  revert i. induction l as [|x t IH]; intros [|i]; simpl; auto; lra.
Qed.

Lemma Forall_pos_nth (l : list R) (i : nat) :
  Forall (fun x => 0 < x) l -> (i < length l)%nat -> 0 < nth i l 0.
Proof.
  intros H Hi. rewrite Forall_forall in H. apply H. apply nth_In. exact Hi.
Qed.

(** C2: for positive energies [ene] and a flux array [f] of the same length
    [n >= 1], the first array returned by [accumulated_particle_info]
    starts with [f[0]*ene[0]*dlogE] and grows, for every [i >= 1], by
    [f[i]*(ene[i]+ene[i-1])/2] scaled by [dlogE], where
    [dlogE = (log10(max(ene)) - log10(min(ene))) / n]. *)
Theorem accumulated_count_recurrence (ene f : list R) :
  length ene = length f -> (0 < length f)%nat ->
  Forall (fun e => 0 < e) ene ->
  exists emax emin nacc eacc,
    accumulated_particle_info ene f = Ok (nacc, eacc) /\
    (In emax ene /\ forall y, In y ene -> y <= emax) /\
    (In emin ene /\ forall y, In y ene -> emin <= y) /\
    length nacc = length f /\
    let dlogE := (log10 emax - log10 emin) / INR (length f) in
    nth 0 nacc 0 = nth 0 f 0 * nth 0 ene 0 * dlogE /\
    forall i, (1 <= i < length f)%nat ->
      nth i nacc 0 =
        nth (i - 1) nacc 0
        + nth i f 0 * (nth i ene 0 + nth (i - 1) ene 0) / 2 * dlogE.
Proof.
  intros Hlen Hpos Hene.
  destruct (accumulated_particle_info_ok ene f Hlen Hpos Hene)
    as (emax & emin & nacc & eacc & Hmax & Hmin & Hinv & Hrun).
  destruct Hinv as (Hn & _ & Hn0 & _ & Hrec).
  exists emax, emin. do 2 eexists.
  split; [exact Hrun|]. split; [exact Hmax|]. split; [exact Hmin|].
  split; [rewrite length_map; exact Hn|].
  cbv zeta. split.
  - rewrite nth_map_scale, Hn0. reflexivity.
  - intros i Hi. rewrite !nth_map_scale.
    destruct (Hrec i Hi) as [-> _].
    generalize ((log10 emax - log10 emin) / INR (length f)).
    intros d. replace 0.5 with (/ 2) by lra. field.
Qed.

Lemma accumulated_count_recurrence_witness :
  exists emax emin nacc eacc,
    accumulated_particle_info [1; 10] [2; 3] = Ok (nacc, eacc) /\
    (In emax [1; 10] /\ forall y, In y [1; 10] -> y <= emax) /\
    (In emin [1; 10] /\ forall y, In y [1; 10] -> emin <= y) /\
    length nacc = 2%nat /\
    let dlogE := (log10 emax - log10 emin) / INR 2 in
    nth 0 nacc 0 = nth 0 [2; 3] 0 * nth 0 [1; 10] 0 * dlogE /\
    forall i, (1 <= i < 2)%nat ->
      nth i nacc 0 =
        nth (i - 1) nacc 0
        + nth i [2; 3] 0 * (nth i [1; 10] 0 + nth (i - 1) [1; 10] 0) / 2
          * dlogE.
Proof.
  apply (accumulated_count_recurrence [1; 10] [2; 3]).
  - reflexivity.
  - simpl; lia.
  - repeat constructor; lra.
Defined.

(** The arrays before scaling do not decrease from one bin to the next. *)
Lemma accumulated_upto_step_le (ene f nacc eacc : list R) :
  length ene = length f ->
  Forall (fun e => 0 < e) ene ->
  (forall i, (S i < length ene)%nat -> nth i ene 0 <= nth (S i) ene 0) ->
  Forall (fun x => 0 < x) f ->
  accumulated_upto ene f (length f) nacc eacc ->
  forall i, (S i < length f)%nat ->
    nth i nacc 0 <= nth (S i) nacc 0 /\ nth i eacc 0 <= nth (S i) eacc 0.
Proof.
  intros Hlen Hene Hinc Hf (_ & _ & _ & _ & Hrec) i Hi.
  destruct (Hrec (S i)) as [Hn He]; [lia|].
  replace (S i - 1)%nat with i in * by lia.
  assert (Hfi : 0 < nth (S i) f 0) by (apply Forall_pos_nth; auto).
  assert (He1 : 0 < nth (S i) ene 0) by (apply Forall_pos_nth; auto; lia).
  assert (He0 : 0 < nth i ene 0) by (apply Forall_pos_nth; auto; lia).
  assert (Hd : nth i ene 0 <= nth (S i) ene 0) by (apply Hinc; lia).
  rewrite Hn, He. split.
  - assert (0 <= nth (S i) f 0 * (nth (S i) ene 0 + nth i ene 0)) by nra. lra.
  - assert (0 <= nth (S i) f 0 * (nth (S i) ene 0 - nth i ene 0)) by nra.
    assert (0 <= nth (S i) f 0 * (nth (S i) ene 0 - nth i ene 0)
                 * (nth (S i) ene 0 + nth i ene 0)) by nra.
    lra.
Qed.

Lemma adjacent_le_monotone (l : list R) (n : nat) :
  (forall i, (S i < n)%nat -> nth i l 0 <= nth (S i) l 0) ->
  forall i j, (i <= j < n)%nat -> nth i l 0 <= nth j l 0.
Proof.
  intros Hadj i j [Hij Hj]. induction Hij as [|j Hij IH]; [lra|].
  apply Rle_trans with (nth j l 0); [apply IH; lia | apply Hadj; lia].
Qed.

(** C5: for a monotonically increasing, strictly positive energy array and a
    strictly positive flux array of the same length, both arrays returned by
    [accumulated_particle_info] (accumulated particle count and accumulated
    particle energy) are monotonically non-decreasing. *)
Theorem accumulated_particle_info_monotone (ene f : list R) :
  length ene = length f -> (0 < length f)%nat ->
  Forall (fun e => 0 < e) ene ->
  (forall i, (S i < length ene)%nat -> nth i ene 0 <= nth (S i) ene 0) ->
  Forall (fun x => 0 < x) f ->
  exists nacc eacc,
    accumulated_particle_info ene f = Ok (nacc, eacc) /\
    length nacc = length f /\ length eacc = length f /\
    forall i j, (i <= j < length f)%nat ->
      nth i nacc 0 <= nth j nacc 0 /\ nth i eacc 0 <= nth j eacc 0.
Proof.
  intros Hlen Hpos Hene Hinc Hf.
  destruct (accumulated_particle_info_ok ene f Hlen Hpos Hene)
    as (emax & emin & nacc & eacc & [Hmaxin Hmax] & [Hminin Hmin] & Hinv & Hrun).
  do 2 eexists. split; [exact Hrun|].
  rewrite !length_map.
  pose proof Hinv as (Hn & He & _).
  split; [exact Hn|]. split; [exact He|].
  assert (Hd : 0 <= (log10 emax - log10 emin) / INR (length f)).
  { assert (0 < INR (length f)) by (apply lt_0_INR; exact Hpos).
    assert (log10 emin <= log10 emax).
    { apply log10_le; [|apply Hmax; exact Hminin].
      rewrite Forall_forall in Hene. apply Hene. exact Hminin. }
    apply Rmult_le_pos; [lra | left; apply Rinv_0_lt_compat; assumption]. }
  pose proof (accumulated_upto_step_le ene f nacc eacc Hlen Hene Hinc Hf Hinv)
    as Hadj.
  intros i j Hij. rewrite !nth_map_scale. split.
  - apply Rmult_le_compat_r; [exact Hd|].
    apply (adjacent_le_monotone nacc (length f)); [|exact Hij].
    intros k Hk. apply Hadj. exact Hk.
  - apply Rmult_le_compat_r; [exact Hd|].
    apply (adjacent_le_monotone eacc (length f)); [|exact Hij].
    intros k Hk. apply Hadj. exact Hk.
Qed.

Lemma accumulated_particle_info_monotone_witness :
  exists nacc eacc,
    accumulated_particle_info [1; 10; 100] [3; 2; 1] = Ok (nacc, eacc) /\
    length nacc = 3%nat /\ length eacc = 3%nat /\
    forall i j, (i <= j < 3)%nat ->
      nth i nacc 0 <= nth j nacc 0 /\ nth i eacc 0 <= nth j eacc 0.
Proof.
  apply (accumulated_particle_info_monotone [1; 10; 100] [3; 2; 1]).
  - reflexivity.
  - simpl; lia.
  - repeat constructor; lra.
  - intros [|[|i]] Hi; simpl in *; try lra; lia.
  - repeat constructor; lra.
Defined.

(** ** Particle files *)

Lemma np_memmap_ok {A : Type} (decode : list byte -> A) (itemsize : nat)
    (fh : file) (offset shape : nat) :
  (0 < length (content fh))%nat ->
  (offset + shape * itemsize <= length (content fh))%nat ->
  np_memmap decode itemsize fh offset shape =
    Ok (map decode (chunks itemsize shape (skipn offset (content fh))),
        {| content := content fh; pos := length (content fh) |}).
Proof.
  intros H0 Hb. unfold np_memmap.
  destruct (Nat.eqb_spec (length (content fh)) 0) as [E|_]; [lia|].
  destruct (Nat.ltb_spec (length (content fh)) (offset + shape * itemsize))
    as [E|_]; [lia|].
  reflexivity.
Qed.

Lemma chunks_app (size count : nat) (recs extra : list byte) :
  length recs = (size * count)%nat ->
  chunks size count (recs ++ extra) = chunks size count recs.
Proof.
  revert recs. induction count as [|c IH]; intros recs Hlen; [reflexivity|].
  cbn [chunks].
  rewrite firstn_app, skipn_app.
  replace (size - length recs)%nat with 0%nat by lia.
  cbn [firstn skipn]. rewrite app_nil_r. f_equal.
  apply IH. rewrite length_skipn. lia.
Qed.

(** The offset returned with the header does not depend on the file. *)
Lemma read_particle_header_offset (fh fh' : file) (v0 : v0header.t)
    (ph : header_particle.t) (offset : nat) :
  read_particle_header fh = Ok (v0, ph, offset, fh') -> offset = 115%nat.
Proof.
  unfold read_particle_header. intros H.
  repeat match type of H with
         | bind ?m _ = _ =>
             destruct m as [[? ?]|?]; cbn [bind] in H; [|discriminate]
         end.
  injection H as _ _ <- _. reflexivity.
Qed.

Ltac memmap_step :=
  rewrite np_memmap_ok by (cbn [content]; rewrite ?length_app; lia);
  cbn [bind content pos].

(** C1 (amended): the particle records start at byte 115, after the 23
    bytes of boilerplate, the 80 bytes of the grid header and the 12 bytes
    of the particle sub-header.  On a file made of these 115 bytes, of the
    [dim] records of 32 bytes that the sub-header announces and of any
    further bytes, [read_particle_data] returns exactly these [dim] records,
    whatever the further bytes are. *)
Theorem read_particle_data_records (fs : filesystem) (fname : string)
    (head recs extra : list byte) (n : nat) :
  fs fname = Some (head ++ recs ++ extra) ->
  length head = 115%nat ->
  length recs = (particle.itemsize * n)%nat ->
  le_signed (firstn 4 (skipn 111 head)) = Z.of_nat n ->
  (forall fh fh' v0 ph offset,
      read_particle_header fh = Ok (v0, ph, offset, fh') ->
      offset = (23 + 80 + 12)%nat) /\
  exists v0 ph,
    read_particle_data fs fname =
      Ok (v0, ph, map decode_particle (chunks particle.itemsize n recs)) /\
    header_particle.dim ph = Z.of_nat n.
Proof.
  intros Hfs Hhead Hrecs Hdim. split.
  { intros fh fh' v0 ph offset H.
    apply (read_particle_header_offset fh fh' v0 ph offset H). }
  unfold read_particle_data, py_open. rewrite Hfs. cbn [bind].
  unfold read_boilerplate. repeat memmap_step.
  unfold read_particle_header. repeat memmap_step.
  assert (Hd : nth 2 (map le_signed
                 (chunks 4 3 (skipn (23 + 6 * 4 + 10 * 4 + 4 * 4)
                                (head ++ recs ++ extra)))) 0%Z = Z.of_nat n).
  { cbn [chunks map nth]. rewrite !skipn_skipn.
    rewrite skipn_app, firstn_app, length_skipn, Hhead.
    replace (4 + (4 + (23 + 6 * 4 + 10 * 4 + 4 * 4)))%nat with 111%nat
      by reflexivity.
    replace (4 - (115 - 111))%nat with 0%nat by reflexivity.
    cbn [firstn]. rewrite app_nil_r. exact Hdim. }
  do 2 eexists. split.
  - unfold np_fromfile, seek_set. cbn [content pos header_particle.dim].
    rewrite Hd.
    destruct (Z.ltb_spec (Z.of_nat n) 0) as [E|_]; [lia|].
    rewrite Nat2Z.id.
    replace (23 + 6 * 4 + 10 * 4 + 4 * 4 + 3 * 4)%nat with 115%nat
      by reflexivity.
    assert (Havail : (n <= (length (head ++ recs ++ extra) - 115)
                            / particle.itemsize)%nat).
    { rewrite !length_app, Hhead, Hrecs.
      apply Nat.div_le_lower_bound; [unfold particle.itemsize; lia | lia]. }
    rewrite (Nat.min_l _ _ Havail).
    assert (Hdata : skipn 115 (head ++ recs ++ extra) = recs ++ extra).
    { rewrite skipn_app, Hhead, Nat.sub_diag, skipn_O.
      rewrite skipn_all2 by lia. reflexivity. }
    rewrite Hdata, (chunks_app _ _ _ _ Hrecs). reflexivity.
  - reflexivity.
Qed.

Lemma read_particle_data_records_witness :
  (forall fh fh' v0 ph offset,
      read_particle_header fh = Ok (v0, ph, offset, fh') ->
      offset = (23 + 80 + 12)%nat) /\
  exists v0 ph,
    read_particle_data sample_fs "eparticle.0.0" =
      Ok (v0, ph,
          map decode_particle (chunks particle.itemsize 1 sample_record)) /\
    header_particle.dim ph = Z.of_nat 1.
Proof.
  apply (read_particle_data_records sample_fs "eparticle.0.0"
           sample_header sample_record (bytes_of [255; 255; 255]%N) 1);
    reflexivity.
Defined.

(** C1, as stated, fails: on the sample file the offset computed with the
    header is 115, not 103, and the record returned is the one stored at
    byte 115, which differs from the 32 bytes found at byte 103. *)
Lemma read_particle_data_not_at_103 :
  (exists v0 ph fh',
      read_particle_header {| content := sample_particle_file; pos := 0 |}
        = Ok (v0, ph, 115%nat, fh')) /\
  115%nat <> 103%nat /\
  exists v0 ph data,
    read_particle_data sample_fs "eparticle.0.0" = Ok (v0, ph, data) /\
    data = map decode_particle
             (chunks particle.itemsize 1 (skipn 115 sample_particle_file)) /\
    data <> map decode_particle
              (chunks particle.itemsize 1 (skipn 103 sample_particle_file)).
Proof.
  split; [|split].
  - do 3 eexists. vm_compute. reflexivity.
  - discriminate.
  - do 3 eexists. split; [vm_compute; reflexivity|]. split.
    + vm_compute. reflexivity.
    + vm_compute. discriminate.
Qed.

(** ** Spectrum files *)

Lemma np_div_nonzero (x y : R) : y <> 0 -> np_div x y = Fin (x / y).
Proof.
  intros Hy. unfold np_div. destruct (Req_EM_T y 0); [contradiction|reflexivity].
Qed.

(** C9 (amended): when the file cannot be opened, [read_spectrum_data]
    catches the error of [open], prints a line "cannot open" with the file
    name and returns normally with no data ([None]); no exception reaches
    the caller. *)
Theorem read_spectrum_data_missing
    (genfromtxt : list byte -> res ndarray) (fs : filesystem)
    (fname : string) :
  fs fname = None ->
  read_spectrum_data genfromtxt fs fname =
    (["cannot open  " ++ fname]%string, Ok None).
Proof.
  intros Hfs. unfold read_spectrum_data, py_open. rewrite Hfs. reflexivity.
Qed.

Lemma read_spectrum_data_missing_witness :
  read_spectrum_data sample_genfromtxt empty_fs "spectrum-e.10" =
    (["cannot open  " ++ "spectrum-e.10"]%string, Ok None).
Proof.
  apply (read_spectrum_data_missing sample_genfromtxt empty_fs "spectrum-e.10").
  reflexivity.
Defined.

(** C9, as stated, fails: for a missing file the call returns [None]
    instead of raising [FileNotFoundError] (or any other exception). *)
Lemma read_spectrum_data_missing_returns :
  snd (read_spectrum_data sample_genfromtxt empty_fs "spectrum-e.10")
    = Ok None /\
  snd (read_spectrum_data sample_genfromtxt empty_fs "spectrum-e.10")
    <> Raise FileNotFoundError /\
  forall e,
    snd (read_spectrum_data sample_genfromtxt empty_fs "spectrum-e.10")
      <> Raise e.
Proof.
  split; [reflexivity|]. split; [discriminate|]. intros e. discriminate.
Qed.

(** C8 (amended): for a spectrum table of at least four columns and a
    nonzero [fnorm], [get_energy_distribution] returns the log-bin flux
    (fourth column) divided by [fnorm]; the two energy columns and the
    linear-bin flux (second column) are returned as stored. *)
Theorem get_energy_distribution_normalization
    (genfromtxt : list byte -> res ndarray) (fs : filesystem)
    (fname : string) (bytes : list byte) (ncols : nat)
    (rows : list (list R)) (fnorm : R) :
  fs fname = Some bytes ->
  genfromtxt bytes = Ok (Array2 ncols rows) ->
  (4 <= ncols)%nat ->
  fnorm <> 0 ->
  get_energy_distribution genfromtxt fs fname fnorm =
    Ok (map (fun r => nth 0 r 0) rows,
        map (fun r => nth 1 r 0) rows,
        map (fun r => nth 2 r 0) rows,
        map (fun x => Fin (x / fnorm)) (map (fun r => nth 3 r 0) rows)).
Proof.
  intros Hfs Hgen Hcols Hnorm.
  unfold get_energy_distribution, read_spectrum_data, py_open.
  rewrite Hfs, Hgen. cbn [snd bind column].
  destruct (Nat.ltb_spec 0 ncols); [|lia].
  destruct (Nat.ltb_spec 1 ncols); [|lia].
  destruct (Nat.ltb_spec 2 ncols); [|lia].
  destruct (Nat.ltb_spec 3 ncols); [|lia].
  cbn [bind]. do 2 f_equal.
  apply map_ext. intros x. apply np_div_nonzero. exact Hnorm.
Qed.

Lemma get_energy_distribution_normalization_witness :
  get_energy_distribution sample_genfromtxt sample_spectrum_fs
      "spectrum-e.10" 2 =
    Ok (map (fun r => nth 0 r 0) [[1; 2; 3; 4]; [5; 6; 7; 8]],
        map (fun r => nth 1 r 0) [[1; 2; 3; 4]; [5; 6; 7; 8]],
        map (fun r => nth 2 r 0) [[1; 2; 3; 4]; [5; 6; 7; 8]],
        map (fun x => Fin (x / 2))
          (map (fun r => nth 3 r 0) [[1; 2; 3; 4]; [5; 6; 7; 8]])).
Proof.
  apply (get_energy_distribution_normalization sample_genfromtxt
           sample_spectrum_fs "spectrum-e.10" [] 4
           [[1; 2; 3; 4]; [5; 6; 7; 8]] 2).
  - reflexivity.
  - reflexivity.
  - lia.
  - lra.
Defined.

(** C8, as stated, fails: with the stored linear flux [2; 6] and
    [fnorm = 2] the linear flux returned is [2; 6], not [1; 3]. *)
Lemma get_energy_distribution_flin_not_normalized :
  exists ene_lin flin ene_log flog,
    get_energy_distribution sample_genfromtxt sample_spectrum_fs
        "spectrum-e.10" 2 = Ok (ene_lin, flin, ene_log, flog) /\
    flin = [2; 6] /\
    flin <> map (fun x => x / 2) [2; 6].
Proof.
  do 4 eexists. split; [|split].
  - reflexivity.
  - reflexivity.
  - cbn [map]. intros H. injection H as H _. lra.
Qed.

(** C10: [read_energy_distribution] calls [get_energy_distribution] on the
    spectrum file of the species with the normalization factor
    [nx*ny + nz*nppc], the product of [nx] and [ny] plus the product of
    [nz] and [nppc]: on a file holding a table of at least four columns, the
    log-bin flux it returns is the stored fourth column divided by this
    number. *)
Theorem read_energy_distribution_ntot
    (genfromtxt : list byte -> res ndarray) (fs : filesystem)
    (species : string) (tframe : Z) (pic : pic_info.t) (fpath : string)
    (bytes : list byte) (ncols : nat) (rows : list (list R)) :
  let fname :=
    (if String.eqb species "e"
     then fpath ++ "spectrum-" ++ species ++ "." ++ py_str tframe
     else fpath ++ "spectrum-h." ++ py_str tframe)%string in
  let ntot :=
    pic_info.nx pic * pic_info.ny pic + pic_info.nz pic * pic_info.nppc pic in
  fs fname = Some bytes ->
  genfromtxt bytes = Ok (Array2 ncols rows) ->
  (4 <= ncols)%nat ->
  read_energy_distribution genfromtxt fs species tframe pic fpath =
    bind (get_energy_distribution genfromtxt fs fname ntot)
      (fun r =>
         Ok {| fenergy.species := species;
               fenergy.elin := fst (fst (fst r));
               fenergy.flin := snd (fst (fst r));
               fenergy.elog := snd (fst r);
               fenergy.flog := snd r |}) /\
  exists fene,
    read_energy_distribution genfromtxt fs species tframe pic fpath = Ok fene /\
    fenergy.flog fene =
      map (fun x => np_div x ntot) (map (fun r => nth 3 r 0) rows).
Proof.
  intros fname ntot Hfs Hgen Hcols. split.
  - unfold read_energy_distribution. fold fname ntot.
    destruct (get_energy_distribution genfromtxt fs fname ntot)
      as [[[[elin flin] elog] flog]|e]; reflexivity.
  - unfold read_energy_distribution. fold fname ntot.
    unfold get_energy_distribution, read_spectrum_data, py_open.
    rewrite Hfs, Hgen. cbn [snd bind column].
    destruct (Nat.ltb_spec 0 ncols); [|lia].
    destruct (Nat.ltb_spec 1 ncols); [|lia].
    destruct (Nat.ltb_spec 2 ncols); [|lia].
    destruct (Nat.ltb_spec 3 ncols); [|lia].
    cbn [bind]. eexists. split; reflexivity.
Qed.

Lemma read_energy_distribution_ntot_witness :
  exists fene,
    read_energy_distribution sample_genfromtxt sample_spectrum_fs "e" 10
      sample_pic "" = Ok fene /\
    fenergy.flog fene =
      map (fun x => np_div x (1 * 1 + 1 * 1))
          (map (fun r => nth 3 r 0) [[1; 2; 3; 4]; [5; 6; 7; 8]]).
Proof.
  apply (read_energy_distribution_ntot sample_genfromtxt sample_spectrum_fs
           "e" 10 sample_pic "" [] 4 [[1; 2; 3; 4]; [5; 6; 7; 8]]).
  - reflexivity.
  - reflexivity.
  - lia.
Defined.

(** ** Power-law fit *)

Lemma get_raise {A : Type} (a : list A) (i : nat) (e : exn) :
  get a i = Raise e -> e = IndexError.
Proof.
  unfold get. destruct (nth_error a i); intros H; [discriminate|].
  injection H as <-. reflexivity.
Qed.

Lemma py_index_raise {A : Type} (a : list A) (i : Z) (e : exn) :
  py_index a i = Raise e -> e = IndexError.
Proof.
  unfold py_index.
  destruct (0 <=? i)%Z; [apply get_raise|].
  destruct (0 <=? i + Z.of_nat (length a))%Z; [apply get_raise|].
  intros H. injection H as <-. reflexivity.
Qed.

Lemma py_index_past_end {A : Type} (a : list A) (i : Z) :
  (Z.of_nat (length a) <= i)%Z -> py_index a i = Raise IndexError.
Proof.
  intros Hi. unfold py_index.
  destruct (Z.leb_spec 0 i) as [_|E]; [|lia].
  apply get_out. lia.
Qed.

Lemma np_log10_nonpositive (x : R) :
  x <= 0 -> np_log10 x = NInf \/ np_log10 x = NaN.
Proof.
  intros Hx. unfold np_log10.
  rewrite (proj2 (Rltb_false 0 x) Hx).
  destruct (Req_EM_T x 0); auto.
Qed.

Ltac bind_inv H :=
  repeat match type of H with
         | bind ?m _ = Ok _ =>
             let E := fresh "E" in
             destruct m eqn:E; cbn [bind] in H; [|discriminate H]
         | (let '(_, _) := ?p in _) = Ok _ => destruct p
         end.

(** C3 (amended): [power_law_fit] has no check of the window and no
    [InvalidFitWindowError].  With [estart = argmax(f) + offset] and
    [eend = estart + extend], it hands [np.log10] of the clamped slices
    [ene[estart:eend]] and [f[estart:eend]] to the library fit, so that a
    flux [<= 0] of the window reaches the fit as [-inf] or NaN, and an error
    of the fit is the error of the call.  When [eend] reaches or exceeds the
    length of [ene] and the fit returns, the call fails with the
    [IndexError] of reading [ene[estart]] or [ene[eend]].  The window is not
    adjusted: a call that returns reports [es = estart] and [ee = eend]. *)
Theorem power_law_fit_window
    (curve_fit : forall X : Type,
        (X -> R -> R -> X) -> list X -> list X -> res (R * R))
    (ene f : list R) (offset extend : Z) (imax : nat) :
  np_argmax f = Ok imax ->
  let estart := (Z.of_nat imax + offset)%Z in
  let eend := (estart + extend)%Z in
  let xdata := map np_log10 (py_slice ene estart eend) in
  let ydata := map np_log10 (py_slice f estart eend) in
  (forall e, curve_fit xfloat func_line xdata ydata = Raise e ->
             power_law_fit curve_fit ene f offset extend = Raise e) /\
  (forall popt, (Z.of_nat (length ene) <= eend)%Z ->
                curve_fit xfloat func_line xdata ydata = Ok popt ->
                power_law_fit curve_fit ene f offset extend
                  = Raise IndexError) /\
  (forall x, In x (py_slice f estart eend) -> x <= 0 ->
             In (np_log10 x) ydata /\
             (np_log10 x = NInf \/ np_log10 x = NaN)) /\
  (forall r, power_law_fit curve_fit ene f offset extend = Ok r ->
             es r = estart /\ ee r = eend).
Proof.
  intros Hmax estart eend xdata ydata.
  split; [|split; [|split]].
  - intros e Hfit. unfold power_law_fit. rewrite Hmax. cbn [bind].
    fold estart eend xdata ydata. rewrite Hfit. reflexivity.
  - intros popt Hend Hfit. unfold power_law_fit. rewrite Hmax. cbn [bind].
    fold estart eend xdata ydata. rewrite Hfit. cbn [bind].
    destruct (py_index ene estart) as [x|e] eqn:E; cbn [bind].
    + rewrite (py_index_past_end ene eend Hend). reflexivity.
    + apply py_index_raise in E. subst e. reflexivity.
  - intros x Hin Hx. split.
    + unfold ydata. apply in_map. exact Hin.
    + apply np_log10_nonpositive. exact Hx.
  - intros r H. unfold power_law_fit in H. rewrite Hmax in H.
    cbn [bind] in H. fold estart eend in H.
    bind_inv H. injection H as <-. split; reflexivity.
Qed.

Ltac Rltb_eval :=
  repeat match goal with
         | |- context [Rltb ?x ?y] =>
             first [ rewrite (proj2 (Rltb_true x y)) by lra
                   | rewrite (proj2 (Rltb_false x y)) by lra ]
         end.

Lemma np_argmax_decreasing_sample : np_argmax [1000; 100; 10; 1] = Ok 0%nat.
Proof. unfold np_argmax, argmax_from. Rltb_eval. reflexivity. Qed.

Lemma power_law_fit_window_witness :
  np_argmax [1000; 100; 10; 1] = Ok 0%nat /\
  (Z.of_nat (length [1; 10; 100; 1000]) <= Z.of_nat 0 + 1 + 4)%Z /\
  power_law_fit sample_curve_fit [1; 10; 100; 1000] [1000; 100; 10; 1] 1 4
    = Raise IndexError.
Proof.
  split; [apply np_argmax_decreasing_sample|].
  split; [cbn; lia|].
  apply (proj1 (proj2 (power_law_fit_window sample_curve_fit
                         [1; 10; 100; 1000] [1000; 100; 10; 1] 1 4 0
                         np_argmax_decreasing_sample)) (-1, 3)).
  - cbn. lia.
  - reflexivity.
Defined.

(** C3, as stated, fails: with the flux maximum at bin 0, [offset = 1] and
    [extend = 4] the window end 5 exceeds the 4 bins; the fit runs on the
    clamped window [1:4] and the call then fails with [IndexError], not
    with [InvalidFitWindowError]. *)
Lemma power_law_fit_past_end_index_error :
  power_law_fit sample_curve_fit [1; 10; 100; 1000] [1000; 100; 10; 1] 1 4
    = Raise IndexError /\
  power_law_fit sample_curve_fit [1; 10; 100; 1000] [1000; 100; 10; 1] 1 4
    <> Raise InvalidFitWindowError.
Proof.
  assert (H : power_law_fit sample_curve_fit [1; 10; 100; 1000]
                [1000; 100; 10; 1] 1 4 = Raise IndexError).
  { unfold power_law_fit. rewrite np_argmax_decreasing_sample. reflexivity. }
  split; [exact H|]. rewrite H. discriminate.
Qed.

(** ** Thermal core *)

(** [np.argmax] returns the first index of the maximum. *)
Lemma argmax_from_spec (t : list R) :
  forall (pre : list R) (best : R) (ibest : nat),
    (ibest < length pre)%nat ->
    nth ibest pre 0 = best ->
    (forall j, (j < length pre)%nat -> nth j pre 0 <= best) ->
    (forall j, (j < ibest)%nat -> nth j pre 0 < best) ->
    let k := argmax_from best ibest (length pre) t in
    (k < length (pre ++ t))%nat /\
    (forall j, (j < length (pre ++ t))%nat ->
               nth j (pre ++ t) 0 <= nth k (pre ++ t) 0) /\
    (forall j, (j < k)%nat -> nth j (pre ++ t) 0 < nth k (pre ++ t) 0).
Proof.
  induction t as [|y t IH]; intros pre best ibest Hi Hbest Hub Hfirst.
  - cbn [argmax_from]. rewrite app_nil_r, Hbest. auto.
  - cbn [argmax_from].
    replace (pre ++ y :: t) with ((pre ++ [y]) ++ t)
      by (rewrite <- app_assoc; reflexivity).
    replace (S (length pre)) with (length (pre ++ [y]))
      by (rewrite length_app; cbn [length]; lia).
    assert (Hy : nth (length pre) (pre ++ [y]) 0 = y).
    { rewrite app_nth2 by lia. rewrite Nat.sub_diag. reflexivity. }
    destruct (Rltb best y) eqn:E.
    + apply Rltb_true in E.
      apply IH.
      * rewrite length_app. cbn [length]. lia.
      * exact Hy.
      * intros j Hj. rewrite length_app in Hj. cbn [length] in Hj.
        destruct (Nat.eq_dec j (length pre)) as [->|Hne].
        -- rewrite Hy. lra.
        -- rewrite app_nth1 by lia.
           assert (nth j pre 0 <= best) by (apply Hub; lia). lra.
      * intros j Hj. rewrite app_nth1 by lia. specialize (Hub j Hj). lra.
    + apply Rltb_false in E.
      apply IH.
      * rewrite length_app. cbn [length]. lia.
      * rewrite app_nth1 by lia. exact Hbest.
      * intros j Hj. rewrite length_app in Hj. cbn [length] in Hj.
        destruct (Nat.eq_dec j (length pre)) as [->|Hne].
        -- rewrite Hy. exact E.
        -- rewrite app_nth1 by lia. apply Hub. lia.
      * intros j Hj. rewrite app_nth1 by lia. apply Hfirst. exact Hj.
Qed.

Lemma np_argmax_spec (l : list R) :
  l <> [] ->
  exists k,
    np_argmax l = Ok k /\ (k < length l)%nat /\
    (forall j, (j < length l)%nat -> nth j l 0 <= nth k l 0) /\
    (forall j, (j < k)%nat -> nth j l 0 < nth k l 0).
Proof.
  destruct l as [|x t]; [congruence|]. intros _.
  exists (argmax_from x 0 1 t). split; [reflexivity|].
  apply (argmax_from_spec t [x] x 0%nat).
  - cbn [length]. lia.
  - reflexivity.
  - intros [|j] Hj; cbn [length] in Hj; [cbn; lra | lia].
  - intros j Hj. lia.
Qed.

Lemma slice_bound_nat (n k : nat) : slice_bound n (Z.of_nat k) = Nat.min k n.
Proof.
  unfold slice_bound.
  destruct (Z.ltb_spec (Z.of_nat k) 0) as [E|_]; lia.
Qed.

(** A slice from the start. *)
Lemma py_slice_prefix {A : Type} (a : list A) (k : nat) :
  py_slice a 0 (Z.of_nat k) = firstn k a.
Proof.
  unfold py_slice.
  rewrite (slice_bound_nat (length a) k).
  change 0%Z with (Z.of_nat 0). rewrite (slice_bound_nat (length a) 0).
  cbn [Nat.min skipn]. rewrite Nat.sub_0_r.
  destruct (Nat.le_ge_cases k (length a)) as [Hk|Hk].
  - rewrite Nat.min_l by lia. reflexivity.
  - rewrite Nat.min_r by lia. rewrite !firstn_all2 by lia. reflexivity.
Qed.

Lemma py_index_nat {A : Type} (a : list A) (i : nat) (d : A) :
  (i < length a)%nat -> py_index a (Z.of_nat i) = Ok (nth i a d).
Proof.
  intros Hi. unfold py_index.
  destruct (Z.leb_spec 0 (Z.of_nat i)) as [_|E]; [|lia].
  rewrite Nat2Z.id. apply get_nth. exact Hi.
Qed.

(** The array smoothed by [fit_thermal_core]. *)
Lemma skipn_cons_nth {A : Type} (l : list A) (j : nat) (d : A) :
  (j < length l)%nat -> skipn j l = nth j l d :: skipn (S j) l.
Proof.
  revert j. induction l as [|x t IH]; intros j Hj; cbn [length] in Hj;
    [lia|].
  destruct j as [|j]; [reflexivity|].
  cbn [skipn nth]. apply IH. lia.
Qed.

Lemma firstn_skipn_nth {A : Type} (l : list A) (m j : nat) (d : A) :
  (j + m <= length l)%nat ->
  firstn m (skipn j l) = map (fun i => nth i l d) (seq j m).
Proof.
  revert j. induction m as [|m IH]; intros j Hj; [reflexivity|].
  rewrite (skipn_cons_nth l j d) by lia.
  cbn [firstn seq map]. f_equal. apply IH. lia.
Qed.

(** The array smoothed by [fit_thermal_core]. *)
Lemma smoothed_flux (dot : list R -> list R -> R) (k : R) (f : list R) :
  (3 <= length f)%nat ->
  np_convolve_same dot f [k; k; k] =
    Ok (map (moving_average3 dot k f) (seq 0 (length f))).
Proof.
  intros Hlen. unfold np_convolve_same. cbn [length].
  destruct (Nat.ltb_spec (length f) 3) as [E|_]; [lia|].
  cbn [length Nat.eqb rev app]. f_equal.
  apply map_ext_in. intros i Hi. apply in_seq in Hi.
  change (3 / 2)%nat with 1%nat.
  destruct i as [|j].
  - cbn [Nat.sub skipn moving_average3].
    change (firstn 2 f) with (firstn 2 (skipn 0 f)).
    rewrite (firstn_skipn_nth f 2 0 0) by lia. reflexivity.
  - replace (1 - S j)%nat with 0%nat by lia.
    replace (S j - 1)%nat with j by lia.
    cbn [Nat.sub skipn moving_average3].
    destruct (Nat.ltb_spec (S (S j)) (length f)) as [L|L].
    + rewrite (firstn_skipn_nth f 3 j 0) by lia. reflexivity.
    + rewrite firstn_all2 by (rewrite length_skipn; lia).
      rewrite <- (firstn_all2 (n := 2) (skipn j f))
        by (rewrite length_skipn; lia).
      rewrite (firstn_skipn_nth f 2 j 0) by lia. reflexivity.
Qed.

Lemma nth_map_seq (g : nat -> R) (n j : nat) :
  (j < n)%nat -> nth j (map g (seq 0 n)) 0 = g j.
Proof.
  intros Hj.
  rewrite (nth_indep _ 0 (g 0%nat)) by (rewrite length_map, length_seq; lia).
  rewrite map_nth, seq_nth by lia. reflexivity.
Qed.

(** C4: for an input of at least three bins, [fit_thermal_core] smooths the
    flux with the moving average of length 3: bin [i] of the smoothed flux
    is the sum of the products of the weight [fl (1/3)] by the bins [i - 1],
    [i] and [i + 1] of the flux, as numpy computes it in floating point.
    It takes the first index [peak] of the maximum of the smoothed flux,
    fits the two-parameter model [func_maxwellian] on the bins [0] to
    [peak + 10] of the energy and of the unsmoothed flux, and returns the
    fitted model evaluated on the whole energy array. *)
Theorem fit_thermal_core_window
    (curve_fit : forall X : Type,
        (X -> R -> R -> X) -> list X -> list X -> res (R * R))
    (func_maxwellian : R -> R -> R -> R) (fl : R -> R)
    (dot : list R -> list R -> R) (ene f : list R) :
  (3 <= length f)%nat ->
  length ene = length f ->
  let smoothed := moving_average3 dot (fl (1 / 3)) f in
  exists peak,
    (peak < length f)%nat /\
    (forall j, (j < length f)%nat -> smoothed j <= smoothed peak) /\
    (forall j, (j < peak)%nat -> smoothed j < smoothed peak) /\
    fit_thermal_core curve_fit func_maxwellian fl dot ene f =
      (popt <- curve_fit R func_maxwellian
                 (firstn (peak + 10) ene) (firstn (peak + 10) f) ;;
       Ok (map (fun e => func_maxwellian e (fst popt) (snd popt)) ene)).
Proof.
  intros Hlen Hene smoothed.
  set (fnew := map smoothed (seq 0 (length f))).
  assert (Hfnew : length fnew = length f)
    by (unfold fnew; rewrite length_map, length_seq; reflexivity).
  assert (Hne : fnew <> []).
  { intros E. rewrite E in Hfnew. cbn [length] in Hfnew. lia. }
  destruct (np_argmax_spec fnew Hne) as (peak & Harg & Hpeak & Hmax & Hfirst).
  rewrite Hfnew in Hpeak, Hmax.
  exists peak. split; [exact Hpeak|]. split; [|split].
  - intros j Hj. specialize (Hmax j Hj). unfold fnew in Hmax.
    rewrite !nth_map_seq in Hmax by lia. exact Hmax.
  - intros j Hj. specialize (Hfirst j Hj). unfold fnew in Hfirst.
    rewrite !nth_map_seq in Hfirst by lia. exact Hfirst.
  - unfold fit_thermal_core. cbn [repeat map].
    replace (1 / INR 3) with (1 / 3) by (cbn; f_equal; lra).
    rewrite (smoothed_flux dot (fl (1 / 3)) f Hlen).
    fold smoothed. fold fnew. cbn [bind].
    rewrite Harg. cbn [bind].
    replace (Z.of_nat peak + 10)%Z with (Z.of_nat (peak + 10)) by lia.
    rewrite !py_slice_prefix.
    destruct (curve_fit R func_maxwellian _ _) as [popt|e]; cbn [bind];
      [|reflexivity].
    replace (Z.of_nat (peak + 10) - 10)%Z with (Z.of_nat peak) by lia.
    rewrite (py_index_nat ene peak 0) by lia. reflexivity.
Qed.

(** On 14 bins with the flux maximum in bin 1, in exact arithmetic, the
    smoothed flux is 5/3, 7/3, 2, 2/3, 0, ...: its peak is bin 1 and the
    fit runs on the first 11 bins. *)
Lemma fit_thermal_core_window_witness :
  fit_thermal_core sample_curve_fit (fun x a b => a * sqrt x * exp (- b * x))
      exact_arithmetic exact_dot
      [1; 2; 3; 4; 5; 6; 7; 8; 9; 10; 11; 12; 13; 14]
      [1; 4; 2; 0; 0; 0; 0; 0; 0; 0; 0; 0; 0; 0] =
    (popt <- sample_curve_fit R (fun x a b => a * sqrt x * exp (- b * x))
               (firstn 11 [1; 2; 3; 4; 5; 6; 7; 8; 9; 10; 11; 12; 13; 14])
               (firstn 11 [1; 4; 2; 0; 0; 0; 0; 0; 0; 0; 0; 0; 0; 0]) ;;
     Ok (map (fun e => (fun x a b => a * sqrt x * exp (- b * x))
                         e (fst popt) (snd popt))
             [1; 2; 3; 4; 5; 6; 7; 8; 9; 10; 11; 12; 13; 14])).
Proof.
  destruct (fit_thermal_core_window sample_curve_fit
              (fun x a b => a * sqrt x * exp (- b * x))
              exact_arithmetic exact_dot
              [1; 2; 3; 4; 5; 6; 7; 8; 9; 10; 11; 12; 13; 14]
              [1; 4; 2; 0; 0; 0; 0; 0; 0; 0; 0; 0; 0; 0])
    as (peak & Hpeak & Hmax & _ & Hrun).
  - cbn [length]. lia.
  - reflexivity.
  - assert (Hp : peak = 1%nat).
    { specialize (Hmax 1%nat ltac:(cbn [length]; lia)).
      cbn [length] in Hpeak.
      unfold exact_arithmetic in Hmax.
      do 14 (destruct peak as [|peak]; [
        try reflexivity;
        exfalso;
        cbn [moving_average3 exact_dot fold_left combine nth length
             Nat.ltb Nat.leb fst snd] in Hmax;
        lra |]).
      lia. }
    rewrite Hp in Hrun. exact Hrun.
Defined.

(** ** Velocity histograms *)

Lemma nth_map_seq_gen {A : Type} (g : nat -> A) (n j : nat) (d : A) :
  (j < n)%nat -> nth j (map g (seq 0 n)) d = g j.
Proof.
  intros Hj.
  rewrite (nth_indep _ d (g 0%nat)) by (rewrite length_map, length_seq; lia).
  rewrite map_nth, seq_nth by lia. reflexivity.
Qed.

Lemma filter_all {A : Type} (p : A -> bool) (l : list A) :
  (forall x, In x l -> p x = true) -> filter p l = l.
Proof.
  induction l as [|x t IH]; intros H; [reflexivity|].
  cbn [filter]. rewrite (H x (or_introl eq_refl)). f_equal.
  apply IH. intros y Hy. apply H. right. exact Hy.
Qed.

Lemma filter_none {A : Type} (p : A -> bool) (l : list A) :
  (forall x, In x l -> p x = false) -> filter p l = [].
Proof.
  induction l as [|x t IH]; intros H; [reflexivity|].
  cbn [filter]. rewrite (H x (or_introl eq_refl)).
  apply IH. intros y Hy. apply H. right. exact Hy.
Qed.

(** Edges [g 0, g 1, ...]: when exactly the first [m] of them are not
    above [v], the right-sided search returns [m]. *)
Lemma count_edges_le (g : nat -> R) (v : R) (m n : nat) :
  (m <= n)%nat ->
  (forall k, (k < m)%nat -> g k <= v) ->
  (forall k, (m <= k < n)%nat -> v < g k) ->
  length (filter (fun e => Rleb e v) (map g (seq 0 n))) = m.
Proof.
  intros Hmn Hlow Hhigh.
  replace n with (m + (n - m))%nat at 1 by lia.
  rewrite seq_app, map_app, filter_app, length_app.
  rewrite filter_all, filter_none.
  - rewrite length_map, length_seq. cbn [length]. lia.
  - intros x Hx. apply in_map_iff in Hx. destruct Hx as (k & <- & Hk).
    apply in_seq in Hk. apply Rleb_false. apply Hhigh. lia.
  - intros x Hx. apply in_map_iff in Hx. destruct Hx as (k & <- & Hk).
    apply in_seq in Hk. apply Rleb_true. apply Hlow. lia.
Qed.

Lemma last_map_seq (g : nat -> R) (n : nat) (d : R) :
  last (map g (seq 0 (S n))) d = g n.
Proof.
  rewrite seq_S, map_app. cbn [map plus]. apply last_last.
Qed.

Lemma INR_numeral (n : nat) : INR n = IZR (Z.of_nat n).
Proof. apply INR_IZR_INZ. Qed.

(** The 65 edges of 64 bins on [-1, 1] are not rounded. *)
Lemma edge64 (fl : R -> R) (k : nat) :
  rounding fl -> (k <= 64)%nat ->
  (if (k =? 64 + 1 - 1)%nat then 1.0
   else fl (fl (INR k * fl (fl (1.0 - -1.0) / INR (64 + 1 - 1))) + -1.0))
  = IZR (Z.of_nat k) / 32 - 1.
Proof.
  intros Hfl Hk.
  change (64 + 1 - 1)%nat with 64%nat.
  destruct (Nat.eqb_spec k 64) as [->|Hne].
  - change (Z.of_nat 64) with 64%Z. lra.
  - rewrite (INR_numeral k), (INR_numeral 64).
    change (Z.of_nat 64) with 64%Z.
    rewrite (fl_dyadic fl 2 0 (1.0 - -1.0) Hfl)
      by (try lia; cbn; lra).
    rewrite (fl_dyadic fl 1 5 ((1.0 - -1.0) / 64) Hfl)
      by (try lia; cbn; lra).
    assert (Hk' : IZR (Z.of_nat k) <= 64) by (apply IZR_le; lia).
    assert (Hk0 : 0 <= IZR (Z.of_nat k)) by (apply IZR_le; lia).
    rewrite (fl_dyadic fl (Z.of_nat k) 5
               (IZR (Z.of_nat k) * ((1.0 - -1.0) / 64)) Hfl)
      by (try lia; cbn; lra).
    rewrite (fl_dyadic fl (Z.of_nat k - 32) 5 _ Hfl);
      try lia; rewrite ?minus_IZR; cbn; lra.
Qed.

Lemma nth_edge64 (fl : R -> R) (k : nat) :
  rounding fl -> (k <= 64)%nat ->
  nth k (np_linspace fl (-1.0) 1.0 (64 + 1)) 0 = IZR (Z.of_nat k) / 32 - 1.
Proof.
  intros Hfl Hk. unfold np_linspace.
  rewrite nth_map_seq_gen by lia. apply edge64; assumption.
Qed.

(** With 64 bins on [-1, 1] the value 0.5 falls in bin 48. *)
Lemma bin_index_half (fl : R -> R) :
  rounding fl ->
  bin_index (np_linspace fl (-1.0) 1.0 (64 + 1)) 0.5 = Some 48%nat.
Proof.
  intros Hfl. unfold bin_index, np_linspace.
  rewrite length_map, length_seq.
  rewrite (count_edges_le _ 0.5 49 (64 + 1)).
  - change (64 + 1)%nat with (S 64). rewrite last_map_seq.
    change (S 64) with (64 + 1)%nat.
    rewrite (edge64 fl 64 Hfl) by lia.
    change (Z.of_nat 64) with 64%Z.
    destruct (Req_EM_T 0.5 (64 / 32 - 1)) as [E|_]; [lra|]. reflexivity.
  - lia.
  - intros k Hk. rewrite (edge64 fl k Hfl) by lia.
    assert (IZR (Z.of_nat k) <= 48) by (apply IZR_le; lia). lra.
  - intros k Hk. rewrite (edge64 fl k Hfl) by lia.
    assert (49 <= IZR (Z.of_nat k)) by (apply IZR_le; lia). lra.
Qed.

(** A call of [np.histogram2d] on as many [x] as [y]. *)
Lemma np_histogram2d_run (fl : R -> R) (x y : list xfloat) (bins : nat)
    (lo hi : R) :
  bins <> 0%nat -> length x = length y ->
  np_histogram2d fl x y bins lo hi =
    Ok (map (fun i => map (fun j =>
              INR (length (filter
                     (fun s =>
                        in_bin (np_linspace fl lo hi (bins + 1)) i (fst s)
                        && in_bin (np_linspace fl lo hi (bins + 1)) j
                                  (snd s))
                     (combine x y)))) (seq 0 bins)) (seq 0 bins),
        np_linspace fl lo hi (bins + 1), np_linspace fl lo hi (bins + 1)).
Proof.
  intros Hb Hlen. unfold np_histogram2d.
  rewrite (proj2 (Nat.eqb_neq bins 0) Hb).
  rewrite (proj2 (Nat.eqb_eq _ _) Hlen). reflexivity.
Qed.

(** The samples of a histogram come from the particles that the mask
    keeps. *)
Lemma count_kept {A : Type} (mask : A -> bool) (g h : A -> xfloat)
    (q1 q2 : xfloat -> bool) (l : list A) :
  length (filter (fun s => q1 (fst s) && q2 (snd s))
            (combine (map g (filter mask l)) (map h (filter mask l))))
  = length (filter (fun p => mask p && q1 (g p) && q2 (h p)) l).
Proof.
  induction l as [|p l IH]; [reflexivity|].
  cbn [filter]. destruct (mask p); cbn [andb map combine filter fst snd].
  - destruct (q1 (g p) && q2 (h p)); cbn [length]; rewrite IH; reflexivity.
  - exact IH.
Qed.

(** The histogram of the single sample (0.5, 0.5). *)
Lemma histogram2d_single_half (fl : R -> R) :
  rounding fl ->
  exists H edges,
    np_histogram2d fl [Fin 0.5] [Fin 0.5] 64 (-1.0) 1.0
      = Ok (H, edges, edges) /\
    nth 48 edges 0 <= 0.5 < nth 49 edges 0 /\
    forall i j, (i < 64)%nat -> (j < 64)%nat ->
      nth j (nth i H []) 0 = if ((i =? 48) && (j =? 48))%nat then 1 else 0.
Proof.
  intros Hfl.
  do 2 eexists. split; [reflexivity|]. split.
  - rewrite !(nth_edge64 fl _ Hfl) by lia.
    change (Z.of_nat 48) with 48%Z. change (Z.of_nat 49) with 49%Z. lra.
  - intros i j Hi Hj.
    rewrite (nth_map_seq_gen _ 64 i []) by exact Hi.
    rewrite (nth_map_seq_gen _ 64 j 0) by exact Hj.
    cbn [combine filter fst snd]. unfold in_bin.
    rewrite (bin_index_half fl Hfl).
    rewrite (Nat.eqb_sym i 48), (Nat.eqb_sym j 48).
    destruct ((48 =? i) && (48 =? j))%nat; cbn [length INR]; reflexivity.
Qed.

Lemma xleb_fin (a b : R) : xleb (Fin a) (Fin b) = true <-> a <= b.
Proof. cbn [xleb]. apply Rleb_true. Qed.

(** A numpy value between two numbers is a number. *)
Lemma xleb_between (a b : R) (v : xfloat) :
  xleb (Fin a) v && xleb v (Fin b) = true <->
  exists r, v = Fin r /\ a <= r <= b.
Proof.
  destruct v as [r| | |]; cbn [xleb andb].
  - rewrite andb_true_iff, !Rleb_true. split.
    + intros H. exists r. split; [reflexivity | exact H].
    + intros (r' & E & H). injection E as ->. exact H.
  - split; [discriminate | intros (r & E & _); discriminate].
  - split; [discriminate | intros (r & E & _); discriminate].
  - split; [discriminate | intros (r & E & _); discriminate].
Qed.

Lemma math_sqrt_pos (x : R) : 0 < x -> math_sqrt x = Ok (sqrt x) /\ sqrt x <> 0.
Proof.
  intros Hx. unfold math_sqrt.
  rewrite (proj2 (Rltb_false x 0)) by lra. split; [reflexivity|].
  assert (0 < sqrt x) by (apply sqrt_lt_R0; exact Hx). lra.
Qed.

Lemma math_sqrt_nonneg (x : R) : 0 <= x -> math_sqrt x = Ok (sqrt x).
Proof.
  intros Hx. unfold math_sqrt. rewrite (proj2 (Rltb_false x 0)) by lra.
  reflexivity.
Qed.

(** C6: for a mass ratio that is not negative, a particle is kept iff each
    of its reconstructed coordinates, as computed in floating point, is a
    number in the inclusive range of [corners].  On every list of particles
    each histogram counts, bin by bin, the kept particles whose two
    velocity components fall in the bin: a particle outside the box adds
    nothing.  A single kept particle with [u = (0.5, 0.5, 0.5)] and 64 bins
    gives three histograms with the count 1 in bin (48, 48), whose edges
    enclose 0.5, and 0 in every other bin. *)
Theorem calc_velocity_distribution_mask
    (f32 : float32 -> R) (fl32 fl64 : R -> R) (v0 : v0header.t)
    (pheader : header_particle.t) (pic : pic_info.t) (corners : corners_t) :
  rounding fl64 ->
  0 <= pic_info.mime pic ->
  let smime := fl64 (sqrt (pic_info.mime pic)) in
  let mask :=
    fun p => in_box corners (position_de f32 fl32 fl64 v0 smime p) in
  let ux := fun p => x32 f32 (fst (fst (particle.u p))) in
  let uy := fun p => x32 f32 (snd (fst (particle.u p))) in
  let uz := fun p => x32 f32 (snd (particle.u p)) in
  let count :=
    fun (edges : list R) (ptl : list particle.t)
        (a b : particle.t -> xfloat) (i j : nat) =>
      INR (length (filter (fun p => mask p && in_bin edges i (a p)
                                    && in_bin edges j (b p)) ptl)) in
  (forall p,
      mask p = true <->
      exists x y z,
        position_de f32 fl32 fl64 v0 smime p = (Fin x, Fin y, Fin z) /\
        let '(c0, c1, c2) := corners in
        (fst c0 <= x <= snd c0) /\
        (fst c1 <= y <= snd c1) /\
        (fst c2 <= z <= snd c2)) /\
  (forall ptl nbins,
      nbins <> 0%nat ->
      exists hist_xy hist_xz hist_yz edges,
        calc_velocity_distribution f32 fl32 fl64 v0 pheader ptl pic corners
          nbins = Ok (hist_xy, hist_xz, hist_yz, edges, edges) /\
        edges = np_linspace fl64 (-1.0) 1.0 (nbins + 1) /\
        forall i j, (i < nbins)%nat -> (j < nbins)%nat ->
          nth j (nth i hist_xy []) 0 = count edges ptl uy ux i j /\
          nth j (nth i hist_xz []) 0 = count edges ptl uz ux i j /\
          nth j (nth i hist_yz []) 0 = count edges ptl uz uy i j) /\
  (forall p ptl nbins,
      mask p = false ->
      calc_velocity_distribution f32 fl32 fl64 v0 pheader (p :: ptl) pic
        corners nbins =
      calc_velocity_distribution f32 fl32 fl64 v0 pheader ptl pic corners
        nbins) /\
  (forall p,
      mask p = true ->
      ux p = Fin 0.5 -> uy p = Fin 0.5 -> uz p = Fin 0.5 ->
      exists H edges,
        calc_velocity_distribution f32 fl32 fl64 v0 pheader [p] pic corners
          64 = Ok (H, H, H, edges, edges) /\
        nth 48 edges 0 <= 0.5 < nth 49 edges 0 /\
        forall i j, (i < 64)%nat -> (j < 64)%nat ->
          nth j (nth i H []) 0 = if ((i =? 48) && (j =? 48))%nat then 1 else 0).
Proof.
  intros Hfl Hmime smime mask ux uy uz count.
  pose proof (math_sqrt_nonneg _ Hmime) as Hsqrt.
  split; [|split; [|split]].
  - intros p. unfold mask, in_box.
    destruct (position_de f32 fl32 fl64 v0 smime p) as [[x y] z].
    destruct corners as [[c0 c1] c2].
    assert (E : forall a b c d e f : bool,
               a && b && c && d && e && f = (a && b) && ((c && d) && (e && f)))
      by (intros [] [] [] [] [] []; reflexivity).
    rewrite E. split.
    + intros H. apply andb_prop in H as [Hx H].
      apply andb_prop in H as [Hy Hz].
      apply xleb_between in Hx as (rx & -> & Hx).
      apply xleb_between in Hy as (ry & -> & Hy).
      apply xleb_between in Hz as (rz & -> & Hz).
      exists rx, ry, rz. auto.
    + intros (rx & ry & rz & Hp & Hx & Hy & Hz).
      injection Hp as -> -> ->.
      repeat (apply andb_true_intro; split);
        apply Rleb_true; lra.
  - intros ptl nbins Hb. unfold calc_velocity_distribution.
    rewrite Hsqrt. cbn [bind]. fold smime. fold mask.
    rewrite !np_histogram2d_run
      by (try exact Hb; rewrite !length_map; reflexivity).
    cbn [bind]. do 4 eexists. split; [reflexivity|].
    split; [reflexivity|].
    intros i j Hi Hj.
    rewrite !(nth_map_seq_gen _ nbins i []) by exact Hi.
    rewrite !(nth_map_seq_gen _ nbins j 0) by exact Hj.
    unfold count.
    rewrite !(count_kept mask). repeat split.
  - intros p ptl nbins Hp. unfold calc_velocity_distribution.
    rewrite Hsqrt. cbn [bind]. fold smime. fold mask.
    cbn [filter]. rewrite Hp. reflexivity.
  - intros p Hp Hx Hy Hz.
    destruct (histogram2d_single_half fl64 Hfl)
      as (H & edges & Hhist & Hedges & Hent).
    exists H, edges. split; [|split; assumption].
    unfold calc_velocity_distribution.
    rewrite Hsqrt. cbn [bind]. fold smime. fold mask.
    cbn [filter]. rewrite Hp. cbn [map].
    fold (ux p). fold (uy p). fold (uz p).
    rewrite Hx, Hy, Hz, Hhist. reflexivity.
Qed.

(** Values of the sample decoder. *)
Lemma sample_f32_zero : sample_f32 0%Z = 0.
Proof. unfold sample_f32, ieee_value. cbn. ring. Qed.

Lemma sample_f32_one : sample_f32 0x3F800000%Z = 1.
Proof.
  unfold sample_f32, ieee_value. cbn.
  change (Pos.to_nat 23) with 23%nat. lra.
Qed.

Lemma sample_f32_half : sample_f32 0x3F000000%Z = 0.5.
Proof.
  unfold sample_f32, ieee_value. cbn.
  change (Pos.to_nat 24) with 24%nat. lra.
Qed.

Lemma sample_x32_zero : x32 sample_f32 0%Z = Fin 0.
Proof.
  unfold x32. change ((0 / 2 ^ 23) mod 2 ^ 8 =? 2 ^ 8 - 1)%Z with false.
  rewrite sample_f32_zero. reflexivity.
Qed.

Lemma sample_x32_one : x32 sample_f32 0x3F800000%Z = Fin 1.
Proof.
  unfold x32.
  change ((0x3F800000 / 2 ^ 23) mod 2 ^ 8 =? 2 ^ 8 - 1)%Z with false.
  rewrite sample_f32_one. reflexivity.
Qed.

Lemma sample_x32_half : x32 sample_f32 0x3F000000%Z = Fin 0.5.
Proof.
  unfold x32.
  change ((0x3F000000 / 2 ^ 23) mod 2 ^ 8 =? 2 ^ 8 - 1)%Z with false.
  rewrite sample_f32_half. reflexivity.
Qed.

Lemma sqrt_25 : sqrt 25 = 5.
Proof. replace 25 with (5 * 5) by lra. apply sqrt_square. lra. Qed.

(** In exact arithmetic the sample particle lies at (0.1, 0.1, 0.1)
    electron skin depths for the mass ratio 25. *)
Lemma sample_position :
  position_de sample_f32 exact_arithmetic exact_arithmetic sample_v0
    (exact_arithmetic (sqrt (pic_info.mime sample_pic))) sample_particle
  = (Fin 0.1, Fin 0.1, Fin 0.1).
Proof.
  unfold position_de, position_di.
  cbn [sample_particle particle.dxyz particle.icell].
  change (cell_coords sample_v0 13) with (1%Z, 1%Z, 1%Z).
  cbn [sample_v0 v0header.x0 v0header.y0 v0header.z0 v0header.dx v0header.dy
       v0header.dz sample_pic pic_info.mime].
  rewrite sample_x32_zero, sample_x32_one.
  unfold exact_arithmetic. rewrite sqrt_25.
  cbn [xadd xmult xdivr]. unfold fl_div.
  rewrite !np_div_nonzero by lra.
  repeat f_equal; lra.
Qed.

Lemma calc_velocity_distribution_mask_witness :
  exists H edges,
    calc_velocity_distribution sample_f32 exact_arithmetic exact_arithmetic
        sample_v0 sample_pheader [sample_particle] sample_pic sample_corners
        64 =
      Ok (H, H, H, edges, edges) /\
    nth 48 edges 0 <= 0.5 < nth 49 edges 0 /\
    forall i j, (i < 64)%nat -> (j < 64)%nat ->
      nth j (nth i H []) 0 = if ((i =? 48) && (j =? 48))%nat then 1 else 0.
Proof.
  assert (Hm : 0 <= pic_info.mime sample_pic) by (cbn; lra).
  destruct (calc_velocity_distribution_mask sample_f32 exact_arithmetic
              exact_arithmetic sample_v0 sample_pheader sample_pic
              sample_corners rounding_exact Hm)
    as (Hiff & _ & _ & Hsingle).
  apply Hsingle.
  - apply Hiff. exists 0.1, 0.1, 0.1. split; [apply sample_position|].
    cbn [sample_corners fst snd]. lra.
  - apply sample_x32_half.
  - apply sample_x32_half.
  - apply sample_x32_half.
Defined.

(** ** Velocity-distribution files *)

Lemma Forall_firstn_skipn {A : Type} (P : A -> Prop) (n : nat) (l : list A) :
  Forall P l -> Forall P (firstn n l) /\ Forall P (skipn n l).
Proof.
  intros H. rewrite <- (firstn_skipn n l) in H.
  apply Forall_app in H. exact H.
Qed.

Lemma Forall_reshape (P : R -> Prop) (rows cols : nat) :
  forall l, Forall P l -> Forall P (concat (reshape rows cols l)).
Proof.
  induction rows as [|r IH]; intros l Hl; cbn [reshape concat].
  - constructor.
  - destruct (Forall_firstn_skipn P cols l Hl) as [Hf Hs].
    apply Forall_app. split; [exact Hf | apply IH; exact Hs].
Qed.

Lemma length_concat_reshape (rows cols : nat) :
  forall l, (rows * cols <= length l)%nat ->
            length (concat (reshape rows cols l)) = (rows * cols)%nat.
Proof.
  induction rows as [|r IH]; intros l Hl; cbn [reshape concat]; [reflexivity|].
  rewrite length_app, length_firstn, IH.
  - rewrite Nat.min_l; lia.
  - rewrite length_skipn. lia.
Qed.

Lemma length_chunks (size count : nat) (bs : list byte) :
  length (chunks size count bs) = count.
Proof.
  revert bs. induction count as [|c IH]; intros bs; cbn [chunks length];
    [reflexivity | rewrite IH; reflexivity].
Qed.

Lemma nonzero_pos (l : list R) :
  Forall (fun x => 0 < x) l -> nonzero l = l.
Proof.
  intros H. unfold nonzero. apply filter_all. intros x Hx.
  rewrite Forall_forall in H. specialize (H x Hx).
  destruct (Req_EM_T x 0); [lra | reflexivity].
Qed.

Lemma np_min_max_nonzero_ok (l : list R) :
  (0 < length l)%nat -> Forall (fun x => 0 < x) l ->
  exists lo hi, np_min_nonzero l = Ok lo /\ np_max_nonzero l = Ok hi.
Proof.
  intros Hlen Hpos. unfold np_min_nonzero, np_max_nonzero.
  rewrite (nonzero_pos l Hpos).
  destruct l as [|x t]; [cbn [length] in Hlen; lia|].
  do 2 eexists. split; reflexivity.
Qed.

(** A stored histogram, once the floor [delta] has been added. *)
Lemma histogram_min_max_ok (f64 : float64 -> R) (b : list byte)
    (offset rows cols : nat) :
  (0 < rows * cols)%nat ->
  Forall (fun x => 0 <= x) (stored64 f64 b offset (rows * cols)) ->
  let a :=
    map (map (fun x => x + 0.01))
        (reshape rows cols (stored64 f64 b offset (rows * cols))) in
  exists lo hi,
    np_min_nonzero (concat a) = Ok lo /\ np_max_nonzero (concat a) = Ok hi.
Proof.
  intros Hsize Hnn a. unfold a. rewrite <- concat_map.
  apply np_min_max_nonzero_ok.
  - rewrite length_map, length_concat_reshape.
    + exact Hsize.
    + unfold stored64. rewrite length_map, length_chunks. lia.
  - apply Forall_map. apply Forall_reshape.
    revert Hnn. apply Forall_impl. intros x Hx. lra.
Qed.

Lemma vector_min_max_ok (f64 : float64 -> R) (b : list byte)
    (offset count : nat) :
  (0 < count)%nat ->
  Forall (fun x => 0 <= x) (stored64 f64 b offset count) ->
  let a := map (fun x => x + 0.01) (stored64 f64 b offset count) in
  exists lo hi, np_min_nonzero a = Ok lo /\ np_max_nonzero a = Ok hi.
Proof.
  intros Hsize Hnn a. unfold a.
  apply np_min_max_nonzero_ok.
  - unfold stored64. rewrite !length_map, length_chunks. exact Hsize.
  - apply Forall_map. revert Hnn. apply Forall_impl. intros x Hx. lra.
Qed.

Section ReadVelocityDistribution.

Variable f32 : float32 -> R.
Variable f64 : float64 -> R.
Variable fs : filesystem.
Variables (species : string) (tframe : Z) (pic : pic_info.t) (fpath : string).
Variables (b2 b1 : list byte) (n : nat).

Hypothesis H2d :
  fs (if String.eqb species "e"
      then fpath ++ "vdist_2d-" ++ species ++ "." ++ py_str tframe
      else fpath ++ "vdist_2d-h." ++ py_str tframe)%string = Some b2.
Hypothesis H1d :
  fs (if String.eqb species "e"
      then fpath ++ "vdist_1d-" ++ species ++ "." ++ py_str tframe
      else fpath ++ "vdist_1d-h." ++ py_str tframe)%string = Some b1.
Hypothesis Hnbins : le_signed (firstn 4 (skipn 32 b2)) = Z.of_nat n.
Hypothesis Hn : (1 <= n)%nat.
Hypothesis Hlen2 : (36 + 24 * n + 112 * (n * n) <= length b2)%nat.
Hypothesis Hlen1 : (36 + 48 * n <= length b1)%nat.
Hypothesis Hmime : 0 <= pic_info.mime pic.
Hypothesis Hpara_perp :
  Forall (fun x => 0 <= x) (stored64 f64 b2 (36 + 24 * n) (n * (2 * n))).
Hypothesis Hxy :
  Forall (fun x => 0 <= x)
         (stored64 f64 b2 (36 + 24 * n + 16 * (n * n)) (2 * n * (2 * n))).
Hypothesis Hxz :
  Forall (fun x => 0 <= x)
         (stored64 f64 b2 (36 + 24 * n + 48 * (n * n)) (2 * n * (2 * n))).
Hypothesis Hyz :
  Forall (fun x => 0 <= x)
         (stored64 f64 b2 (36 + 24 * n + 80 * (n * n)) (2 * n * (2 * n))).
Hypothesis Hpara :
  Forall (fun x => 0 <= x) (stored64 f64 b1 (36 + 24 * n) (2 * n)).
Hypothesis Hperp :
  Forall (fun x => 0 <= x) (stored64 f64 b1 (36 + 40 * n) n).

(** On well-formed files the reader returns, with the velocity bins and
    bounds divided by [sqrt(mime)] exactly when the species is ['h']. *)
Lemma read_velocity_distribution_run :
  exists fvel,
    read_velocity_distribution f32 f64 fs species tframe pic fpath = Ok fvel /\
    let smime := sqrt (pic_info.mime pic) in
    let raw_short := stored64 f64 b2 36 n in
    let raw_long := stored64 f64 b2 (36 + 8 * n) (2 * n) in
    let raw_vmin := stored32 f32 b2 24 in
    let raw_vmax := stored32 f32 b2 28 in
    (fvelocity.vbins_short fvel, fvelocity.vbins_long fvel,
     fvelocity.vmin fvel, fvelocity.vmax fvel) =
    (if String.eqb species "h"
     then (map (fun v => np_div v smime) raw_short,
           map (fun v => np_div v smime) raw_long,
           np_div raw_vmin smime, np_div raw_vmax smime)
     else (map Fin raw_short, map Fin raw_long, Fin raw_vmin, Fin raw_vmax)).
Proof.
  unfold read_velocity_distribution, py_open.
  rewrite H2d. cbn [bind].
  assert (Hpos2 : (0 < length b2)%nat) by lia.
  assert (Hpos1 : (0 < length b1)%nat) by lia.
  repeat memmap_step.
  assert (Hnb : nth 0 (map le_signed
                  (chunks 4 1 (skipn (3 * 4 + 3 * 4 + 2 * 4) b2))) 0%Z
                = Z.of_nat n) by exact Hnbins.
  rewrite Hnb, Nat2Z.id.
  destruct (Z.ltb_spec (Z.of_nat n) 0) as [E|_]; [lia|]. cbn [bind].
  repeat memmap_step.
  rewrite H1d. cbn [bind].
  repeat memmap_step.
  unfold math_sqrt. rewrite (proj2 (Rltb_false _ 0) Hmime). cbn [bind].
  repeat match goal with
         | |- context [map (fun bs => f64 (le_unsigned bs))
                           (chunks 8 ?c (skipn ?o ?b))] =>
             change (map (fun bs => f64 (le_unsigned bs))
                         (chunks 8 c (skipn o b)))
               with (stored64 f64 b o c)
         end.
  replace (3 * 4 + 3 * 4 + 2 * 4 + 4 + 8 * n + 8 * n * 2 + 8 * n * 2 * n
           + 8 * 2 * n * 2 * n + 8 * 2 * n * 2 * n)%nat
    with (36 + 24 * n + 80 * (n * n))%nat by lia.
  replace (3 * 4 + 3 * 4 + 2 * 4 + 4 + 8 * n + 8 * n * 2 + 8 * n * 2 * n
           + 8 * 2 * n * 2 * n)%nat
    with (36 + 24 * n + 48 * (n * n))%nat by lia.
  replace (3 * 4 + 3 * 4 + 2 * 4 + 4 + 8 * n + 8 * n * 2 + 8 * n * 2 * n)%nat
    with (36 + 24 * n + 16 * (n * n))%nat by lia.
  replace (3 * 4 + 3 * 4 + 2 * 4 + 4 + 8 * n + 8 * n * 2)%nat
    with (36 + 24 * n)%nat by lia.
  replace (9 * 4 + 8 * n * 3 + 8 * n * 2)%nat with (36 + 40 * n)%nat by lia.
  replace (9 * 4 + 8 * n * 3)%nat with (36 + 24 * n)%nat by lia.
  destruct (histogram_min_max_ok f64 b2 (36 + 24 * n) n (2 * n))
    as (lo1 & hi1 & Hlo1 & Hhi1); [nia | exact Hpara_perp |].
  destruct (histogram_min_max_ok f64 b2 (36 + 24 * n + 16 * (n * n))
              (2 * n) (2 * n))
    as (lo2 & hi2 & Hlo2 & Hhi2); [nia | exact Hxy |].
  destruct (histogram_min_max_ok f64 b2 (36 + 24 * n + 48 * (n * n))
              (2 * n) (2 * n))
    as (lo3 & hi3 & Hlo3 & Hhi3); [nia | exact Hxz |].
  destruct (histogram_min_max_ok f64 b2 (36 + 24 * n + 80 * (n * n))
              (2 * n) (2 * n))
    as (lo4 & hi4 & Hlo4 & Hhi4); [nia | exact Hyz |].
  destruct (vector_min_max_ok f64 b1 (36 + 24 * n) (2 * n))
    as (lo5 & hi5 & Hlo5 & Hhi5); [lia | exact Hpara |].
  destruct (vector_min_max_ok f64 b1 (36 + 40 * n) n)
    as (lo6 & hi6 & Hlo6 & Hhi6); [lia | exact Hperp |].
  cbv zeta in *.
  assert (Hvmax : nth 1 (map (fun bs => f32 (le_unsigned bs))
                           (chunks 4 2 (skipn (3 * 4 + 3 * 4) b2))) 0
                  = stored32 f32 b2 28).
  { cbn [chunks map nth]. rewrite skipn_skipn. reflexivity. }
  destruct (String.eqb species "h");
    rewrite Hlo1, Hlo2, Hlo3, Hlo4, Hhi1, Hhi2, Hhi3, Hhi4,
            Hlo5, Hlo6, Hhi5, Hhi6;
    cbn [bind py_min py_max];
    eexists; (split; [reflexivity|]);
    cbn [fvelocity.vbins_short fvelocity.vbins_long fvelocity.vmin
         fvelocity.vmax];
    rewrite Hvmax; reflexivity.
Qed.

End ReadVelocityDistribution.

Lemma length_stored64 (f64 : float64 -> R) (b : list byte)
    (offset count : nat) :
  length (stored64 f64 b offset count) = count.
Proof. unfold stored64. rewrite length_map. apply length_chunks. Qed.

(** C7: on well-formed files, for the ion species ['h']
    [read_velocity_distribution] returns the stored velocity bins
    ([vbins_short], [vbins_long]) and bounds ([vmin], [vmax]) divided by
    [sqrt(mime)], so that with [mime = 25] a stored 5.0 is returned as 1.0;
    for the electron species ['e'] it returns them unchanged. *)
Theorem read_velocity_distribution_units
    (f32 : float32 -> R) (f64 : float64 -> R) (fs : filesystem)
    (species : string) (tframe : Z) (pic : pic_info.t) (fpath : string)
    (b2 b1 : list byte) (n : nat) :
  vdist_files f64 fs species tframe fpath b2 b1 n ->
  0 <= pic_info.mime pic ->
  exists fvel,
    read_velocity_distribution f32 f64 fs species tframe pic fpath = Ok fvel /\
    let smime := sqrt (pic_info.mime pic) in
    let raw_short := stored64 f64 b2 36 n in
    let raw_long := stored64 f64 b2 (36 + 8 * n) (2 * n) in
    let raw_vmin := stored32 f32 b2 24 in
    let raw_vmax := stored32 f32 b2 28 in
    (species = "h"%string ->
       fvelocity.vbins_short fvel = map (fun v => np_div v smime) raw_short /\
       fvelocity.vbins_long fvel = map (fun v => np_div v smime) raw_long /\
       fvelocity.vmin fvel = np_div raw_vmin smime /\
       fvelocity.vmax fvel = np_div raw_vmax smime) /\
    (species = "h"%string -> pic_info.mime pic = 25 ->
       forall i, (i < n)%nat -> nth i raw_short 0 = 5.0 ->
                 nth i (fvelocity.vbins_short fvel) NaN = Fin 1.0) /\
    (species = "e"%string ->
       fvelocity.vbins_short fvel = map Fin raw_short /\
       fvelocity.vbins_long fvel = map Fin raw_long /\
       fvelocity.vmin fvel = Fin raw_vmin /\
       fvelocity.vmax fvel = Fin raw_vmax).
Proof.
  intros (H2d & H1d & Hnbins & Hn & Hlen2 & Hlen1 & Hpp & Hxy & Hxz & Hyz
          & Hpara & Hperp) Hmime.
  destruct (read_velocity_distribution_run f32 f64 fs species tframe pic
              fpath b2 b1 n H2d H1d Hnbins Hn Hlen2 Hlen1 Hmime Hpp Hxy Hxz
              Hyz Hpara Hperp) as (fvel & Hrun & Hfields).
  exists fvel. split; [exact Hrun|]. cbv zeta in *.
  assert (Hions : species = "h"%string ->
            fvelocity.vbins_short fvel =
              map (fun v => np_div v (sqrt (pic_info.mime pic)))
                  (stored64 f64 b2 36 n) /\
            fvelocity.vbins_long fvel =
              map (fun v => np_div v (sqrt (pic_info.mime pic)))
                  (stored64 f64 b2 (36 + 8 * n) (2 * n)) /\
            fvelocity.vmin fvel =
              np_div (stored32 f32 b2 24) (sqrt (pic_info.mime pic)) /\
            fvelocity.vmax fvel =
              np_div (stored32 f32 b2 28) (sqrt (pic_info.mime pic))).
  { intros ->. cbn [String.eqb Ascii.eqb Bool.eqb] in Hfields.
    injection Hfields as -> -> -> ->. repeat split. }
  split; [exact Hions|]. split.
  - intros Hs Hm i Hi Hraw.
    destruct (Hions Hs) as (-> & _).
    rewrite (nth_indep _ NaN (np_div 0 (sqrt (pic_info.mime pic))))
      by (rewrite length_map, length_stored64; exact Hi).
    rewrite (map_nth (fun v => np_div v (sqrt (pic_info.mime pic)))).
    rewrite Hraw, Hm, sqrt_25.
    rewrite np_div_nonzero by lra. f_equal. lra.
  - intros ->. cbn [String.eqb Ascii.eqb Bool.eqb] in Hfields.
    injection Hfields as -> -> -> ->. repeat split.
Qed.

Lemma sample_f64_zero : sample_f64 0%Z = 0.
Proof. unfold sample_f64, ieee_value. cbn. ring. Qed.

Lemma sample_f64_five : sample_f64 0x4014000000000000%Z = 5.0.
Proof.
  unfold sample_f64, ieee_value. cbn.
  change (Pos.to_nat 50) with 50%nat. lra.
Qed.

Lemma sample_vdist_files :
  vdist_files sample_f64 sample_vdist_fs "h" 10 "" sample_vdist_2d
    sample_vdist_1d 1.
Proof.
  unfold vdist_files.
  repeat match goal with |- _ /\ _ => split end;
    try reflexivity; try (cbn; lia).
  - change (stored64 sample_f64 sample_vdist_2d (36 + 24 * 1) (1 * (2 * 1)))
      with (repeat (sample_f64 0%Z) 2).
    rewrite sample_f64_zero. repeat constructor; lra.
  - change (stored64 sample_f64 sample_vdist_2d
              (36 + 24 * 1 + 16 * (1 * 1)) (2 * 1 * (2 * 1)))
      with (repeat (sample_f64 0%Z) 4).
    rewrite sample_f64_zero. repeat constructor; lra.
  - change (stored64 sample_f64 sample_vdist_2d
              (36 + 24 * 1 + 48 * (1 * 1)) (2 * 1 * (2 * 1)))
      with (repeat (sample_f64 0%Z) 4).
    rewrite sample_f64_zero. repeat constructor; lra.
  - change (stored64 sample_f64 sample_vdist_2d
              (36 + 24 * 1 + 80 * (1 * 1)) (2 * 1 * (2 * 1)))
      with (repeat (sample_f64 0%Z) 4).
    rewrite sample_f64_zero. repeat constructor; lra.
  - change (stored64 sample_f64 sample_vdist_1d (36 + 24 * 1) (2 * 1))
      with (repeat (sample_f64 0%Z) 2).
    rewrite sample_f64_zero. repeat constructor; lra.
  - change (stored64 sample_f64 sample_vdist_1d (36 + 40 * 1) 1)
      with (repeat (sample_f64 0%Z) 1).
    rewrite sample_f64_zero. repeat constructor; lra.
Qed.

Lemma read_velocity_distribution_units_witness :
  vdist_files sample_f64 sample_vdist_fs "h" 10 "" sample_vdist_2d
    sample_vdist_1d 1 /\
  0 <= pic_info.mime sample_pic /\
  exists fvel,
    read_velocity_distribution sample_f32 sample_f64 sample_vdist_fs "h" 10
      sample_pic "" = Ok fvel /\
    nth 0 (fvelocity.vbins_short fvel) NaN = Fin 1.0.
Proof.
  assert (Hm : 0 <= pic_info.mime sample_pic) by (cbn; lra).
  split; [exact sample_vdist_files|]. split; [exact Hm|].
  destruct (read_velocity_distribution_units sample_f32 sample_f64
              sample_vdist_fs "h" 10 sample_pic "" sample_vdist_2d
              sample_vdist_1d 1 sample_vdist_files Hm)
    as (fvel & Hrun & _ & Hfive & _).
  exists fvel. split; [exact Hrun|].
  apply Hfive; [reflexivity | reflexivity | lia |].
  change (nth 0 (stored64 sample_f64 sample_vdist_2d 36 1) 0)
    with (sample_f64 0x4014000000000000%Z).
  apply sample_f64_five.
Defined.

(** ** The accumulated fractions of [power_law_fit]

    In [power_law_fit] the fitted curve is not finite exactly at the
    energies that are not positive, and on a window holding such an energy
    [accumulated_particle_info] raises [ValueError] (at [math.log10]) before
    it reads the flux: this is the case in which the model does not hand a
    curve over to it. *)

Lemma accumulated_particle_info_nonpositive (ene g : list R) (e : R) :
  In e ene -> e <= 0 -> accumulated_particle_info ene g = Raise ValueError.
Proof.
  intros Hin He.
  assert (Hne : ene <> []) by (intros E; rewrite E in Hin; exact Hin).
  destruct (py_max_spec ene Hne) as (emax & Hmax & _ & _).
  destruct (py_min_spec ene Hne) as (emin & Hmin & _ & Hlb).
  unfold accumulated_particle_info. rewrite Hmax. cbn [bind].
  unfold math_log10. destruct (Rltb 0 emax); [|reflexivity].
  cbn [bind]. rewrite Hmin. cbn [bind].
  specialize (Hlb e Hin).
  rewrite (proj2 (Rltb_false 0 emin)) by lra. reflexivity.
Qed.

Lemma finite_list_none (l : list xfloat) :
  finite_list l = None -> exists x, In x l /\ forall r, x <> Fin r.
Proof.
  induction l as [|x t IH]; cbn [finite_list]; [discriminate|].
  destruct x as [r| | |];
    try (intros _; eexists; split; [left; reflexivity | discriminate]).
  destruct (finite_list t); [discriminate|].
  intros _. destruct (IH eq_refl) as (y & Hy & Hfin).
  exists y. split; [right; exact Hy | exact Hfin].
Qed.

Lemma py_slice_map {A B : Type} (g : A -> B) (l : list A) (lo hi : Z) :
  py_slice (map g l) lo hi = map g (py_slice l lo hi).
Proof.
  unfold py_slice. rewrite length_map, skipn_map, firstn_map. reflexivity.
Qed.

Lemma power_law_curve_window (a b : R) (ene g : list R) (lo hi : Z) :
  finite_list
    (py_slice (map np_power10
                 (map (fun e => func_line (np_log10 e) a b) ene)) lo hi)
    = None ->
  accumulated_particle_info (py_slice ene lo hi) g = Raise ValueError.
Proof.
  rewrite map_map, py_slice_map. intros H.
  destruct (finite_list_none _ H) as (x & Hx & Hfin).
  apply in_map_iff in Hx. destruct Hx as (e & <- & He).
  apply (accumulated_particle_info_nonpositive _ g e He).
  destruct (Rle_dec e 0) as [Hle|Hgt]; [exact Hle|].
  exfalso. unfold np_log10 in Hfin.
  rewrite (proj2 (Rltb_true 0 e)) in Hfin by lra.
  apply (Hfin (Rpower 10 (a * log10 e + b))). reflexivity.
Qed.

(** ** Cell coordinates

    For a cell index that is not negative on a grid of positive ghost
    dimensions, the intermediate products of [cell_coords] stay between 0
    and the cell index, and the coordinates flatten back to the index. *)
Lemma cell_coords_range (v0 : v0header.t) (icell : Z) :
  let nx := (v0header.nx v0 + 2)%Z in
  let ny := (v0header.ny v0 + 2)%Z in
  (0 < nx)%Z -> (0 < ny)%Z -> (0 <= icell)%Z ->
  let '(ix, iy, iz) := cell_coords v0 icell in
  (0 <= iz * nx * ny <= icell)%Z /\
  (0 <= iy * nx <= icell - iz * nx * ny)%Z /\
  (0 <= ix < nx)%Z /\ (0 <= iy < ny)%Z /\
  icell = (iz * nx * ny + iy * nx + ix)%Z.
Proof.
  intros nx ny Hnx Hny Hicell. unfold cell_coords. fold nx ny.
  assert (Hnxy : (0 < nx * ny)%Z) by nia.
  pose proof (Z.div_mod icell (nx * ny) ltac:(lia)) as Hdm.
  pose proof (Z.mod_pos_bound icell (nx * ny) Hnxy) as Hmb.
  set (iz := (icell / (nx * ny))%Z) in *.
  assert (Hr : (icell - iz * nx * ny = icell mod (nx * ny))%Z) by nia.
  rewrite !Hr.
  set (r := (icell mod (nx * ny))%Z) in *.
  pose proof (Z.div_mod r nx ltac:(lia)) as Hdm2.
  pose proof (Z.mod_pos_bound r nx Hnx) as Hmb2.
  assert (Hiy : (0 <= r / nx)%Z) by (apply Z.div_pos; lia).
  assert (Hiy2 : (r / nx < ny)%Z)
    by (apply Z.div_lt_upper_bound; [lia | nia]).
  assert (Hiz : (0 <= iz)%Z) by (apply Z.div_pos; lia).
  repeat split; try nia.
Qed.

(** * Further properties *)

(** ** Accumulated particle number and energy *)

(** X1: [accumulated_particle_info] raises [ValueError] when the energy
    array is empty or holds an energy that is not positive, whatever the
    flux array is. *)
Theorem accumulated_particle_info_domain_error (ene f : list R) :
  ene = [] \/ (exists e, In e ene /\ e <= 0) ->
  accumulated_particle_info ene f = Raise ValueError.
Proof.
  intros [->|(e & Hin & He)].
  - reflexivity.
  - apply (accumulated_particle_info_nonpositive ene f e Hin He).
Qed.

Lemma accumulated_particle_info_domain_error_witness :
  accumulated_particle_info [1; 0] [2; 3] = Raise ValueError.
Proof.
  apply (accumulated_particle_info_domain_error [1; 0] [2; 3]).
  right. exists 0. split; [cbn; auto | lra].
Defined.

(** The loop stops with [IndexError] at the first bin that the energy
    array does not have. *)
Lemma accumulate_loop_short (ene f : list R) (cnt : nat) :
  forall (start : nat) (nacc eacc : list R),
    length nacc = length f -> length eacc = length f ->
    (1 <= start <= length ene)%nat ->
    (length ene < start + cnt)%nat -> (start + cnt <= length f)%nat ->
    foldM (accumulate_step ene f) (seq start cnt) (nacc, eacc)
      = Raise IndexError.
Proof.
  induction cnt as [|cnt IH]; intros start nacc eacc Hn He Hs Hlt Hb; [lia|].
  cbn [seq foldM]. unfold accumulate_step at 1.
  rewrite (get_nth f _ 0) by lia. cbn [bind].
  destruct (Nat.eq_dec start (length ene)) as [E|E].
  - rewrite (get_out ene start) by lia. reflexivity.
  - rewrite (get_nth ene _ 0) by lia.
    rewrite (get_nth ene _ 0) by lia.
    rewrite (get_nth nacc _ 0) by lia. cbn [bind].
    rewrite (get_nth _ _ 0) by (rewrite set_item_length; lia).
    rewrite (get_nth _ _ 0) by (rewrite set_item_length; lia).
    cbn [bind]. apply IH; rewrite ?set_item_length; lia.
Qed.

(** X2: with positive energies, an energy array that is not empty and is
    shorter than the flux array makes [accumulated_particle_info] fail with
    [IndexError]; an empty flux array makes it fail with
    [ZeroDivisionError]. *)
Theorem accumulated_particle_info_length_error (ene f : list R) :
  Forall (fun e => 0 < e) ene -> (0 < length ene)%nat ->
  ((length ene < length f)%nat ->
   accumulated_particle_info ene f = Raise IndexError) /\
  (f = [] -> accumulated_particle_info ene f = Raise ZeroDivisionError).
Proof.
  intros Hene Hpos.
  assert (Hne : ene <> []) by (destruct ene; cbn in *; [lia | congruence]).
  destruct (py_max_spec ene Hne) as (emax & Hmax & Hmaxin & _).
  destruct (py_min_spec ene Hne) as (emin & Hmin & Hminin & _).
  assert (Hemax : 0 < emax) by (rewrite Forall_forall in Hene; auto).
  assert (Hemin : 0 < emin) by (rewrite Forall_forall in Hene; auto).
  split.
  - intros Hlt. unfold accumulated_particle_info.
    rewrite Hmax, Hmin. cbn [bind]. unfold math_log10.
    rewrite (proj2 (Rltb_true 0 emax) Hemax), (proj2 (Rltb_true 0 emin) Hemin).
    cbn [bind].
    destruct (Nat.eqb_spec (length f) 0) as [E|_]; [lia|]. cbn [bind].
    rewrite (get_nth f _ 0) by lia. rewrite (get_nth ene _ 0) by lia.
    cbn [bind].
    rewrite (accumulate_loop_short ene f (length f - 1) 1);
      rewrite ?set_item_length, ?repeat_length; try lia.
    reflexivity.
  - intros ->. unfold accumulated_particle_info.
    rewrite Hmax, Hmin. cbn [bind]. unfold math_log10.
    rewrite (proj2 (Rltb_true 0 emax) Hemax), (proj2 (Rltb_true 0 emin) Hemin).
    reflexivity.
Qed.

Lemma accumulated_particle_info_length_error_witness :
  accumulated_particle_info [1; 10] [2; 3; 4] = Raise IndexError /\
  accumulated_particle_info [1; 10] [] = Raise ZeroDivisionError.
Proof.
  assert (H : Forall (fun e => 0 < e) [1; 10]) by (repeat constructor; lra).
  destruct (accumulated_particle_info_length_error [1; 10] [2; 3; 4] H)
    as [H1 _]; [cbn; lia|].
  destruct (accumulated_particle_info_length_error [1; 10] [] H)
    as [_ H2]; [cbn; lia|].
  split; [apply H1; cbn; lia | apply H2; reflexivity].
Defined.

Lemma map_scale_zero (l : list R) :
  map (fun x => x * 0) l = repeat 0 (length l).
Proof.
  induction l as [|x t IH]; cbn [map length repeat]; [reflexivity|].
  rewrite IH. f_equal. lra.
Qed.

(** X3: when all the energies are one positive number, in particular for a
    single bin, [dlogE] is zero and both accumulated arrays hold zeros
    only, whatever the flux is. *)
Theorem accumulated_particle_info_equal_energies (ene f : list R) (c : R) :
  length ene = length f -> (0 < length f)%nat -> 0 < c ->
  Forall (fun e => e = c) ene ->
  accumulated_particle_info ene f =
    Ok (repeat 0 (length f), repeat 0 (length f)).
Proof.
  intros Hlen Hpos Hc Hall.
  assert (Hene : Forall (fun e => 0 < e) ene).
  { revert Hall. apply Forall_impl. intros e ->. exact Hc. }
  destruct (accumulated_particle_info_ok ene f Hlen Hpos Hene)
    as (emax & emin & nacc & eacc & [Hmaxin _] & [Hminin _] & Hinv & Hrun).
  rewrite Forall_forall in Hall.
  rewrite (Hall emax Hmaxin), (Hall emin Hminin) in Hrun.
  rewrite Hrun.
  destruct Hinv as (Hn & He & _).
  replace ((log10 c - log10 c) / INR (length f)) with 0
    by (unfold Rdiv; ring).
  rewrite !map_scale_zero, Hn, He. reflexivity.
Qed.

Lemma accumulated_particle_info_equal_energies_witness :
  accumulated_particle_info [2] [7] = Ok (repeat 0 1, repeat 0 1).
Proof.
  apply (accumulated_particle_info_equal_energies [2] [7] 2).
  - reflexivity.
  - cbn; lia.
  - lra.
  - repeat constructor.
Defined.

(** Before the scaling, a constant flux [c] accumulates the energy
    [c * ene[i]^2 / 2] up to the bin [i]. *)
Lemma accumulated_upto_constant_flux (ene f nacc eacc : list R) (c : R) :
  Forall (fun x => x = c) f ->
  accumulated_upto ene f (length f) nacc eacc ->
  forall i, (i < length f)%nat -> nth i eacc 0 = 0.5 * c * nth i ene 0 ^ 2.
Proof.
  intros Hf (_ & _ & _ & He0 & Hrec).
  assert (Hfi : forall i, (i < length f)%nat -> nth i f 0 = c).
  { intros i Hi. rewrite Forall_forall in Hf. apply Hf. apply nth_In.
    exact Hi. }
  induction i as [|i IH]; intros Hi.
  - rewrite He0, Hfi by exact Hi. reflexivity.
  - destruct (Hrec (S i)) as [_ He]; [lia|].
    replace (S i - 1)%nat with i in He by lia.
    rewrite He, IH, Hfi by lia. ring.
Qed.

(** X4: for a constant flux [c] the accumulated particle energy has a
    closed form: at every bin [i] it is [c * ene[i]^2 / 2], times
    [dlogE = (log10(max(ene)) - log10(min(ene))) / n]. *)
Theorem accumulated_energy_constant_flux (ene f : list R) (c : R) :
  length ene = length f -> (0 < length f)%nat ->
  Forall (fun e => 0 < e) ene ->
  Forall (fun x => x = c) f ->
  exists emax emin nacc eacc,
    accumulated_particle_info ene f = Ok (nacc, eacc) /\
    (In emax ene /\ forall y, In y ene -> y <= emax) /\
    (In emin ene /\ forall y, In y ene -> emin <= y) /\
    forall i, (i < length f)%nat ->
      nth i eacc 0 =
        c * nth i ene 0 ^ 2 / 2
        * ((log10 emax - log10 emin) / INR (length f)).
Proof.
  intros Hlen Hpos Hene Hf.
  destruct (accumulated_particle_info_ok ene f Hlen Hpos Hene)
    as (emax & emin & nacc & eacc & Hmax & Hmin & Hinv & Hrun).
  exists emax, emin. do 2 eexists.
  split; [exact Hrun|]. split; [exact Hmax|]. split; [exact Hmin|].
  intros i Hi. rewrite nth_map_scale.
  rewrite (accumulated_upto_constant_flux ene f nacc eacc c Hf Hinv i Hi).
  generalize ((log10 emax - log10 emin) / INR (length f)). intros d.
  replace 0.5 with (/ 2) by lra. field.
Qed.

Lemma accumulated_energy_constant_flux_witness :
  exists emax emin nacc eacc,
    accumulated_particle_info [1; 10; 100] [3; 3; 3] = Ok (nacc, eacc) /\
    (In emax [1; 10; 100] /\ forall y, In y [1; 10; 100] -> y <= emax) /\
    (In emin [1; 10; 100] /\ forall y, In y [1; 10; 100] -> emin <= y) /\
    forall i, (i < 3)%nat ->
      nth i eacc 0 =
        3 * nth i [1; 10; 100] 0 ^ 2 / 2
        * ((log10 emax - log10 emin) / INR 3).
Proof.
  apply (accumulated_energy_constant_flux [1; 10; 100] [3; 3; 3] 3).
  - reflexivity.
  - cbn; lia.
  - repeat constructor; lra.
  - repeat constructor.
Defined.

(** ** Thermal and total particle number and energy *)

Lemma py_index_last (l : list R) :
  (0 < length l)%nat -> py_index l (-1) = Ok (nth (length l - 1) l 0).
Proof.
  intros Hl. unfold py_index.
  destruct (Z.leb_spec 0 (-1)) as [E|_]; [lia|].
  destruct (Z.leb_spec 0 (-1 + Z.of_nat (length l))) as [_|E]; [|lia].
  replace (Z.to_nat (-1 + Z.of_nat (length l))) with (length l - 1)%nat by lia.
  apply get_nth. lia.
Qed.

(** Before the scaling, both arrays grow with the flux. *)
Lemma accumulated_upto_flux_le (ene f g nf ef ng eg : list R) :
  length ene = length f -> length f = length g ->
  Forall (fun e => 0 < e) ene ->
  (forall i, (S i < length ene)%nat -> nth i ene 0 <= nth (S i) ene 0) ->
  (forall i, (i < length f)%nat -> nth i f 0 <= nth i g 0) ->
  accumulated_upto ene f (length f) nf ef ->
  accumulated_upto ene g (length g) ng eg ->
  forall i, (i < length f)%nat ->
    nth i nf 0 <= nth i ng 0 /\ nth i ef 0 <= nth i eg 0.
Proof.
  intros Hlen Hfg Hene Hinc Hle (_ & _ & Hnf0 & Hef0 & Hrf)
         (_ & _ & Hng0 & Heg0 & Hrg).
  induction i as [|i IH]; intros Hi.
  - rewrite Hnf0, Hef0, Hng0, Heg0.
    assert (He0 : 0 < nth 0 ene 0) by (apply Forall_pos_nth; auto; lia).
    specialize (Hle 0%nat Hi). split; nra.
  - destruct (Hrf (S i)) as [Hn1 He1]; [lia|].
    destruct (Hrg (S i)) as [Hn2 He2]; [lia|].
    replace (S i - 1)%nat with i in * by lia.
    destruct IH as [IHn IHe]; [lia|].
    assert (Hei : 0 < nth i ene 0) by (apply Forall_pos_nth; auto; lia).
    assert (Hes : 0 < nth (S i) ene 0) by (apply Forall_pos_nth; auto; lia).
    assert (Hd : nth i ene 0 <= nth (S i) ene 0) by (apply Hinc; lia).
    specialize (Hle (S i) Hi).
    rewrite Hn1, He1, Hn2, He2. split.
    + assert (nth (S i) f 0 * (nth (S i) ene 0 + nth i ene 0)
              <= nth (S i) g 0 * (nth (S i) ene 0 + nth i ene 0)) by nra.
      lra.
    + assert (0 <= (nth (S i) ene 0 - nth i ene 0)
                   * (nth (S i) ene 0 + nth i ene 0)) by nra.
      assert (nth (S i) f 0 * ((nth (S i) ene 0 - nth i ene 0)
                               * (nth (S i) ene 0 + nth i ene 0))
              <= nth (S i) g 0 * ((nth (S i) ene 0 - nth i ene 0)
                               * (nth (S i) ene 0 + nth i ene 0))) by nra.
      lra.
Qed.

(** X5: for positive, increasing energies, a thermal part that lies below
    the flux at every bin and a normalization [fnorm >= 0],
    [get_thermal_total] returns a thermal particle number and a thermal
    energy that do not exceed the total ones. *)
Theorem get_thermal_total_bounded (ene f fthermal : list R) (fnorm : R) :
  length ene = length f -> length fthermal = length f ->
  (0 < length f)%nat ->
  Forall (fun e => 0 < e) ene ->
  (forall i, (S i < length ene)%nat -> nth i ene 0 <= nth (S i) ene 0) ->
  (forall i, (i < length f)%nat -> nth i fthermal 0 <= nth i f 0) ->
  0 <= fnorm ->
  exists nthermal ntot ethermal etot,
    get_thermal_total ene f fthermal fnorm
      = Ok (nthermal, ntot, ethermal, etot) /\
    nthermal <= ntot /\ ethermal <= etot.
Proof.
  intros Hlen Hth Hpos Hene Hinc Hle Hnorm.
  destruct (accumulated_particle_info_ok ene f Hlen Hpos Hene)
    as (emax & emin & nacc & eacc & [Hmaxin Hmax] & [Hminin Hmin] & Hinv
        & Hrun).
  assert (Hlen' : length ene = length fthermal) by lia.
  assert (Hpos' : (0 < length fthermal)%nat) by lia.
  destruct (accumulated_particle_info_ok ene fthermal Hlen' Hpos' Hene)
    as (emax' & emin' & nacc' & eacc' & [Hmaxin' Hmax'] & [Hminin' Hmin']
        & Hinv' & Hrun').
  assert (Emax : emax' = emax)
    by (apply Rle_antisym; [apply Hmax | apply Hmax']; assumption).
  assert (Emin : emin' = emin)
    by (apply Rle_antisym; [apply Hmin' | apply Hmin]; assumption).
  subst emax' emin'. rewrite Hth in Hrun'.
  set (d := (log10 emax - log10 emin) / INR (length f)) in *.
  assert (Hd : 0 <= d).
  { assert (0 < INR (length f)) by (apply lt_0_INR; exact Hpos).
    assert (log10 emin <= log10 emax).
    { apply log10_le; [|apply Hmax; exact Hminin].
      rewrite Forall_forall in Hene. apply Hene. exact Hminin. }
    unfold d. apply Rmult_le_pos; [lra|].
    left. apply Rinv_0_lt_compat. assumption. }
  pose proof Hinv as (Hn & He & _). pose proof Hinv' as (Hn' & He' & _).
  unfold get_thermal_total. rewrite Hrun, Hrun'. cbn [bind].
  rewrite !py_index_last by (rewrite length_map; lia). cbn [bind].
  do 4 eexists. split; [reflexivity|].
  rewrite !length_map, !nth_map_scale, Hn, He, Hn', He'.
  rewrite !Hth.
  assert (Hlast : (length f - 1 < length fthermal)%nat) by lia.
  assert (Hle' : forall i, (i < length fthermal)%nat ->
                           nth i fthermal 0 <= nth i f 0)
    by (intros i Hi; apply Hle; lia).
  assert (Hinvf : accumulated_upto ene f (length f) nacc eacc) by exact Hinv.
  destruct (accumulated_upto_flux_le ene fthermal f nacc' eacc' nacc eacc
              Hlen' Hth Hene Hinc Hle' Hinv' Hinvf (length f - 1)%nat Hlast)
    as [H1 H2].
  split; apply Rmult_le_compat_r; try assumption;
    apply Rmult_le_compat_r; assumption.
Qed.

Lemma get_thermal_total_bounded_witness :
  exists nthermal ntot ethermal etot,
    get_thermal_total [1; 10] [4; 2] [3; 1] 5
      = Ok (nthermal, ntot, ethermal, etot) /\
    nthermal <= ntot /\ ethermal <= etot.
Proof.
  apply (get_thermal_total_bounded [1; 10] [4; 2] [3; 1] 5).
  - reflexivity.
  - reflexivity.
  - cbn; lia.
  - repeat constructor; lra.
  - intros [|[|i]] Hi; cbn in *; try lra; lia.
  - intros [|[|i]] Hi; cbn in *; try lra; lia.
  - lra.
Defined.

(** ** Power-law fits *)

Lemma Rpower_line (a b e : R) :
  0 < e -> Rpower 10 (a * log10 e + b) = Rpower 10 b * Rpower e a.
Proof.
  intros He. unfold Rpower, log10.
  assert (H10 : ln 10 <> 0).
  { assert (0 < ln 10) by (rewrite <- ln_1; apply ln_increasing; lra). lra. }
  rewrite <- exp_plus. f_equal. field. exact H10.
Qed.

(** The fitted curve at a positive energy. *)
Lemma power_curve_positive (a b e : R) :
  0 < e ->
  np_power10 (func_line (np_log10 e) a b) = Fin (Rpower 10 b * Rpower e a).
Proof.
  intros He. unfold np_log10.
  rewrite (proj2 (Rltb_true 0 e) He). cbn [func_line np_power10].
  rewrite (Rpower_line a b e He). reflexivity.
Qed.

Lemma finite_list_map_Fin {A : Type} (g : A -> R) (l : list A) :
  finite_list (map (fun x => Fin (g x)) l) = Some (map g l).
Proof.
  induction l as [|x t IH]; cbn [map finite_list]; [reflexivity|].
  rewrite IH. reflexivity.
Qed.

Lemma py_slice_inside {A : Type} (a : list A) (lo hi : Z) :
  (0 <= lo)%Z -> (lo <= hi)%Z -> (hi <= Z.of_nat (length a))%Z ->
  py_slice a lo hi =
    firstn (Z.to_nat hi - Z.to_nat lo) (skipn (Z.to_nat lo) a).
Proof.
  intros Hlo Hle Hhi. unfold py_slice, slice_bound.
  destruct (Z.ltb_spec lo 0) as [E|_]; [lia|].
  destruct (Z.ltb_spec hi 0) as [E|_]; [lia|].
  rewrite !Z.max_r by lia. rewrite !Z.min_l by lia. reflexivity.
Qed.

Lemma length_py_slice_inside {A : Type} (a : list A) (lo hi : Z) :
  (0 <= lo)%Z -> (lo <= hi)%Z -> (hi <= Z.of_nat (length a))%Z ->
  length (py_slice a lo hi) = (Z.to_nat hi - Z.to_nat lo)%nat.
Proof.
  intros Hlo Hle Hhi. rewrite py_slice_inside by assumption.
  rewrite length_firstn, length_skipn. lia.
Qed.

Lemma Forall_py_slice {A : Type} (P : A -> Prop) (a : list A) (lo hi : Z) :
  Forall P a -> Forall P (py_slice a lo hi).
Proof.
  intros H. unfold py_slice.
  apply (Forall_firstn_skipn P _ _).
  apply (Forall_firstn_skipn P _ _ H).
Qed.

Lemma py_index_inside {A : Type} (a : list A) (i : Z) (d : A) :
  (0 <= i)%Z -> (i < Z.of_nat (length a))%Z ->
  py_index a i = Ok (nth (Z.to_nat i) a d).
Proof.
  intros H0 Hi. rewrite <- (Z2Nat.id i H0) at 1.
  apply py_index_nat. lia.
Qed.

(** An index that [py_index] accepts lies in [-len, len). *)
Lemma py_index_ok_range {A : Type} (a : list A) (i : Z) (x : A) :
  py_index a i = Ok x ->
  (- Z.of_nat (length a) <= i < Z.of_nat (length a))%Z.
Proof.
  unfold py_index. intros H.
  destruct (Z.leb_spec 0 i) as [H0|H0].
  - destruct (Z.lt_ge_cases i (Z.of_nat (length a))) as [Hlt|Hge]; [lia|].
    rewrite get_out in H by lia. discriminate.
  - destruct (Z.leb_spec 0 (i + Z.of_nat (length a))); [lia | discriminate].
Qed.

(** The two accumulated arrays, when the call returns, have the length of
    the flux array. *)
Lemma accumulated_particle_info_returns (ene f : list R) :
  length ene = length f -> (0 < length f)%nat ->
  Forall (fun e => 0 < e) ene ->
  exists nacc eacc,
    accumulated_particle_info ene f = Ok (nacc, eacc) /\
    length nacc = length f /\ length eacc = length f.
Proof.
  intros Hlen Hpos Hene.
  destruct (accumulated_particle_info_ok ene f Hlen Hpos Hene)
    as (emax & emin & nacc & eacc & _ & _ & (Hn & He & _) & Hrun).
  do 2 eexists. split; [exact Hrun|].
  rewrite !length_map. split; assumption.
Qed.

(** X6: when the energies are positive, the window
    [argmax(f) + offset, argmax(f) + offset + extend) is not empty and ends
    before the last bin, and the fit returns [popt = (a, b)],
    [power_law_fit] returns: the fitted curve is the power law
    [10^b * E^a] at every bin, and the window and the parameters are
    reported unchanged. *)
Theorem power_law_fit_returns
    (curve_fit : forall X : Type,
        (X -> R -> R -> X) -> list X -> list X -> res (R * R))
    (ene f : list R) (offset extend : Z) (imax : nat) (popt : R * R) :
  length ene = length f ->
  Forall (fun e => 0 < e) ene ->
  np_argmax f = Ok imax ->
  let estart := (Z.of_nat imax + offset)%Z in
  let eend := (estart + extend)%Z in
  (0 <= estart)%Z -> (estart < eend)%Z ->
  (eend < Z.of_nat (length ene))%Z ->
  curve_fit xfloat func_line
    (map np_log10 (py_slice ene estart eend))
    (map np_log10 (py_slice f estart eend)) = Ok popt ->
  exists r,
    power_law_fit curve_fit ene f offset extend = Ok r /\
    es r = estart /\ ee r = eend /\ params r = popt /\
    fpower r =
      map (fun e => Fin (Rpower 10 (snd popt) * Rpower e (fst popt))) ene.
Proof.
  intros Hlen Hene Hmax estart eend Hs Hse He Hfit.
  assert (Hcurve :
    map np_power10
      (map (fun e => func_line (np_log10 e) (fst popt) (snd popt)) ene)
    = map (fun e => Fin (Rpower 10 (snd popt) * Rpower e (fst popt))) ene).
  { rewrite map_map. apply map_ext_in. intros e Hin.
    apply power_curve_positive.
    rewrite Forall_forall in Hene. apply Hene. exact Hin. }
  assert (Hwlen : length (py_slice ene estart eend)
                  = (Z.to_nat eend - Z.to_nat estart)%nat)
    by (apply length_py_slice_inside; lia).
  destruct (accumulated_particle_info_returns (py_slice ene estart eend)
              (map (fun e => Rpower 10 (snd popt) * Rpower e (fst popt))
                   (py_slice ene estart eend)))
    as (npower & epower & Hrun1 & Hn1 & He1).
  { rewrite length_map. reflexivity. }
  { rewrite length_map, Hwlen. lia. }
  { apply Forall_py_slice. exact Hene. }
  rewrite length_map, Hwlen in Hn1, He1.
  destruct (accumulated_particle_info_returns ene f Hlen)
    as (ntot & etot & Hrun2 & Hn2 & He2); [lia | exact Hene |].
  unfold power_law_fit. rewrite Hmax. cbn [bind].
  fold estart eend. rewrite Hfit. cbn [bind].
  rewrite (py_index_inside ene estart 0) by lia.
  rewrite (py_index_inside ene eend 0) by lia. cbn [bind].
  rewrite Hcurve, py_slice_map, finite_list_map_Fin, Hrun1, Hrun2.
  cbn [bind].
  rewrite !py_index_last by lia. cbn [bind].
  eexists. split; [reflexivity|]. repeat split.
Qed.

Lemma np_argmax_first_sample : np_argmax [1000; 100; 10; 1; 0.1] = Ok 0%nat.
Proof. unfold np_argmax, argmax_from. Rltb_eval. reflexivity. Qed.

Lemma power_law_fit_returns_witness :
  exists r,
    power_law_fit sample_curve_fit [1; 10; 100; 1000; 10000]
      [1000; 100; 10; 1; 0.1] 1 2 = Ok r /\
    es r = (Z.of_nat 0 + 1)%Z /\ ee r = (Z.of_nat 0 + 1 + 2)%Z /\
    params r = (-1, 3) /\
    fpower r =
      map (fun e => Fin (Rpower 10 (snd (-1, 3)) * Rpower e (fst (-1, 3))))
          [1; 10; 100; 1000; 10000].
Proof.
  apply (power_law_fit_returns sample_curve_fit [1; 10; 100; 1000; 10000]
           [1000; 100; 10; 1; 0.1] 1 2 0 (-1, 3)).
  - reflexivity.
  - repeat constructor; lra.
  - apply np_argmax_first_sample.
  - cbn; lia.
  - cbn; lia.
  - cbn; lia.
  - reflexivity.
Defined.


(** X7: [fit_powerlaw_whole] is [power_law_fit] with the offset 50 and the
    window length 90 for the species ['e'] and 130 for any other one: same
    exceptions, same window, parameters, curve and fractions. *)
Theorem fit_powerlaw_whole_as_power_law_fit
    (curve_fit : forall X : Type,
        (X -> R -> R -> X) -> list X -> list X -> res (R * R))
    (ene f : list R) (species : string) :
  fit_powerlaw_whole curve_fit ene f species =
    (r <- power_law_fit curve_fit ene f 50
            (if String.eqb species "e" then 90 else 130) ;;
     Ok (fpower r, es r, ee r, params r, nfraction r, efraction r)).
Proof.
  unfold fit_powerlaw_whole, power_law_fit.
  destruct (np_argmax f) as [imax|e]; cbn [bind]; [|reflexivity].
  destruct (curve_fit xfloat func_line _ _) as [popt|e]; cbn [bind];
    [|reflexivity].
  destruct (py_index ene (Z.of_nat imax + 50)) as [e0|e]; cbn [bind];
    [|reflexivity].
  destruct (py_index ene _) as [e1|e]; cbn [bind]; [|reflexivity].
  match goal with
  | |- context [match finite_list ?w with _ => _ end] =>
      destruct (finite_list w) as [fw|]
  end; cbn [bind]; [|reflexivity].
  destruct (accumulated_particle_info _ fw) as [[npower epower]|e];
    cbn [bind]; [|reflexivity].
  destruct (accumulated_particle_info ene f) as [[ntot etot]|e];
    cbn [bind]; [|reflexivity].
  destruct (py_index npower (-1)) as [x1|e]; cbn [bind]; [|reflexivity].
  destruct (py_index ntot (-1)) as [x2|e]; cbn [bind]; [|reflexivity].
  destruct (py_index epower (-1)) as [x3|e]; cbn [bind]; [|reflexivity].
  destruct (py_index etot (-1)) as [x4|e]; cbn [bind]; reflexivity.
Qed.

(** X8: on an energy array of at most 140 bins for the species ['e'], of at
    most 180 bins for any other one, [fit_powerlaw_whole] never returns:
    the index of the end of its window is past the last bin.  When the flux
    array is not empty and the fit returns, the exception is the
    [IndexError] of [ene[eend]]. *)
Theorem fit_powerlaw_whole_short_array
    (curve_fit : forall X : Type,
        (X -> R -> R -> X) -> list X -> list X -> res (R * R))
    (ene f : list R) (species : string) :
  (Z.of_nat (length ene)
     <= 50 + (if String.eqb species "e" then 90 else 130))%Z ->
  (exists e, fit_powerlaw_whole curve_fit ene f species = Raise e) /\
  (forall imax popt,
     np_argmax f = Ok imax ->
     curve_fit xfloat func_line
       (map np_log10
          (py_slice ene (Z.of_nat imax + 50)
             (Z.of_nat imax + 50
                + (if String.eqb species "e" then 90 else 130))))
       (map np_log10
          (py_slice f (Z.of_nat imax + 50)
             (Z.of_nat imax + 50
                + (if String.eqb species "e" then 90 else 130)))) = Ok popt ->
     fit_powerlaw_whole curve_fit ene f species = Raise IndexError).
Proof.
  intros Hlen.
  assert (Hidx : forall imax popt,
     np_argmax f = Ok imax ->
     curve_fit xfloat func_line
       (map np_log10
          (py_slice ene (Z.of_nat imax + 50)
             (Z.of_nat imax + 50
                + (if String.eqb species "e" then 90 else 130))))
       (map np_log10
          (py_slice f (Z.of_nat imax + 50)
             (Z.of_nat imax + 50
                + (if String.eqb species "e" then 90 else 130)))) = Ok popt ->
     fit_powerlaw_whole curve_fit ene f species = Raise IndexError).
  { intros imax popt Hmax Hfit. unfold fit_powerlaw_whole.
    rewrite Hmax. cbn [bind]. rewrite Hfit. cbn [bind].
    destruct (py_index ene (Z.of_nat imax + 50)) as [e0|e] eqn:E0;
      cbn [bind].
    - rewrite py_index_past_end by lia. reflexivity.
    - rewrite (py_index_raise _ _ _ E0). reflexivity. }
  split; [|exact Hidx].
  destruct (np_argmax f) as [imax|e] eqn:Hmax.
  - destruct (curve_fit xfloat func_line
       (map np_log10
          (py_slice ene (Z.of_nat imax + 50)
             (Z.of_nat imax + 50
                + (if String.eqb species "e" then 90 else 130))))
       (map np_log10
          (py_slice f (Z.of_nat imax + 50)
             (Z.of_nat imax + 50
                + (if String.eqb species "e" then 90 else 130)))))
      as [popt|e] eqn:Hfit.
    + exists IndexError. apply (Hidx imax popt eq_refl Hfit).
    + exists e. unfold fit_powerlaw_whole. rewrite Hmax. cbn [bind].
      rewrite Hfit. reflexivity.
  - exists e. unfold fit_powerlaw_whole. rewrite Hmax. reflexivity.
Qed.

Lemma fit_powerlaw_whole_short_array_witness :
  (exists e,
     fit_powerlaw_whole sample_curve_fit [1; 10; 100; 1000; 10000]
       [1000; 100; 10; 1; 0.1] "h" = Raise e) /\
  (forall imax popt,
     np_argmax [1000; 100; 10; 1; 0.1] = Ok imax ->
     sample_curve_fit xfloat func_line
       (map np_log10
          (py_slice [1; 10; 100; 1000; 10000] (Z.of_nat imax + 50)
             (Z.of_nat imax + 50
                + (if String.eqb "h" "e" then 90 else 130))))
       (map np_log10
          (py_slice [1000; 100; 10; 1; 0.1] (Z.of_nat imax + 50)
             (Z.of_nat imax + 50
                + (if String.eqb "h" "e" then 90 else 130)))) = Ok popt ->
     fit_powerlaw_whole sample_curve_fit [1; 10; 100; 1000; 10000]
       [1000; 100; 10; 1; 0.1] "h" = Raise IndexError).
Proof.
  apply (fit_powerlaw_whole_short_array sample_curve_fit
           [1; 10; 100; 1000; 10000] [1000; 100; 10; 1; 0.1] "h").
  cbn. lia.
Defined.

(** ** The non-thermal part *)

Lemma np_broadcast_same {A B C : Type} (op : A -> B -> C) (da : A)
    (db : B) (a : list A) (b : list B) :
  length a = length b ->
  np_broadcast op da db a b
    = Ok (map (fun p => op (fst p) (snd p)) (combine a b)).
Proof.
  intros H. unfold np_broadcast. rewrite (proj2 (Nat.eqb_eq _ _) H).
  reflexivity.
Qed.

Lemma np_argmax_range (l : list R) (k : nat) :
  np_argmax l = Ok k -> (k < length l)%nat.
Proof.
  intros H. destruct l as [|x t]; [discriminate|].
  destruct (np_argmax_spec (x :: t)) as (k' & Hk' & Hlt & _); [discriminate|].
  rewrite H in Hk'. injection Hk' as <-. exact Hlt.
Qed.


Lemma fit_nonthermal_power_law_sample :
  fit_nonthermal_power_law sample_curve_fit [1; 10; 100; 1000; 10000]
    [1000; 100; 10; 1; 0.1] [0; 0; 0; 0; 0] "e" 1 2
  = Ok (map np_power10
          (map (fun e => func_line (np_log10 e) (-1) 3)
               [1; 10; 100; 1000; 10000]), 1%Z, 3%Z, (-1, 3)).
Proof.
  unfold fit_nonthermal_power_law, np_sub, np_broadcast.
  cbn [length Nat.eqb combine map fst snd bind].
  unfold np_argmax, argmax_from. Rltb_eval. reflexivity.
Qed.



(** ** Thermal parts *)

Lemma argmin_by_spec (t : list R) :
  forall (pre : list R) (best : R) (ibest : nat),
    (ibest < length pre)%nat ->
    nth ibest pre 0 = best ->
    (forall j, (j < length pre)%nat -> best <= nth j pre 0) ->
    (forall j, (j < ibest)%nat -> best < nth j pre 0) ->
    let k := argmin_by Rltb best ibest (length pre) t in
    (k < length (pre ++ t))%nat /\
    (forall j, (j < length (pre ++ t))%nat ->
               nth k (pre ++ t) 0 <= nth j (pre ++ t) 0) /\
    (forall j, (j < k)%nat -> nth k (pre ++ t) 0 < nth j (pre ++ t) 0).
Proof.
  induction t as [|y t IH]; intros pre best ibest Hi Hbest Hlb Hfirst.
  - cbn [argmin_by]. rewrite app_nil_r, Hbest. auto.
  - cbn [argmin_by].
    replace (pre ++ y :: t) with ((pre ++ [y]) ++ t)
      by (rewrite <- app_assoc; reflexivity).
    replace (S (length pre)) with (length (pre ++ [y]))
      by (rewrite length_app; cbn [length]; lia).
    assert (Hy : nth (length pre) (pre ++ [y]) 0 = y).
    { rewrite app_nth2 by lia. rewrite Nat.sub_diag. reflexivity. }
    destruct (Rltb y best) eqn:E.
    + apply Rltb_true in E.
      apply IH.
      * rewrite length_app. cbn [length]. lia.
      * exact Hy.
      * intros j Hj. rewrite length_app in Hj. cbn [length] in Hj.
        destruct (Nat.eq_dec j (length pre)) as [->|Hne].
        -- rewrite Hy. lra.
        -- rewrite app_nth1 by lia.
           assert (best <= nth j pre 0) by (apply Hlb; lia). lra.
      * intros j Hj. rewrite app_nth1 by lia. specialize (Hlb j Hj). lra.
    + apply Rltb_false in E.
      apply IH.
      * rewrite length_app. cbn [length]. lia.
      * rewrite app_nth1 by lia. exact Hbest.
      * intros j Hj. rewrite length_app in Hj. cbn [length] in Hj.
        destruct (Nat.eq_dec j (length pre)) as [->|Hne].
        -- rewrite Hy. exact E.
        -- rewrite app_nth1 by lia. apply Hlb. lia.
      * intros j Hj. rewrite app_nth1 by lia. apply Hfirst. exact Hj.
Qed.

(** [np.argmin] returns the first index of the minimum. *)
Lemma np_argmin_spec (l : list R) (k : nat) :
  np_argmin l = Ok k ->
  (k < length l)%nat /\
  (forall j, (j < length l)%nat -> nth k l 0 <= nth j l 0) /\
  (forall j, (j < k)%nat -> nth k l 0 < nth j l 0).
Proof.
  destruct l as [|x t]; [discriminate|]. intros H.
  injection H as <-.
  apply (argmin_by_spec t [x] x 0%nat).
  - cbn [length]. lia.
  - reflexivity.
  - intros [|j] Hj; cbn [length] in Hj; [cbn; lra | lia].
  - intros j Hj. lia.
Qed.

Lemma np_argmax_first (f : list R) :
  f <> [] ->
  (forall j, (j < length f)%nat -> nth j f 0 <= nth 0 f 0) ->
  np_argmax f = Ok 0%nat.
Proof.
  intros Hne Hmax.
  destruct (np_argmax_spec f Hne) as (k & Hk & Hlt & _ & Hfirst).
  rewrite Hk. f_equal.
  destruct k as [|k]; [reflexivity|].
  specialize (Hfirst 0%nat ltac:(lia)). specialize (Hmax (S k) Hlt). lra.
Qed.

(** X10: when no bin of the flux exceeds the first one (and on an empty
    flux array), [lower_thermal_core] raises [ValueError] before any fit:
    the bins below the maximum, among which it looks for a minimum, are
    none. *)
Theorem lower_thermal_core_maximum_first
    (curve_fit : forall X : Type,
        (X -> R -> R -> X) -> list X -> list X -> res (R * R))
    (func_maxwellian : R -> R -> R -> R) (ene f : list R) :
  (forall j, (j < length f)%nat -> nth j f 0 <= nth 0 f 0) ->
  lower_thermal_core curve_fit func_maxwellian ene f = Raise ValueError.
Proof.
  intros Hmax. unfold lower_thermal_core.
  destruct f as [|x t]; [reflexivity|].
  rewrite (np_argmax_first (x :: t)) by (congruence || exact Hmax).
  reflexivity.
Qed.

Lemma lower_thermal_core_maximum_first_witness :
  lower_thermal_core sample_curve_fit (fun e a b => a) [1; 2; 3] [5; 2; 5]
    = Raise ValueError.
Proof.
  apply (lower_thermal_core_maximum_first sample_curve_fit (fun e a b => a)
           [1; 2; 3] [5; 2; 5]).
  intros [|[|[|j]]] Hj; cbn [nth length] in *; try lra. lia.
Defined.

Lemma iadd_sub_cancel (a b : list R) :
  length a = length b ->
  map (fun p => fst p + snd p)
    (combine b (map (fun p => fst p - snd p) (combine a b))) = a.
Proof.
  revert b. induction a as [|x a IH]; intros [|y b] H; try discriminate.
  - reflexivity.
  - cbn [combine map fst snd]. rewrite IH by (cbn in H; lia).
    f_equal. lra.
Qed.

(** X11: with as many energies as flux bins, let [eend] be the bin of the
    flux maximum and [emin] the bin of the flux minimum below it.  When the
    fit on the bins below [emin] returns, [lower_thermal_core] returns the
    flux itself below [emin] and 0 from [emin] on, whatever the fitted
    parameters and the Maxwellian are (in exact arithmetic); [emin] is
    below [eend]. *)
Theorem lower_thermal_core_result
    (curve_fit : forall X : Type,
        (X -> R -> R -> X) -> list X -> list X -> res (R * R))
    (func_maxwellian : R -> R -> R -> R) (ene f : list R)
    (eend emin : nat) (popt : R * R) :
  length ene = length f ->
  np_argmax f = Ok eend ->
  np_argmin (py_slice f 0 (Z.of_nat eend)) = Ok emin ->
  curve_fit R func_maxwellian
    (py_slice ene 0 (Z.of_nat emin)) (py_slice f 0 (Z.of_nat emin))
    = Ok popt ->
  lower_thermal_core curve_fit func_maxwellian ene f
    = Ok (firstn emin f ++ repeat 0 (length f - emin)) /\
  (emin < eend < length f)%nat.
Proof.
  intros Hlen Hmax Hmin Hfit.
  assert (Hend : (eend < length f)%nat) by (apply np_argmax_range; exact Hmax).
  assert (Hemin : (emin < eend)%nat).
  { apply np_argmin_spec in Hmin. destruct Hmin as (Hlt & _).
    rewrite py_slice_prefix, length_firstn in Hlt. lia. }
  split; [|lia].
  unfold lower_thermal_core. rewrite Hmax. cbn [bind].
  rewrite Hmin. cbn [bind]. rewrite Hfit. cbn [bind].
  set (fth := map (fun e => func_maxwellian e (fst popt) (snd popt)) ene).
  assert (Hfth : length fth = length f)
    by (unfold fth; rewrite length_map; exact Hlen).
  rewrite !py_slice_prefix.
  assert (Hl : length (firstn emin f) = length (firstn emin fth))
    by (rewrite !length_firstn; lia).
  unfold np_sub. rewrite np_broadcast_same by exact Hl. cbn [bind].
  unfold np_iadd.
  rewrite (proj2 (Nat.eqb_eq _ _)). 2:{
    rewrite length_map, length_combine, !length_firstn. lia. }
  cbn [bind]. rewrite (iadd_sub_cancel _ _ Hl).
  rewrite length_firstn, Nat.min_l by lia.
  rewrite length_app, length_firstn, length_skipn, Nat.min_l by lia.
  replace (emin + (length fth - emin))%nat with (length f) by lia.
  rewrite slice_bound_nat, Nat.min_l by lia.
  rewrite firstn_app, length_firstn, Nat.min_l by lia.
  rewrite Nat.sub_diag. cbn [firstn]. rewrite app_nil_r.
  rewrite firstn_firstn, Nat.min_id.
  replace 0.0 with 0 by lra. reflexivity.
Qed.

Lemma np_argmax_dip_sample : np_argmax [3; 2; 1; 4; 2] = Ok 3%nat.
Proof. unfold np_argmax, argmax_from. Rltb_eval. reflexivity. Qed.

Lemma np_argmin_dip_sample : np_argmin [3; 2; 1] = Ok 2%nat.
Proof. unfold np_argmin, argmin_by. Rltb_eval. reflexivity. Qed.

Lemma lower_thermal_core_result_witness :
  lower_thermal_core sample_curve_fit (fun e a b => a * e + b)
    [1; 2; 3; 4; 5] [3; 2; 1; 4; 2]
    = Ok (firstn 2 [3; 2; 1; 4; 2]
          ++ repeat 0 (length [3; 2; 1; 4; 2] - 2)) /\
  (2 < 3 < length [3; 2; 1; 4; 2])%nat.
Proof.
  apply (lower_thermal_core_result sample_curve_fit
           (fun e a b => a * e + b) [1; 2; 3; 4; 5] [3; 2; 1; 4; 2]
           3 2 (-1, 3)).
  - reflexivity.
  - apply np_argmax_dip_sample.
  - apply np_argmin_dip_sample.
  - reflexivity.
Defined.


(** ** The Lorentz factor of the thermal speed *)

Lemma lorentz_gamma_run (fl : R -> R) (vth : R) :
  let w := fl (1.0 - fl (3.0 * fl (vth ^ 2))) in
  0 <= w -> fl (sqrt w) <> 0 ->
  lorentz_gamma fl vth = Ok (fl (1.0 / fl (sqrt w))).
Proof.
  intros w Hw Hs. unfold lorentz_gamma. fold w.
  rewrite (math_sqrt_nonneg w Hw). cbn [bind].
  destruct (Req_EM_T (fl (sqrt w)) 0); [contradiction | reflexivity].
Qed.

Lemma lorentz_gamma_inv (fl : R -> R) (vth g : R) :
  lorentz_gamma fl vth = Ok g ->
  let w := fl (1.0 - fl (3.0 * fl (vth ^ 2))) in
  0 <= w /\ fl (sqrt w) <> 0 /\ g = fl (1.0 / fl (sqrt w)).
Proof.
  intros H w. unfold lorentz_gamma, math_sqrt in H. fold w in H.
  destruct (Rltb w 0) eqn:E; cbn [bind] in H; [discriminate|].
  apply Rltb_false in E.
  destruct (Req_EM_T (fl (sqrt w)) 0) as [|N]; [discriminate|].
  injection H as <-. split; [exact E|]. split; [exact N | reflexivity].
Qed.

(** Up to rounding, the square root is at most 1 and the factor at least 1,
    so that the thermal energy is not negative. *)
Lemma lorentz_gamma_ge_1 (fl : R -> R) (vth : R) :
  rounding fl ->
  let w := fl (1.0 - fl (3.0 * fl (vth ^ 2))) in
  0 <= w -> fl (sqrt w) <> 0 ->
  0 < fl (sqrt w) <= 1 /\
  1 <= fl (1.0 / fl (sqrt w)) /\
  0 <= fl (fl (1.0 / fl (sqrt w)) - 1.0).
Proof.
  intros Hfl w Hw Hs.
  assert (Hw1 : w <= 1).
  { apply Rle_trans with (fl 1); [|rewrite (fl_1 fl Hfl); lra].
    apply (fl_monotone fl _ _ Hfl).
    assert (0 <= fl (3.0 * fl (vth ^ 2))).
    { apply (fl_nonneg fl _ Hfl).
      assert (0 <= fl (vth ^ 2))
        by (apply (fl_nonneg fl _ Hfl), pow2_ge_0).
      lra. }
    lra. }
  assert (Hs0 : 0 <= fl (sqrt w))
    by (apply (fl_nonneg fl _ Hfl), sqrt_pos).
  assert (Hs1 : fl (sqrt w) <= 1).
  { apply Rle_trans with (fl 1); [|rewrite (fl_1 fl Hfl); lra].
    apply (fl_monotone fl _ _ Hfl).
    apply Rle_trans with (sqrt 1); [|rewrite sqrt_1; lra].
    apply sqrt_le_1_alt. exact Hw1. }
  set (s := fl (sqrt w)) in *.
  assert (Hpos : 0 < s) by lra.
  assert (Hinv : 1 <= 1.0 / s).
  { assert (/ 1 <= / s) by (apply Rinv_le_contravar; lra).
    rewrite Rinv_1 in *. unfold Rdiv. lra. }
  assert (Hg : 1 <= fl (1.0 / s)).
  { apply Rle_trans with (fl 1); [rewrite (fl_1 fl Hfl); lra|].
    apply (fl_monotone fl _ _ Hfl). exact Hinv. }
  split; [lra|]. split; [exact Hg|].
  apply (fl_nonneg fl _ Hfl). lra.
Qed.

(** A thermal speed of at most [sqrt (1/8)], about a third of the speed of
    light, is below the limit after rounding too. *)
Lemma lorentz_gamma_slow (fl : R -> R) (vth : R) :
  rounding fl -> vth ^ 2 <= 1 / 8 ->
  let w := fl (1.0 - fl (3.0 * fl (vth ^ 2))) in
  0 <= w /\ fl (sqrt w) <> 0.
Proof.
  intros Hfl Hv w.
  assert (H1 : fl (vth ^ 2) <= 1 / 8).
  { rewrite <- (fl_dyadic fl 1 3 (1 / 8) Hfl) by (try lia; cbn; lra).
    apply (fl_monotone fl _ _ Hfl). exact Hv. }
  assert (H2 : fl (3.0 * fl (vth ^ 2)) <= 3 / 8).
  { rewrite <- (fl_dyadic fl 3 3 (3 / 8) Hfl) by (try lia; cbn; lra).
    apply (fl_monotone fl _ _ Hfl). lra. }
  assert (H3 : 5 / 8 <= w).
  { rewrite <- (fl_dyadic fl 5 3 (5 / 8) Hfl) by (try lia; cbn; lra).
    apply (fl_monotone fl _ _ Hfl). lra. }
  assert (H4 : 1 / 2 <= sqrt w).
  { replace (1 / 2) with (sqrt (1 / 2 * (1 / 2)))
      by (apply sqrt_square; lra).
    apply sqrt_le_1_alt. lra. }
  assert (H5 : 1 / 2 <= fl (sqrt w)).
  { rewrite <- (fl_dyadic fl 1 1 (1 / 2) Hfl) by (try lia; cbn; lra).
    apply (fl_monotone fl _ _ Hfl). exact H4. }
  split; lra.
Qed.

Lemma fl_div_nonzero (fl : R -> R) (x y : R) :
  y <> 0 -> fl_div fl x y = Fin (fl (x / y)).
Proof. intros Hy. unfold fl_div. rewrite np_div_nonzero by exact Hy. reflexivity. Qed.

Lemma fl_div_zero (fl : R -> R) (x : R) :
  fl_div fl x 0 = if Rltb 0 x then PInf else if Rltb x 0 then NInf else NaN.
Proof.
  unfold fl_div, np_div.
  destruct (Req_EM_T 0 0) as [_|C]; [|contradiction].
  destruct (Rltb 0 x); [reflexivity|]. destruct (Rltb x 0); reflexivity.
Qed.

Lemma sqrt_quarter : sqrt (1.0 - 3.0 * 0.5 ^ 2) = 0.5.
Proof. replace (1.0 - 3.0 * 0.5 ^ 2) with (0.5 * 0.5) by lra. apply sqrt_square. lra. Qed.

(** ** The background thermal core *)

Lemma argmin_by_Fin (t : list R) :
  forall (x : R) (ibest i : nat),
    argmin_by xltb (Fin x) ibest i (map Fin t) = argmin_by Rltb x ibest i t.
Proof.
  induction t as [|y t IH]; intros x ibest i; cbn [map argmin_by xltb];
    [reflexivity|].
  destruct (Rltb y x); apply IH.
Qed.

Lemma find_index_nan_Fin (l : list R) : find_index is_nan (map Fin l) = None.
Proof.
  induction l as [|x t IH]; cbn [map find_index is_nan]; [reflexivity|].
  rewrite IH. reflexivity.
Qed.

Lemma np_argmin_x_Fin (l : list R) : np_argmin_x (map Fin l) = np_argmin l.
Proof.
  destruct l as [|x t]; [reflexivity|].
  unfold np_argmin_x, np_argmin.
  rewrite (find_index_nan_Fin (x :: t)). cbn [map].
  rewrite argmin_by_Fin. reflexivity.
Qed.

Lemma np_nanargmin_Fin (l : list R) : np_nanargmin (map Fin l) = np_argmin l.
Proof.
  destruct l as [|x t]; [reflexivity|].
  unfold np_nanargmin. cbn [map forallb is_nan andb].
  rewrite map_map. cbn [is_nan].
  apply (np_argmin_x_Fin (x :: t)).
Qed.

Lemma np_divide_positive (fl : R -> R) (a b : list R) :
  length a = length b -> Forall (fun x => 0 < x) b ->
  np_divide fl a b
    = Ok (map Fin (map (fun p => fl (fst p / snd p)) (combine a b))).
Proof.
  intros Hlen Hb. unfold np_divide.
  rewrite np_broadcast_same by exact Hlen. f_equal.
  rewrite map_map. apply map_ext_in. intros [x y] Hin. cbn [fst snd].
  apply fl_div_nonzero.
  apply in_combine_r in Hin. rewrite Forall_forall in Hb.
  specialize (Hb y Hin). lra.
Qed.

Lemma nth_ratio (fl : R -> R) (a b : list R) (i : nat) :
  length a = length b -> (i < length a)%nat ->
  nth i (map (fun p => fl (fst p / snd p)) (combine a b)) 0
    = fl (nth i a 0 / nth i b 0).
Proof.
  revert b i. induction a as [|x a IH]; intros [|y b] i Hlen Hi;
    cbn [length] in *; try lia.
  destruct i as [|i]; cbn [combine map nth fst snd]; [reflexivity|].
  apply IH; lia.
Qed.

Lemma nth_map_lt (g : R -> R) (l : list R) (i : nat) :
  (i < length l)%nat -> nth i (map g l) 0 = g (nth i l 0).
Proof.
  intros Hi. rewrite (nth_indep _ 0 (g 0)) by (rewrite length_map; exact Hi).
  apply map_nth.
Qed.

(** The routine, once the Maxwellian is known to be positive. *)
Lemma background_thermal_core_run
    (func_maxwellian : R -> R -> R -> R) (fl : R -> R) (ene f : list R)
    (vth mime : R) :
  let w := fl (1.0 - fl (3.0 * fl (vth ^ 2))) in
  let gama := fl (1.0 / fl (sqrt w)) in
  let thermalEnergy := fl (fl (gama - 1) * mime) in
  let b := fl (1.5 / thermalEnergy) in
  let fth := map (fun e => func_maxwellian e 1.0 b) ene in
  let ratio := map (fun p => fl (fst p / snd p)) (combine f fth) in
  0 <= w -> fl (sqrt w) <> 0 -> thermalEnergy <> 0 ->
  length ene = length f ->
  Forall (fun x => 0 < x) fth ->
  background_thermal_core func_maxwellian fl ene f vth mime
    = (k <- np_argmin ratio ;;
       t <- np_argmin (firstn k ratio) ;;
       Ok (map Fin (map (fun x => fl (x * nth t ratio 0)) fth))).
Proof.
  intros w gama te b fth ratio Hw Hs Hte Hlen Hpos.
  assert (Hfth : length fth = length f)
    by (unfold fth; rewrite length_map; exact Hlen).
  assert (Hratio : length ratio = length f).
  { unfold ratio. rewrite length_map, length_combine. lia. }
  unfold background_thermal_core.
  rewrite (lorentz_gamma_run fl vth Hw Hs). cbn [bind].
  fold w. fold gama. fold te.
  destruct (Req_EM_T te 0) as [E|_]; [contradiction|].
  cbn [bind]. fold b. fold fth.
  rewrite (np_divide_positive fl f fth) by (auto using eq_sym).
  cbn [bind]. fold ratio. rewrite np_nanargmin_Fin.
  destruct (np_argmin ratio) as [k|e] eqn:Hk; cbn [bind]; [|reflexivity].
  destruct (np_argmin_spec _ _ Hk) as (Hk1 & _).
  rewrite !py_slice_prefix.
  rewrite (np_divide_positive fl (firstn k f) (firstn k fth)).
  2:{ rewrite !length_firstn. lia. }
  2:{ apply (Forall_firstn_skipn _ k fth Hpos). }
  cbn [bind]. rewrite <- combine_firstn, <- firstn_map. fold ratio.
  rewrite np_argmin_x_Fin.
  destruct (np_argmin (firstn k ratio)) as [t|e] eqn:Ht; cbn [bind];
    [|reflexivity].
  destruct (np_argmin_spec _ _ Ht) as (Ht1 & _).
  rewrite length_firstn in Ht1.
  rewrite (get_nth f t 0) by lia. cbn [bind].
  rewrite (get_nth fth t 0) by lia. cbn [bind].
  rewrite fl_div_nonzero.
  2:{ assert (0 < nth t fth 0) by (apply Forall_pos_nth; [exact Hpos|lia]).
      lra. }
  cbn [xmul]. rewrite map_map.
  unfold ratio. rewrite (nth_ratio fl f fth t) by lia. reflexivity.
Qed.

(** X12: the background thermal core, every operation of which is rounded.
    Let [w] be the computed [1 - 3 vth^2], [gama] the computed Lorentz
    factor and [thermalEnergy] the computed [(gama - 1) * mime]; assume
    that [w] is not negative, that its computed square root and
    [thermalEnergy] are not zero (otherwise the routine raises), that there
    are as many energies as flux bins and that the Maxwellian is positive on
    the energies.  Let [k] be the first bin where the computed ratio of the
    flux to the Maxwellian is minimal and [t] the first bin below [k] where
    it is minimal among the bins below [k].  Then the routine returns the
    Maxwellian scaled by the ratio at [t]; this ratio is at most the ratio
    of every bin below [k] and exceeds the ratio at [k]; so the scaled
    Maxwellian stays at or below the computed product of the Maxwellian by
    its ratio to the flux at every bin below [k], and is at or above it at
    [k]. *)
Theorem background_thermal_core_scaled
    (func_maxwellian : R -> R -> R -> R) (fl : R -> R) (ene f : list R)
    (vth mime : R) (k t : nat) :
  let w := fl (1.0 - fl (3.0 * fl (vth ^ 2))) in
  let gama := fl (1.0 / fl (sqrt w)) in
  let thermalEnergy := fl (fl (gama - 1) * mime) in
  let b := fl (1.5 / thermalEnergy) in
  let fth := map (fun e => func_maxwellian e 1.0 b) ene in
  let ratio := map (fun p => fl (fst p / snd p)) (combine f fth) in
  let scale := fl (nth t f 0 / nth t fth 0) in
  let scaled := map (fun x => fl (x * scale)) fth in
  rounding fl ->
  0 <= w -> fl (sqrt w) <> 0 -> thermalEnergy <> 0 ->
  length ene = length f ->
  Forall (fun x => 0 < x) fth ->
  np_argmin ratio = Ok k ->
  np_argmin (firstn k ratio) = Ok t ->
  background_thermal_core func_maxwellian fl ene f vth mime
    = Ok (map Fin scaled) /\
  (t < k < length f)%nat /\
  (forall i, (i < k)%nat -> scale <= fl (nth i f 0 / nth i fth 0)) /\
  fl (nth k f 0 / nth k fth 0) < scale /\
  (forall i, (i < k)%nat ->
     nth i scaled 0 <= fl (nth i fth 0 * fl (nth i f 0 / nth i fth 0))) /\
  fl (nth k fth 0 * fl (nth k f 0 / nth k fth 0)) <= nth k scaled 0.
Proof.
  intros w gama te b fth ratio scale scaled Hfl Hw Hs Hte Hlen Hpos Hk Ht.
  assert (Hfth : length fth = length f)
    by (unfold fth; rewrite length_map; exact Hlen).
  assert (Hratio : length ratio = length f).
  { unfold ratio. rewrite length_map, length_combine. lia. }
  destruct (np_argmin_spec _ _ Hk) as (Hk1 & Hk2 & Hk3).
  destruct (np_argmin_spec _ _ Ht) as (Ht1 & Ht2 & Ht3).
  rewrite length_firstn in Ht1, Ht2.
  assert (Htk : (t < k)%nat) by lia.
  assert (Hnr : forall i, (i < length f)%nat ->
                  nth i ratio 0 = fl (nth i f 0 / nth i fth 0)).
  { intros i Hi. apply nth_ratio; [symmetry; exact Hfth | exact Hi]. }
  assert (Hp : forall i, (i < length f)%nat -> 0 < nth i fth 0).
  { intros i Hi. apply Forall_pos_nth; [exact Hpos | lia]. }
  assert (Hsc : forall i, (i < length f)%nat ->
                  nth i scaled 0 = fl (nth i fth 0 * scale)).
  { intros i Hi. unfold scaled.
    apply (nth_map_lt (fun x => fl (x * scale))). lia. }
  assert (Hlow : forall i, (i < k)%nat ->
                   scale <= fl (nth i f 0 / nth i fth 0)).
  { intros i Hi. specialize (Ht2 i ltac:(lia)).
    rewrite !nth_firstn in Ht2.
    rewrite (proj2 (Nat.ltb_lt t k)) in Ht2 by lia.
    rewrite (proj2 (Nat.ltb_lt i k)) in Ht2 by lia.
    rewrite !Hnr in Ht2 by lia. exact Ht2. }
  assert (Hhigh : fl (nth k f 0 / nth k fth 0) < scale).
  { specialize (Hk3 t Htk). rewrite !Hnr in Hk3 by lia. exact Hk3. }
  split; [|split; [lia|split; [exact Hlow|split; [exact Hhigh|split]]]].
  - rewrite (background_thermal_core_run func_maxwellian fl ene f vth mime)
      by assumption.
    fold w. fold gama. fold te. fold b. fold fth. fold ratio.
    rewrite Hk. cbn [bind]. rewrite Ht. cbn [bind].
    rewrite Hnr by lia. reflexivity.
  - intros i Hi. rewrite Hsc by lia.
    apply (fl_monotone fl _ _ Hfl).
    apply Rmult_le_compat_l; [specialize (Hp i ltac:(lia)); lra|].
    apply Hlow. exact Hi.
  - rewrite Hsc by lia.
    apply (fl_monotone fl _ _ Hfl).
    apply Rmult_le_compat_l; [specialize (Hp k ltac:(lia)); lra|].
    lra.
Qed.

Lemma background_thermal_core_scaled_witness :
  background_thermal_core (fun e a b => a) exact_arithmetic
      [1; 2; 3] [3; 2; 1] 0.5 25
    = Ok [Fin 2; Fin 2; Fin 2] /\
  (1 < 2 < 3)%nat.
Proof.
  destruct (background_thermal_core_scaled (fun e a b => a) exact_arithmetic
              [1; 2; 3] [3; 2; 1] 0.5 25 2 1) as (Hrun & Hlt & _).
  - exact rounding_exact.
  - unfold exact_arithmetic. lra.
  - unfold exact_arithmetic. rewrite sqrt_quarter. lra.
  - unfold exact_arithmetic. rewrite sqrt_quarter. lra.
  - reflexivity.
  - repeat constructor; lra.
  - cbn [map combine fst snd]. unfold exact_arithmetic, np_argmin, argmin_by.
    Rltb_eval. reflexivity.
  - cbn [map combine fst snd firstn].
    unfold exact_arithmetic, np_argmin, argmin_by.
    Rltb_eval. reflexivity.
  - split; [|exact Hlt]. rewrite Hrun.
    cbn [map nth]. unfold exact_arithmetic.
    repeat f_equal; lra.
Defined.

(** X13: under the same conditions on the computed quantities, when the
    computed ratio of the flux to the Maxwellian is nowhere smaller than at
    the first bin, the routine raises [ValueError]: no bin lies below the
    first minimum of the ratio, and [np.argmin] refuses the empty array. *)
Theorem background_thermal_core_minimum_first
    (func_maxwellian : R -> R -> R -> R) (fl : R -> R) (ene f : list R)
    (vth mime : R) :
  let w := fl (1.0 - fl (3.0 * fl (vth ^ 2))) in
  let gama := fl (1.0 / fl (sqrt w)) in
  let thermalEnergy := fl (fl (gama - 1) * mime) in
  let b := fl (1.5 / thermalEnergy) in
  let fth := map (fun e => func_maxwellian e 1.0 b) ene in
  0 <= w -> fl (sqrt w) <> 0 -> thermalEnergy <> 0 ->
  length ene = length f ->
  Forall (fun x => 0 < x) fth ->
  (forall j, (j < length f)%nat ->
     fl (nth 0 f 0 / nth 0 fth 0) <= fl (nth j f 0 / nth j fth 0)) ->
  background_thermal_core func_maxwellian fl ene f vth mime
    = Raise ValueError.
Proof.
  intros w gama te b fth Hw Hs Hte Hlen Hpos Hmin.
  rewrite (background_thermal_core_run func_maxwellian fl ene f vth mime)
    by assumption.
  fold w. fold gama. fold te. fold b. fold fth.
  set (ratio := map (fun p => fl (fst p / snd p)) (combine f fth)).
  assert (Hfth : length fth = length f)
    by (unfold fth; rewrite length_map; exact Hlen).
  assert (Hratio : length ratio = length f).
  { unfold ratio. rewrite length_map, length_combine. lia. }
  destruct (np_argmin ratio) as [k|e] eqn:Hk; cbn [bind].
  - destruct (np_argmin_spec _ _ Hk) as (Hk1 & _ & Hk3).
    destruct k as [|k]; [reflexivity|].
    specialize (Hk3 0%nat ltac:(lia)). specialize (Hmin (S k) ltac:(lia)).
    unfold ratio in Hk3.
    rewrite !nth_ratio in Hk3 by lia. lra.
  - destruct ratio; [injection Hk as <-; reflexivity | discriminate].
Qed.

Lemma background_thermal_core_minimum_first_witness :
  background_thermal_core (fun e a b => a) exact_arithmetic
      [1; 2; 3] [1; 2; 3] 0.5 25
    = Raise ValueError.
Proof.
  apply (background_thermal_core_minimum_first (fun e a b => a)
           exact_arithmetic [1; 2; 3] [1; 2; 3] 0.5 25).
  - unfold exact_arithmetic. lra.
  - unfold exact_arithmetic. rewrite sqrt_quarter. lra.
  - unfold exact_arithmetic. rewrite sqrt_quarter. lra.
  - reflexivity.
  - repeat constructor; lra.
  - unfold exact_arithmetic.
    intros [|[|[|j]]] Hj; cbn [nth map length] in *; try lra. lia.
Defined.


(** ** Normalized energies *)

(** Evaluation of the thermal speed of a sample run, in exact
    arithmetic. *)
Ltac thermal_speed_eval :=
  cbv [String.eqb Ascii.eqb Bool.eqb andb sample_pic_run with_speeds
       pic_run.vthe pic_run.vthi exact_arithmetic].

(** X14: [get_normalized_energy], every operation of which is rounded, for
    the thermal speed [vth] ([vthe] for the species ['e'], [vthi] for any
    other one).  Let [w] be the computed [1 - 3 vth^2], [gama] the computed
    Lorentz factor and [eth] the computed [gama - 1].  A thermal speed with
    [vth^2 <= 1/8] has [w >= 0] with a computed square root that is not
    zero.  Whenever [w >= 0] and its computed square root is not zero, the
    routine returns, and [eth] is not negative.  When [eth] is not zero,
    every entry is the rounded quotient of an energy by [eth], a number,
    and the order of the energies is kept.  When [eth] is zero, as the
    rounding makes it for a small thermal speed, every entry is an infinity
    or a NaN, by the sign of the energy. *)
Theorem get_normalized_energy_ok (fl : R -> R) (species : string)
    (ene_bins : list R) (pic : pic_run.t) :
  let vth :=
    if String.eqb species "e" then pic_run.vthe pic else pic_run.vthi pic in
  let w := fl (1.0 - fl (3.0 * fl (vth ^ 2))) in
  let gama := fl (1.0 / fl (sqrt w)) in
  let eth := fl (gama - 1.0) in
  rounding fl ->
  (vth ^ 2 <= 1 / 8 -> 0 <= w /\ fl (sqrt w) <> 0) /\
  (0 <= w -> fl (sqrt w) <> 0 ->
   0 <= eth /\
   (eth <> 0 ->
    get_normalized_energy fl species ene_bins pic
      = Ok (map (fun e => Fin (fl (e / eth))) ene_bins) /\
    forall x y, x <= y -> fl (x / eth) <= fl (y / eth)) /\
   (eth = 0 ->
    get_normalized_energy fl species ene_bins pic
      = Ok (map (fun e => if Rltb 0 e then PInf
                          else if Rltb e 0 then NInf else NaN) ene_bins))).
Proof.
  intros vth w gama eth Hfl.
  split; [intros Hv; apply (lorentz_gamma_slow fl vth Hfl Hv)|].
  intros Hw Hs.
  destruct (lorentz_gamma_ge_1 fl vth Hfl Hw Hs) as (_ & _ & Heth).
  fold w in Heth. fold gama in Heth. fold eth in Heth.
  assert (Hrun : get_normalized_energy fl species ene_bins pic
                 = Ok (map (fun e => fl_div fl e eth) ene_bins)).
  { unfold get_normalized_energy. fold vth.
    rewrite (lorentz_gamma_run fl vth Hw Hs). reflexivity. }
  split; [exact Heth|]. split.
  - intros Hne. split.
    + rewrite Hrun. f_equal. apply map_ext. intros e.
      apply fl_div_nonzero. exact Hne.
    + intros x y Hxy. apply (fl_monotone fl _ _ Hfl). unfold Rdiv.
      apply Rmult_le_compat_r; [|exact Hxy].
      apply Rlt_le, Rinv_0_lt_compat. lra.
  - intros Hz. rewrite Hrun, Hz. f_equal. apply map_ext. intros e.
    apply fl_div_zero.
Qed.

Lemma get_normalized_energy_ok_witness :
  get_normalized_energy exact_arithmetic "e" [1; 2] sample_pic_run
    = Ok [Fin 1; Fin 2].
Proof.
  destruct (get_normalized_energy_ok exact_arithmetic "e" [1; 2]
              sample_pic_run rounding_exact) as (_ & Hrun).
  destruct Hrun as (_ & Hfin & _).
  - thermal_speed_eval. lra.
  - thermal_speed_eval. rewrite sqrt_quarter. lra.
  - destruct Hfin as (Hres & _).
    + thermal_speed_eval. rewrite sqrt_quarter. lra.
    + rewrite Hres. thermal_speed_eval. rewrite sqrt_quarter.
      cbn [map]. repeat f_equal; lra.
Defined.

(** X15: when the computed [3 vth^2] is at least 1 the routine raises, a
    [ZeroDivisionError] for a zero square root when the computed
    [1 - 3 vth^2] is zero, a [ValueError] for the square root of a negative
    number otherwise; it raises [ZeroDivisionError] in particular when the
    computed [3 vth^2] is 1, which the rounding makes it for thermal speeds
    next to [sqrt (1/3)]. *)
Theorem get_normalized_energy_limit (fl : R -> R) (species : string)
    (ene_bins : list R) (pic : pic_run.t) :
  let vth :=
    if String.eqb species "e" then pic_run.vthe pic else pic_run.vthi pic in
  let w := fl (1.0 - fl (3.0 * fl (vth ^ 2))) in
  rounding fl ->
  1 <= fl (3.0 * fl (vth ^ 2)) ->
  w <= 0 /\
  get_normalized_energy fl species ene_bins pic
    = Raise (if Req_EM_T w 0 then ZeroDivisionError else ValueError) /\
  (fl (3.0 * fl (vth ^ 2)) = 1 ->
   get_normalized_energy fl species ene_bins pic = Raise ZeroDivisionError).
Proof.
  intros vth w Hfl Hlim.
  assert (Hw : w <= 0).
  { rewrite <- (fl_0 fl Hfl). apply (fl_monotone fl _ _ Hfl). lra. }
  assert (Hrun : get_normalized_energy fl species ene_bins pic
                 = Raise (if Req_EM_T w 0 then ZeroDivisionError
                          else ValueError)).
  { unfold get_normalized_energy, lorentz_gamma, math_sqrt. fold vth. fold w.
    destruct (Req_EM_T w 0) as [E|N].
    - rewrite E. rewrite (proj2 (Rltb_false 0 0)) by lra. cbn [bind].
      rewrite sqrt_0, (fl_0 fl Hfl).
      destruct (Req_EM_T 0 0) as [_|C]; [reflexivity|contradiction].
    - rewrite (proj2 (Rltb_true w 0)) by lra. reflexivity. }
  split; [exact Hw|]. split; [exact Hrun|].
  intros Hone. rewrite Hrun.
  destruct (Req_EM_T w 0) as [_|N]; [reflexivity|].
  exfalso. apply N. unfold w. rewrite Hone.
  replace (1.0 - 1) with 0 by lra. apply (fl_0 fl Hfl).
Qed.

Lemma coarse_rounding_limit :
  coarse_rounding (3.0 * coarse_rounding (0.577 ^ 2)) = 1.
Proof.
  unfold coarse_rounding. Rltb_eval. cbn [andb]. Rltb_eval. reflexivity.
Qed.

Lemma get_normalized_energy_limit_witness :
  3 * 0.577 ^ 2 < 1 /\
  get_normalized_energy coarse_rounding "h" [1; 2]
      (with_speeds sample_pic_run 0.5 0.577)
    = Raise ZeroDivisionError.
Proof.
  split; [lra|].
  destruct (get_normalized_energy_limit coarse_rounding "h" [1; 2]
              (with_speeds sample_pic_run 0.5 0.577) rounding_coarse)
    as (_ & _ & Hone).
  - thermal_speed_eval. rewrite coarse_rounding_limit. lra.
  - apply Hone. thermal_speed_eval. apply coarse_rounding_limit.
Defined.

(** X16: a thermal speed of zero raises nothing: the thermal energy is 0
    and every normalized energy is an infinity or a NaN, by the sign of the
    energy. *)
Theorem get_normalized_energy_zero_speed (fl : R -> R) (species : string)
    (ene_bins : list R) (pic : pic_run.t) :
  rounding fl ->
  (if String.eqb species "e" then pic_run.vthe pic else pic_run.vthi pic)
    = 0 ->
  get_normalized_energy fl species ene_bins pic
    = Ok (map (fun e => if Rltb 0 e then PInf
                        else if Rltb e 0 then NInf else NaN) ene_bins).
Proof.
  intros Hfl Hz. unfold get_normalized_energy, lorentz_gamma. rewrite Hz.
  replace (0 ^ 2) with 0 by lra. rewrite (fl_0 fl Hfl).
  replace (3.0 * 0) with 0 by lra. rewrite (fl_0 fl Hfl).
  replace (1.0 - 0) with 1 by lra. rewrite (fl_1 fl Hfl).
  destruct (math_sqrt_pos 1 ltac:(lra)) as [-> _]. cbn [bind].
  rewrite sqrt_1, (fl_1 fl Hfl).
  destruct (Req_EM_T 1 0) as [C|_]; [lra|]. cbn [bind].
  replace (1.0 / 1) with 1 by lra. rewrite (fl_1 fl Hfl).
  replace (1 - 1.0) with 0 by lra. rewrite (fl_0 fl Hfl).
  f_equal. apply map_ext. intros e. apply fl_div_zero.
Qed.

Lemma get_normalized_energy_zero_speed_witness :
  get_normalized_energy exact_arithmetic "e" [1; 0; -1]
      (with_speeds sample_pic_run 0 1)
    = Ok (map (fun e => if Rltb 0 e then PInf
                        else if Rltb e 0 then NInf else NaN) [1; 0; -1]).
Proof.
  apply (get_normalized_energy_zero_speed exact_arithmetic "e" [1; 0; -1]
           (with_speeds sample_pic_run 0 1)).
  - exact rounding_exact.
  - reflexivity.
Defined.

(** ** Maximum energies *)

(** X17: [maximum_energy_particle] on a table that [np.genfromtxt] reads
    from the file [fpath + "emax-" + species + ".dat"], for a number of
    frames that is not negative and a thermal speed whose computed
    [1 - 3 vth^2] is not negative, with a computed square root that is not
    zero: the table keeps its shape, and its energies are those that
    [get_normalized_energy] returns on them, each divided by the computed
    thermal energy [eth].  When [eth] is not zero each entry is the rounded
    quotient, a number; when [eth] is zero, as the rounding makes it for a
    small thermal speed, each entry is an infinity or a NaN, by the sign of
    the energy. *)
Theorem maximum_energy_particle_result
    (genfromtxt_default : list byte -> res (list nat * list R))
    (fl : R -> R) (fs : filesystem) (species : string) (pic : pic_run.t)
    (fpath : string) (bytes : list byte) (shape : list nat) (data : list R) :
  let vth :=
    if String.eqb species "e" then pic_run.vthe pic else pic_run.vthi pic in
  let w := fl (1.0 - fl (3.0 * fl (vth ^ 2))) in
  let gama := fl (1.0 / fl (sqrt w)) in
  let eth := fl (gama - 1.0) in
  (0 <= pic_run.ntp pic)%Z ->
  fs (fpath ++ "emax-" ++ species ++ ".dat")%string = Some bytes ->
  genfromtxt_default bytes = Ok (shape, data) ->
  0 <= w -> fl (sqrt w) <> 0 ->
  exists normalized,
    maximum_energy_particle genfromtxt_default fl fs species pic fpath
      = Ok (shape, normalized) /\
    get_normalized_energy fl species data pic = Ok normalized /\
    (eth <> 0 -> normalized = map (fun e => Fin (fl (e / eth))) data) /\
    (eth = 0 ->
     normalized = map (fun e => if Rltb 0 e then PInf
                                else if Rltb e 0 then NInf else NaN) data).
Proof.
  intros vth w gama eth Hntp Hfs Hread Hw Hs.
  exists (map (fun e => fl_div fl e eth) data).
  split; [|split; [|split]].
  - unfold maximum_energy_particle.
    destruct (Z.ltb_spec (pic_run.ntp pic) 0) as [C|_]; [lia|].
    cbn [bind]. unfold py_open. rewrite Hfs. cbn [bind].
    rewrite Hread. cbn [bind fst snd]. fold vth.
    rewrite (lorentz_gamma_run fl vth Hw Hs). reflexivity.
  - unfold get_normalized_energy. fold vth.
    rewrite (lorentz_gamma_run fl vth Hw Hs). reflexivity.
  - intros Hne. apply map_ext. intros e. apply fl_div_nonzero. exact Hne.
  - intros Hz. rewrite Hz. apply map_ext. intros e. apply fl_div_zero.
Qed.

Lemma maximum_energy_particle_result_witness :
  maximum_energy_particle sample_genfromtxt_default exact_arithmetic
      sample_emax_fs "e" sample_pic_run ""
    = Ok ([3%nat], [Fin 0; Fin 1; Fin 2]).
Proof.
  destruct (maximum_energy_particle_result sample_genfromtxt_default
              exact_arithmetic sample_emax_fs "e" sample_pic_run "" []
              [3%nat] [0; 1; 2])
    as (normalized & Hrun & _ & Hfin & _).
  - cbn. lia.
  - reflexivity.
  - reflexivity.
  - thermal_speed_eval. lra.
  - thermal_speed_eval. rewrite sqrt_quarter. lra.
  - rewrite Hrun, Hfin.
    + thermal_speed_eval. rewrite sqrt_quarter.
      cbn [map]. repeat f_equal; lra.
    + thermal_speed_eval. rewrite sqrt_quarter. lra.
Defined.

(** X18: when the file of the maximum energies is missing,
    [maximum_energy_particle] raises the [IOError] of [open], whatever the
    thermal speed is; a negative number of frames is refused before, by
    [np.zeros], with [ValueError]. *)
Theorem maximum_energy_particle_missing
    (genfromtxt_default : list byte -> res (list nat * list R))
    (fl : R -> R) (fs : filesystem) (species : string) (pic : pic_run.t)
    (fpath : string) :
  fs (fpath ++ "emax-" ++ species ++ ".dat")%string = None ->
  maximum_energy_particle genfromtxt_default fl fs species pic fpath
    = Raise (if (pic_run.ntp pic <? 0)%Z then ValueError else IOError).
Proof.
  intros Hfs. unfold maximum_energy_particle.
  destruct (pic_run.ntp pic <? 0)%Z; cbn [bind]; [reflexivity|].
  unfold py_open. rewrite Hfs. reflexivity.
Qed.

Lemma maximum_energy_particle_missing_witness :
  maximum_energy_particle sample_genfromtxt_default exact_arithmetic
      sample_emax_fs "h" sample_pic_run ""
    = Raise (if (pic_run.ntp sample_pic_run <? 0)%Z then ValueError
             else IOError).
Proof.
  apply (maximum_energy_particle_missing sample_genfromtxt_default
           exact_arithmetic sample_emax_fs "h" sample_pic_run "").
  reflexivity.
Defined.

Lemma py_zfill_full (s : string) : py_zfill s (String.length s) = s.
Proof. unfold py_zfill. rewrite Nat.leb_refl. reflexivity. Qed.

Lemma foldM_spectra_none (genfromtxt : list byte -> res ndarray)
    (fl : R -> R) (fs : filesystem) (species : string) (pic : pic_run.t)
    (fpath : string) (l : list nat) :
  foldM (maximum_energy_spectra_step genfromtxt fl fs species pic fpath) l
    None = Ok None.
Proof.
  induction l as [|ct l IH]; cbn [foldM maximum_energy_spectra_step bind];
    [reflexivity | exact IH].
Qed.

(** X19: when the spectrum of frame 1 is missing and there are at least two
    frames, [maximum_energy_spectra] returns no value ([None]): no
    exception is raised, whatever the thermal speed and the other files
    are. *)
Theorem maximum_energy_spectra_first_missing
    (genfromtxt : list byte -> res ndarray) (fl : R -> R) (fs : filesystem)
    (ntp : Z) (species : string) (pic : pic_run.t) (fpath : string) :
  (2 <= ntp)%Z ->
  fs (fpath ++ "spectrum-" ++ species ++ "." ++ "1")%string = None ->
  maximum_energy_spectra genfromtxt fl fs ntp species pic fpath = Ok None.
Proof.
  intros Hntp Hfs. unfold maximum_energy_spectra.
  destruct (Z.ltb_spec ntp 0) as [C|_]; [lia|]. cbn [bind].
  destruct (Z.to_nat ntp - 1)%nat as [|n] eqn:En; [lia|].
  cbn [seq foldM].
  assert (Hstep : forall m,
    maximum_energy_spectra_step genfromtxt fl fs species pic fpath (Some m) 1
      = Ok None).
  { intros m. unfold maximum_energy_spectra_step.
    rewrite py_zfill_full.
    change (py_str (Z.of_nat 1)) with "1"%string.
    rewrite Hfs. reflexivity. }
  rewrite Hstep. cbn [bind]. rewrite foldM_spectra_none. reflexivity.
Qed.

Lemma maximum_energy_spectra_first_missing_witness :
  maximum_energy_spectra sample_genfromtxt exact_arithmetic empty_fs 3 "e"
    sample_pic_run "" = Ok None.
Proof.
  apply (maximum_energy_spectra_first_missing sample_genfromtxt
           exact_arithmetic empty_fs 3 "e" sample_pic_run "").
  - lia.
  - reflexivity.
Defined.


Lemma get_ok_nth {A : Type} (a : list A) (i : nat) (x d : A) :
  get a i = Ok x -> (i < length a)%nat /\ x = nth i a d.
Proof.
  intros H.
  destruct (Nat.lt_ge_cases i (length a)) as [Hi|Hi].
  - split; [exact Hi|]. rewrite (get_nth a i d Hi) in H.
    injection H as <-. reflexivity.
  - rewrite get_out in H by exact Hi. discriminate.
Qed.

Lemma is_nonzero_false (x : xfloat) : is_nonzero x = false -> x = Fin 0.
Proof.
  destruct x as [r| | |]; cbn [is_nonzero]; try discriminate.
  destruct (Req_EM_T r 0) as [->|_]; [reflexivity | discriminate].
Qed.

(** The scan for the last element that is not zero. *)
Lemma last_nonzero_from_spec (l : list xfloat) :
  forall (i : nat) (found : option nat) (k : nat),
    last_nonzero_from i l found = Some k ->
    (found = Some k /\ forall j, (j < length l)%nat -> nth j l (Fin 0) = Fin 0)
    \/ ((i <= k < i + length l)%nat /\
        is_nonzero (nth (k - i) l (Fin 0)) = true /\
        forall j, (k - i < j < length l)%nat -> nth j l (Fin 0) = Fin 0).
Proof.
  induction l as [|x t IH]; intros i found k H; cbn [last_nonzero_from] in H.
  - left. split; [exact H|]. intros j Hj. cbn [length] in Hj. lia.
  - apply IH in H. destruct H as [(Hf & Hz)|(Hr & Hnz & Hz)].
    + destruct (is_nonzero x) eqn:Ex.
      * right. injection Hf as <-. rewrite Nat.sub_diag. cbn [nth length].
        split; [lia|]. split; [exact Ex|].
        intros [|j] Hj; [lia|]. cbn [nth]. apply Hz. lia.
      * left. split; [exact Hf|].
        intros [|j] Hj; cbn [nth]; [apply is_nonzero_false; exact Ex|].
        apply Hz. cbn [length] in Hj. lia.
    + right. cbn [length]. split; [lia|].
      replace (k - i)%nat with (S (k - S i)) by lia. cbn [nth].
      split; [exact Hnz|].
      intros [|j] Hj; [lia|]. cbn [nth]. apply Hz. lia.
Qed.

Lemma np_max_nonzero_index_spec (a : list xfloat) (k : nat) :
  np_max_nonzero_index a = Ok k ->
  (k < length a)%nat /\ is_nonzero (nth k a (Fin 0)) = true /\
  forall j, (k < j < length a)%nat -> nth j a (Fin 0) = Fin 0.
Proof.
  unfold np_max_nonzero_index.
  destruct (last_nonzero_from 0 a None) as [k'|] eqn:E; [|discriminate].
  intros H. injection H as <-.
  apply last_nonzero_from_spec in E.
  destruct E as [(C & _)|(Hr & Hnz & Hz)]; [discriminate|].
  rewrite Nat.sub_0_r in Hnz, Hz. split; [lia|]. split; assumption.
Qed.

Lemma maximum_energy_spectra_step_some
    (genfromtxt : list byte -> res ndarray) (fl : R -> R) (fs : filesystem)
    (species : string) (pic : pic_run.t) (fpath : string)
    (m m' : list R) (ct : nat) :
  maximum_energy_spectra_step genfromtxt fl fs species pic fpath (Some m) ct
    = Ok (Some m') ->
  exists e,
    frame_maximum genfromtxt fs species pic fpath ct e /\
    m' = set_item m ct e.
Proof.
  unfold maximum_energy_spectra_step. rewrite py_zfill_full.
  destruct (fs _) as [bytes|]; [|discriminate].
  destruct (get_energy_distribution _ _ _ _) as [[[[elin flin] elog] flog]|e]
    eqn:Hged; cbn [bind]; [|discriminate].
  destruct (get_normalized_energy fl species elog pic) as [en|e]; cbn [bind];
    [|discriminate].
  destruct (np_max_nonzero_index flog) as [k|e] eqn:Hk; cbn [bind];
    [|discriminate].
  destruct (get elog k) as [e|e] eqn:He; cbn [bind]; [|discriminate].
  intros H. injection H as <-.
  destruct (np_max_nonzero_index_spec flog k Hk) as (Hk1 & Hk2 & Hk3).
  destruct (get_ok_nth elog k e 0 He) as (Hlt & ->).
  eexists. split; [|reflexivity].
  exists elin, flin, elog, flog, k. auto 10.
Qed.

Lemma maximum_energy_spectra_loop
    (genfromtxt : list byte -> res ndarray) (fl : R -> R) (fs : filesystem)
    (species : string) (pic : pic_run.t) (fpath : string) (n : nat) :
  forall (a : nat) (m m' : list R),
    foldM (maximum_energy_spectra_step genfromtxt fl fs species pic fpath)
      (seq a n) (Some m) = Ok (Some m') ->
    length m' = length m /\
    (forall j, (j < a \/ a + n <= j)%nat -> nth j m' 0 = nth j m 0) /\
    (forall ct, (a <= ct < a + n)%nat -> (ct < length m)%nat ->
       frame_maximum genfromtxt fs species pic fpath ct (nth ct m' 0)).
Proof.
  induction n as [|n IH]; intros a m m' H; cbn [seq foldM] in H.
  - injection H as <-. split; [reflexivity|].
    split; [reflexivity|]. intros ct Hct. lia.
  - destruct (maximum_energy_spectra_step genfromtxt fl fs species pic fpath
                (Some m) a) as [[m1|]|e] eqn:Hstep; cbn [bind] in H.
    + apply maximum_energy_spectra_step_some in Hstep.
      destruct Hstep as (e & Hfm & ->).
      apply IH in H. destruct H as (Hlen & Hout & Hin).
      rewrite set_item_length in Hlen, Hin.
      split; [exact Hlen|]. split.
      * intros j Hj. rewrite Hout by lia.
        apply nth_set_item_neq. lia.
      * intros ct Hct Hlt.
        destruct (Nat.eq_dec ct a) as [->|Hne].
        -- rewrite Hout by lia. rewrite nth_set_item_eq by exact Hlt.
           exact Hfm.
        -- apply Hin; lia.
    + rewrite foldM_spectra_none in H. discriminate.
    + discriminate.
Qed.

(** X20: when [maximum_energy_spectra] returns an array, the computed
    [1 - 3 vth^2] is not negative and its computed square root is not zero;
    the array has one entry for each of the [ntp] frames.  With [eth] the
    computed thermal energy, the entry of frame 0, which is never read, is
    the quotient of 0 by [eth], and the entry of each frame [ct >= 1] is
    the quotient by [eth] of the energy [e] of the last bin of the
    logarithmic spectrum of the file
    [fpath + "spectrum-" + species + "." + str(ct)] whose normalized flux
    is not zero.  A quotient by an [eth] that is not zero is the rounded
    quotient, a number; by an [eth] that is zero, as the rounding makes it
    for a small thermal speed, it is an infinity or a NaN, by the sign of
    the energy, so that the entry of frame 0 is a NaN. *)
Theorem maximum_energy_spectra_entries
    (genfromtxt : list byte -> res ndarray) (fl : R -> R) (fs : filesystem)
    (ntp : Z) (species : string) (pic : pic_run.t) (fpath : string)
    (r : list xfloat) :
  let vth :=
    if String.eqb species "e" then pic_run.vthe pic else pic_run.vthi pic in
  let w := fl (1.0 - fl (3.0 * fl (vth ^ 2))) in
  let gama := fl (1.0 / fl (sqrt w)) in
  let eth := fl (gama - 1.0) in
  let quotient := fun e : R =>
    if Req_EM_T eth 0
    then (if Rltb 0 e then PInf else if Rltb e 0 then NInf else NaN)
    else Fin (fl (e / eth)) in
  maximum_energy_spectra genfromtxt fl fs ntp species pic fpath
    = Ok (Some r) ->
  0 <= w /\ fl (sqrt w) <> 0 /\
  length r = Z.to_nat ntp /\
  ((0 < ntp)%Z -> nth 0 r (Fin 0) = quotient 0) /\
  ((0 < ntp)%Z -> eth = 0 -> nth 0 r (Fin 0) = NaN) /\
  forall ct, (1 <= ct < Z.to_nat ntp)%nat ->
    exists e,
      frame_maximum genfromtxt fs species pic fpath ct e /\
      nth ct r (Fin 0) = quotient e.
Proof.
  intros vth w gama eth quotient H. unfold maximum_energy_spectra in H.
  destruct (ntp <? 0)%Z; cbn [bind] in H; [discriminate|].
  destruct (foldM _ _ _) as [[m'|]|e] eqn:Hloop; cbn [bind] in H;
    try discriminate.
  fold vth in H.
  destruct (lorentz_gamma fl vth) as [g|e] eqn:Hg; cbn [bind] in H;
    [|discriminate].
  apply lorentz_gamma_inv in Hg. destruct Hg as (Hw & Hs & ->).
  fold w in Hw, Hs, H. fold gama in H. fold eth in H.
  injection H as <-.
  apply maximum_energy_spectra_loop in Hloop.
  destruct Hloop as (Hlen & Hout & Hin).
  rewrite repeat_length in Hlen, Hin.
  assert (Hq : forall e, fl_div fl e eth = quotient e).
  { intros e. unfold quotient.
    destruct (Req_EM_T eth 0) as [E|N].
    - rewrite E. apply fl_div_zero.
    - apply fl_div_nonzero. exact N. }
  assert (Hnth : forall j, (j < Z.to_nat ntp)%nat ->
            nth j (map (fun e => fl_div fl e eth) m') (Fin 0)
              = quotient (nth j m' 0)).
  { intros j Hj.
    rewrite (nth_indep _ (Fin 0) (fl_div fl 0 eth))
      by (rewrite length_map; lia).
    rewrite (map_nth (fun e => fl_div fl e eth)). apply Hq. }
  assert (H0 : (0 < ntp)%Z ->
            nth 0 (map (fun e => fl_div fl e eth) m') (Fin 0) = quotient 0).
  { intros Hpos. rewrite Hnth by lia. rewrite Hout by lia.
    rewrite nth_repeat. reflexivity. }
  split; [exact Hw|]. split; [exact Hs|].
  split; [rewrite length_map; exact Hlen|]. split; [exact H0|]. split.
  - intros Hpos Hz. rewrite (H0 Hpos). unfold quotient.
    destruct (Req_EM_T eth 0) as [_|N]; [|contradiction].
    rewrite (proj2 (Rltb_false 0 0)) by lra. reflexivity.
  - intros ct Hct. exists (nth ct m' 0).
    split; [apply Hin; lia | apply Hnth; lia].
Qed.

Lemma is_nonzero_Fin (r : R) : r <> 0 -> is_nonzero (Fin r) = true.
Proof.
  intros H. cbn [is_nonzero]. destruct (Req_EM_T r 0); [contradiction|].
  reflexivity.
Qed.

(** In exact arithmetic the thermal speed 0.5 has the Lorentz factor 2 and
    the thermal energy 1. *)
Lemma lorentz_gamma_half : lorentz_gamma exact_arithmetic 0.5 = Ok 2.
Proof.
  rewrite lorentz_gamma_run.
  - unfold exact_arithmetic. rewrite sqrt_quarter. f_equal. lra.
  - unfold exact_arithmetic. lra.
  - unfold exact_arithmetic. rewrite sqrt_quarter. lra.
Qed.

Lemma maximum_energy_spectra_sample :
  maximum_energy_spectra sample_genfromtxt exact_arithmetic sample_spectra_fs
    2 "e" sample_pic_run ""
  = Ok (Some [Fin 0; Fin 7]).
Proof.
  unfold maximum_energy_spectra.
  change (2 <? 0)%Z with false. cbn [bind].
  change (Z.to_nat 2) with 2%nat. cbn [Nat.sub seq repeat foldM].
  unfold maximum_energy_spectra_step. rewrite py_zfill_full.
  change (py_str (Z.of_nat 1)) with "1"%string.
  change (sample_spectra_fs ("" ++ "spectrum-" ++ "e" ++ "." ++ "1")%string)
    with (Some (@nil byte)).
  unfold get_energy_distribution, read_spectrum_data, py_open.
  change (sample_spectra_fs ("" ++ "spectrum-" ++ "e" ++ "." ++ "1")%string)
    with (Some (@nil byte)).
  cbn [sample_genfromtxt snd bind column Nat.ltb Nat.leb map nth].
  unfold get_normalized_energy.
  change (if String.eqb "e" "e" then pic_run.vthe sample_pic_run
          else pic_run.vthi sample_pic_run) with 0.5.
  rewrite lorentz_gamma_half. cbn [bind].
  change (String.eqb "e" "e") with true.
  cbn [sample_pic_run sample_pic pic_run.info pic_info.nx pic_info.ny
       pic_info.nz pic_info.nppc].
  rewrite !np_div_nonzero by lra.
  unfold np_max_nonzero_index. cbn [last_nonzero_from].
  rewrite !is_nonzero_Fin by lra.
  cbn [bind get nth_error set_item map].
  unfold exact_arithmetic.
  rewrite !fl_div_nonzero by lra.
  do 2 f_equal. repeat f_equal; lra.
Qed.

Lemma maximum_energy_spectra_entries_witness :
  length [Fin 0; Fin 7] = Z.to_nat 2 /\
  forall ct, (1 <= ct < Z.to_nat 2)%nat ->
    exists e,
      frame_maximum sample_genfromtxt sample_spectra_fs "e" sample_pic_run
        "" ct e /\
      nth ct [Fin 0; Fin 7] (Fin 0) = Fin (e / 1).
Proof.
  destruct (maximum_energy_spectra_entries sample_genfromtxt exact_arithmetic
              sample_spectra_fs 2 "e" sample_pic_run "" [Fin 0; Fin 7]
              maximum_energy_spectra_sample)
    as (_ & _ & Hlen & _ & _ & Hent).
  split; [exact Hlen|].
  intros ct Hct. destruct (Hent ct Hct) as (e & Hfm & He).
  exists e. split; [exact Hfm|]. rewrite He.
  thermal_speed_eval. rewrite sqrt_quarter.
  destruct (Req_EM_T (1.0 / 0.5 - 1.0) 0) as [C|_]; [lra|].
  f_equal. f_equal. lra.
Defined.


(** ** Spectrum tables *)

(** X21: on a missing spectrum file, [get_energy_distribution] and
    [read_energy_distribution] raise [TypeError], not [IOError]:
    [read_spectrum_data] has caught the error of [open] and returned
    [None], which is then indexed. *)
Theorem read_energy_distribution_missing
    (genfromtxt : list byte -> res ndarray) (fs : filesystem)
    (species : string) (tframe : Z) (pic : pic_info.t) (fpath : string) :
  let fname :=
    (if String.eqb species "e"
     then fpath ++ "spectrum-" ++ species ++ "." ++ py_str tframe
     else fpath ++ "spectrum-h." ++ py_str tframe)%string in
  fs fname = None ->
  (forall fnorm,
     get_energy_distribution genfromtxt fs fname fnorm = Raise TypeError) /\
  read_energy_distribution genfromtxt fs species tframe pic fpath
    = Raise TypeError.
Proof.
  intros fname Hfs.
  assert (H : forall fnorm,
            get_energy_distribution genfromtxt fs fname fnorm
              = Raise TypeError).
  { intros fnorm. unfold get_energy_distribution, read_spectrum_data, py_open.
    rewrite Hfs. reflexivity. }
  split; [exact H|].
  unfold read_energy_distribution. fold fname. rewrite H. reflexivity.
Qed.

Lemma read_energy_distribution_missing_witness :
  let fname :=
    (if String.eqb "h" "e"
     then "" ++ "spectrum-" ++ "h" ++ "." ++ py_str 10
     else "" ++ "spectrum-h." ++ py_str 10)%string in
  (forall fnorm,
     get_energy_distribution sample_genfromtxt sample_spectrum_fs fname fnorm
       = Raise TypeError) /\
  read_energy_distribution sample_genfromtxt sample_spectrum_fs "h" 10
    sample_pic "" = Raise TypeError.
Proof.
  apply (read_energy_distribution_missing sample_genfromtxt
           sample_spectrum_fs "h" 10 sample_pic "").
  reflexivity.
Defined.

(** X22: a spectrum file whose table has a single row (read as a vector)
    or fewer than four columns makes [get_energy_distribution] raise
    [IndexError]. *)
Theorem get_energy_distribution_malformed
    (genfromtxt : list byte -> res ndarray) (fs : filesystem)
    (fname : string) (bytes : list byte) (data : ndarray) (fnorm : R) :
  fs fname = Some bytes ->
  genfromtxt bytes = Ok data ->
  match data with
  | Array1 _ => True
  | Array2 ncols _ => (ncols < 4)%nat
  end ->
  get_energy_distribution genfromtxt fs fname fnorm = Raise IndexError.
Proof.
  intros Hfs Hgen Hshape.
  unfold get_energy_distribution, read_spectrum_data, py_open.
  rewrite Hfs, Hgen. cbn [snd bind].
  destruct data as [v|ncols rows]; [reflexivity|].
  unfold column.
  destruct (Nat.ltb_spec 0 ncols); cbn [bind]; [|reflexivity].
  destruct (Nat.ltb_spec 1 ncols); cbn [bind]; [|reflexivity].
  destruct (Nat.ltb_spec 2 ncols); cbn [bind]; [|reflexivity].
  destruct (Nat.ltb_spec 3 ncols); cbn [bind]; [lia|reflexivity].
Qed.

Lemma get_energy_distribution_malformed_witness :
  get_energy_distribution (fun _ => Ok (Array1 [1; 2; 3; 4]))
    sample_spectrum_fs "spectrum-e.10" 2 = Raise IndexError.
Proof.
  apply (get_energy_distribution_malformed
           (fun _ => Ok (Array1 [1; 2; 3; 4])) sample_spectrum_fs
           "spectrum-e.10" [] (Array1 [1; 2; 3; 4]) 2).
  - reflexivity.
  - reflexivity.
  - exact I.
Defined.

(** X23: a normalization of zero raises nothing: the logarithmic flux that
    [get_energy_distribution] returns holds [+inf] for a positive stored
    value, [-inf] for a negative one and NaN for zero; the other three
    columns are returned as stored. *)
Theorem get_energy_distribution_zero_norm
    (genfromtxt : list byte -> res ndarray) (fs : filesystem)
    (fname : string) (bytes : list byte) (ncols : nat)
    (rows : list (list R)) :
  fs fname = Some bytes ->
  genfromtxt bytes = Ok (Array2 ncols rows) ->
  (4 <= ncols)%nat ->
  get_energy_distribution genfromtxt fs fname 0 =
    Ok (map (fun r => nth 0 r 0) rows,
        map (fun r => nth 1 r 0) rows,
        map (fun r => nth 2 r 0) rows,
        map (fun r => if Rltb 0 (nth 3 r 0) then PInf
                      else if Rltb (nth 3 r 0) 0 then NInf else NaN) rows).
Proof.
  intros Hfs Hgen Hcols.
  unfold get_energy_distribution, read_spectrum_data, py_open.
  rewrite Hfs, Hgen. cbn [snd bind column].
  destruct (Nat.ltb_spec 0 ncols); [|lia].
  destruct (Nat.ltb_spec 1 ncols); [|lia].
  destruct (Nat.ltb_spec 2 ncols); [|lia].
  destruct (Nat.ltb_spec 3 ncols); [|lia].
  cbn [bind]. do 2 f_equal. rewrite map_map.
  apply map_ext. intros r. unfold np_div.
  destruct (Req_EM_T 0 0) as [_|C]; [reflexivity|contradiction].
Qed.

Lemma get_energy_distribution_zero_norm_witness :
  get_energy_distribution sample_genfromtxt sample_spectrum_fs
    "spectrum-e.10" 0 =
    Ok (map (fun r => nth 0 r 0) [[1; 2; 3; 4]; [5; 6; 7; 8]],
        map (fun r => nth 1 r 0) [[1; 2; 3; 4]; [5; 6; 7; 8]],
        map (fun r => nth 2 r 0) [[1; 2; 3; 4]; [5; 6; 7; 8]],
        map (fun r => if Rltb 0 (nth 3 r 0) then PInf
                      else if Rltb (nth 3 r 0) 0 then NInf else NaN)
            [[1; 2; 3; 4]; [5; 6; 7; 8]]).
Proof.
  apply (get_energy_distribution_zero_norm sample_genfromtxt
           sample_spectrum_fs "spectrum-e.10" [] 4).
  - reflexivity.
  - reflexivity.
  - lia.
Defined.

(** ** Particle files *)

Lemma np_memmap_cases {A : Type} (decode : list byte -> A) (itemsize : nat)
    (fh : file) (offset shape : nat) :
  (np_memmap decode itemsize fh offset shape = Raise ValueError) \/
  (exists x fh',
     np_memmap decode itemsize fh offset shape = Ok (x, fh') /\
     content fh' = content fh /\
     (offset + shape * itemsize <= length (content fh))%nat).
Proof.
  unfold np_memmap.
  destruct (Nat.eqb_spec (length (content fh)) 0) as [E|E];
    cbn [orb]; [left; reflexivity|].
  destruct (Nat.ltb_spec (length (content fh)) (offset + shape * itemsize))
    as [L|L]; [left; reflexivity|].
  right. do 2 eexists. split; [reflexivity|]. split; [reflexivity|exact L].
Qed.

Ltac memmap_case :=
  match goal with
  | |- context [np_memmap ?d ?s ?fh ?o ?n] =>
      let x := fresh "x" in
      let fh' := fresh "fh" in
      let E := fresh "E" in
      let Hc := fresh "Hc" in
      let Hl := fresh "Hl" in
      destruct (np_memmap_cases d s fh o n)
        as [E|(x & fh' & E & Hc & Hl)];
      rewrite E; cbn [bind]; [reflexivity|]
  end.

(** X24: a particle file that cannot be opened makes [read_particle_data]
    raise the [IOError] of [open]; a file shorter than the 115 bytes of the
    three headers makes it raise [ValueError], from [np.memmap]. *)
Theorem read_particle_data_short (fs : filesystem) (fname : string) :
  match fs fname with
  | None => True
  | Some bytes => (length bytes < 115)%nat
  end ->
  read_particle_data fs fname
    = Raise (match fs fname with None => IOError | Some _ => ValueError end).
Proof.
  intros H. unfold read_particle_data, py_open.
  destruct (fs fname) as [bytes|]; [|reflexivity]. cbn [bind].
  unfold read_boilerplate.
  memmap_case. memmap_case. memmap_case. memmap_case. memmap_case.
  unfold read_particle_header.
  memmap_case. memmap_case. memmap_case. memmap_case.
  exfalso. cbn [content] in *.
  rewrite Hc6, Hc5, Hc4, Hc3, Hc2, Hc1, Hc0, Hc in Hl7. lia.
Qed.

Lemma read_particle_data_short_witness :
  read_particle_data
    (fun name => if String.eqb name "eparticle.0.0"
                 then Some (firstn 114 sample_particle_file) else None)
    "eparticle.0.0"
  = Raise (match (if String.eqb "eparticle.0.0" "eparticle.0.0"
                  then Some (firstn 114 sample_particle_file) else None)
           with None => IOError | Some _ => ValueError end).
Proof.
  apply (read_particle_data_short
           (fun name => if String.eqb name "eparticle.0.0"
                        then Some (firstn 114 sample_particle_file)
                        else None) "eparticle.0.0").
  vm_compute. lia.
Defined.


(** X25: on a file of at least 115 bytes, [read_particle_data] raises
    nothing.  With [dim] the signed integer stored at bytes 111 to 114 and
    [avail] the number of whole records of 32 bytes after byte 115, it
    returns the first [min(dim, avail)] records, all [avail] of them when
    [dim] is negative: a file that ends early gives fewer records than its
    header announces, and the header is returned unchanged. *)
Theorem read_particle_data_available (fs : filesystem) (fname : string)
    (bytes : list byte) :
  let dim := le_signed (firstn 4 (skipn 111 bytes)) in
  let avail := ((length bytes - 115) / particle.itemsize)%nat in
  let n := if (dim <? 0)%Z then avail else Nat.min (Z.to_nat dim) avail in
  fs fname = Some bytes ->
  (115 <= length bytes)%nat ->
  exists v0 ph,
    read_particle_data fs fname =
      Ok (v0, ph,
          map decode_particle
            (chunks particle.itemsize n (skipn 115 bytes))) /\
    header_particle.dim ph = dim /\
    (n <= avail)%nat.
Proof.
  intros dim avail n Hfs Hlen.
  unfold read_particle_data, py_open. rewrite Hfs. cbn [bind].
  unfold read_boilerplate. repeat memmap_step.
  unfold read_particle_header. repeat memmap_step.
  assert (Hd : nth 2 (map le_signed
                 (chunks 4 3 (skipn (23 + 6 * 4 + 10 * 4 + 4 * 4) bytes)))
                 0%Z = dim).
  { cbn [chunks map nth]. rewrite !skipn_skipn. reflexivity. }
  do 2 eexists. split; [|split].
  - unfold np_fromfile, seek_set. cbn [content pos header_particle.dim].
    rewrite Hd. reflexivity.
  - cbn [header_particle.dim]. first [reflexivity | exact Hd].
  - unfold n. destruct (dim <? 0)%Z; [lia | apply Nat.le_min_r].
Qed.

Lemma read_particle_data_available_witness :
  let bytes := sample_header ++ firstn 20 sample_record in
  let dim := le_signed (firstn 4 (skipn 111 bytes)) in
  let avail := ((length bytes - 115) / particle.itemsize)%nat in
  let n := if (dim <? 0)%Z then avail else Nat.min (Z.to_nat dim) avail in
  exists v0 ph,
    read_particle_data
      (fun name => if String.eqb name "eparticle.0.0"
                   then Some (sample_header ++ firstn 20 sample_record)
                   else None) "eparticle.0.0" =
      Ok (v0, ph,
          map decode_particle
            (chunks particle.itemsize n (skipn 115 bytes))) /\
    header_particle.dim ph = dim /\
    (n <= avail)%nat.
Proof.
  apply (read_particle_data_available
           (fun name => if String.eqb name "eparticle.0.0"
                        then Some (sample_header ++ firstn 20 sample_record)
                        else None) "eparticle.0.0"
           (sample_header ++ firstn 20 sample_record)).
  - reflexivity.
  - vm_compute. lia.
Defined.


(** ** Velocity histograms *)

(** X26: the cell coordinates computed by [calc_velocity_distribution] and
    the flattened cell index are inverse to each other on a grid of
    positive ghost dimensions: the index [iz*nx*ny + iy*nx + ix] of a cell
    with [0 <= ix < nx], [0 <= iy < ny] and [0 <= iz] is decoded to
    [(ix, iy, iz)], and the coordinates decoded from an index that is not
    negative lie in these ranges and flatten back to it. *)
Theorem cell_coords_inverse (v0 : v0header.t) :
  let nx := (v0header.nx v0 + 2)%Z in
  let ny := (v0header.ny v0 + 2)%Z in
  (0 < nx)%Z -> (0 < ny)%Z ->
  (forall ix iy iz,
     (0 <= ix < nx)%Z -> (0 <= iy < ny)%Z -> (0 <= iz)%Z ->
     cell_coords v0 (iz * nx * ny + iy * nx + ix) = (ix, iy, iz)) /\
  (forall icell,
     (0 <= icell)%Z ->
     let '(ix, iy, iz) := cell_coords v0 icell in
     (0 <= ix < nx)%Z /\ (0 <= iy < ny)%Z /\ (0 <= iz)%Z /\
     icell = (iz * nx * ny + iy * nx + ix)%Z).
Proof.
  intros nx ny Hnx Hny. split.
  - intros ix iy iz Hix Hiy Hiz. unfold cell_coords. fold nx ny.
    assert (Hz : ((iz * nx * ny + iy * nx + ix) / (nx * ny) = iz)%Z).
    { symmetry. apply (Z.div_unique_pos _ _ iz (iy * nx + ix)); nia. }
    rewrite Hz.
    assert (Hy : ((iz * nx * ny + iy * nx + ix - iz * nx * ny) / nx = iy)%Z).
    { symmetry. apply (Z.div_unique_pos _ _ iy ix); lia. }
    rewrite Hy. repeat f_equal. lia.
  - intros icell Hicell.
    pose proof (cell_coords_range v0 icell Hnx Hny Hicell) as H.
    destruct (cell_coords v0 icell) as [[ix iy] iz].
    destruct H as ((Hz & _) & _ & Hx & Hy & Hflat).
    repeat split; try lia.
    assert (0 < nx * ny)%Z by nia. nia.
Qed.

Lemma cell_coords_inverse_witness :
  let nx := (v0header.nx sample_v0 + 2)%Z in
  let ny := (v0header.ny sample_v0 + 2)%Z in
  (forall ix iy iz,
     (0 <= ix < nx)%Z -> (0 <= iy < ny)%Z -> (0 <= iz)%Z ->
     cell_coords sample_v0 (iz * nx * ny + iy * nx + ix) = (ix, iy, iz)) /\
  (forall icell,
     (0 <= icell)%Z ->
     let '(ix, iy, iz) := cell_coords sample_v0 icell in
     (0 <= ix < nx)%Z /\ (0 <= iy < ny)%Z /\ (0 <= iz)%Z /\
     icell = (iz * nx * ny + iy * nx + ix)%Z).
Proof.
  apply (cell_coords_inverse sample_v0); cbn; lia.
Defined.

(** X27: a negative mass ratio makes [calc_velocity_distribution] raise
    [ValueError] (the square root), and so does a number of bins of zero
    (the histograms), whatever the particles are. *)
Theorem calc_velocity_distribution_value_error
    (f32 : float32 -> R) (fl32 fl64 : R -> R) (v0 : v0header.t)
    (pheader : header_particle.t) (ptl : list particle.t) (pic : pic_info.t)
    (corners : corners_t) (nbins : nat) :
  pic_info.mime pic < 0 \/ nbins = 0%nat ->
  calc_velocity_distribution f32 fl32 fl64 v0 pheader ptl pic corners nbins
    = Raise ValueError.
Proof.
  intros H. unfold calc_velocity_distribution, math_sqrt.
  destruct (Rltb (pic_info.mime pic) 0) eqn:E; cbn [bind]; [reflexivity|].
  destruct H as [H| ->].
  - apply Rltb_false in E. lra.
  - reflexivity.
Qed.

Lemma calc_velocity_distribution_value_error_witness :
  calc_velocity_distribution sample_f32 exact_arithmetic exact_arithmetic
    sample_v0 sample_pheader [sample_particle] sample_pic sample_corners 0
  = Raise ValueError.
Proof.
  apply (calc_velocity_distribution_value_error sample_f32 exact_arithmetic
           exact_arithmetic sample_v0 sample_pheader [sample_particle]
           sample_pic sample_corners 0).
  right. reflexivity.
Defined.

Lemma combine_app_same {A B : Type} (x1 x2 : list A) (y1 y2 : list B) :
  length x1 = length y1 ->
  combine (x1 ++ x2) (y1 ++ y2) = combine x1 y1 ++ combine x2 y2.
Proof.
  revert y1. induction x1 as [|a x1 IH]; intros [|b y1] H;
    cbn [length] in H; try discriminate; [reflexivity|].
  cbn [app combine]. rewrite IH by lia. reflexivity.
Qed.

Lemma hist_add_rows (c1 c2 : nat -> nat -> R) (l1 l2 : list nat) :
  hist_add (map (fun i => map (fun j => c1 i j) l2) l1)
           (map (fun i => map (fun j => c2 i j) l2) l1)
  = map (fun i => map (fun j => c1 i j + c2 i j) l2) l1.
Proof.
  unfold hist_add. induction l1 as [|i l1 IH]; [reflexivity|].
  cbn [map combine fst snd]. f_equal; [|exact IH].
  clear IH. induction l2 as [|j l2 IH]; [reflexivity|].
  cbn [map combine fst snd]. f_equal. exact IH.
Qed.

Lemma np_histogram2d_app (fl : R -> R) (x1 x2 y1 y2 : list xfloat)
    (bins : nat) (lo hi : R) :
  bins <> 0%nat -> length x1 = length y1 -> length x2 = length y2 ->
  exists h1 h2 edges,
    np_histogram2d fl x1 y1 bins lo hi = Ok (h1, edges, edges) /\
    np_histogram2d fl x2 y2 bins lo hi = Ok (h2, edges, edges) /\
    np_histogram2d fl (x1 ++ x2) (y1 ++ y2) bins lo hi
      = Ok (hist_add h1 h2, edges, edges).
Proof.
  intros Hb H1 H2.
  do 3 eexists. split; [apply np_histogram2d_run; assumption|].
  split; [apply np_histogram2d_run; assumption|].
  rewrite np_histogram2d_run
    by (try assumption; rewrite !length_app; lia).
  rewrite hist_add_rows. do 3 f_equal.
  apply map_ext. intros i. apply map_ext. intros j.
  rewrite combine_app_same by exact H1.
  rewrite filter_app, length_app, plus_INR. reflexivity.
Qed.

(** X28: for a mass ratio that is not negative and at least one bin, the
    routine returns on every list of particles, and the histograms of two
    lists put together are the sums, bin by bin, of the histograms of
    each: what [get_particle_distribution] relies on when it adds the
    histograms of the files of the MPI ranks.  The edges are the same. *)
Theorem calc_velocity_distribution_additive
    (f32 : float32 -> R) (fl32 fl64 : R -> R) (v0 : v0header.t)
    (pheader : header_particle.t) (ptl1 ptl2 : list particle.t)
    (pic : pic_info.t) (corners : corners_t) (nbins : nat) :
  0 <= pic_info.mime pic -> nbins <> 0%nat ->
  exists xy1 xz1 yz1 xy2 xz2 yz2 edges,
    calc_velocity_distribution f32 fl32 fl64 v0 pheader ptl1 pic corners
      nbins = Ok (xy1, xz1, yz1, edges, edges) /\
    calc_velocity_distribution f32 fl32 fl64 v0 pheader ptl2 pic corners
      nbins = Ok (xy2, xz2, yz2, edges, edges) /\
    calc_velocity_distribution f32 fl32 fl64 v0 pheader (ptl1 ++ ptl2) pic
      corners nbins
      = Ok (hist_add xy1 xy2, hist_add xz1 xz2, hist_add yz1 yz2,
            edges, edges).
Proof.
  intros Hmime Hb. unfold calc_velocity_distribution.
  rewrite (math_sqrt_nonneg _ Hmime). cbn [bind].
  set (mask := fun p => in_box corners
                          (position_de f32 fl32 fl64 v0
                             (fl64 (sqrt (pic_info.mime pic))) p)).
  rewrite filter_app, !map_app.
  set (k1 := filter mask ptl1). set (k2 := filter mask ptl2).
  set (ux := fun p : particle.t => x32 f32 (fst (fst (particle.u p)))).
  set (uy := fun p : particle.t => x32 f32 (snd (fst (particle.u p)))).
  set (uz := fun p : particle.t => x32 f32 (snd (particle.u p))).
  destruct (np_histogram2d_app fl64 (map uy k1) (map uy k2) (map ux k1)
              (map ux k2) nbins (-1.0) 1.0 Hb)
    as (xy1 & xy2 & e & Hxy1 & Hxy2 & Hxy);
    [rewrite !length_map; reflexivity..|].
  destruct (np_histogram2d_app fl64 (map uz k1) (map uz k2) (map ux k1)
              (map ux k2) nbins (-1.0) 1.0 Hb)
    as (xz1 & xz2 & e' & Hxz1 & Hxz2 & Hxz);
    [rewrite !length_map; reflexivity..|].
  destruct (np_histogram2d_app fl64 (map uz k1) (map uz k2) (map uy k1)
              (map uy k2) nbins (-1.0) 1.0 Hb)
    as (yz1 & yz2 & e'' & Hyz1 & Hyz2 & Hyz);
    [rewrite !length_map; reflexivity..|].
  exists xy1, xz1, yz1, xy2, xz2, yz2, e''.
  rewrite Hxy1, Hxy2, Hxy, Hxz1, Hxz2, Hxz, Hyz1, Hyz2, Hyz. cbn [bind].
  repeat split.
Qed.

Lemma calc_velocity_distribution_additive_witness :
  exists xy1 xz1 yz1 xy2 xz2 yz2 edges,
    calc_velocity_distribution sample_f32 exact_arithmetic exact_arithmetic
      sample_v0 sample_pheader [sample_particle] sample_pic sample_corners 64
      = Ok (xy1, xz1, yz1, edges, edges) /\
    calc_velocity_distribution sample_f32 exact_arithmetic exact_arithmetic
      sample_v0 sample_pheader [sample_particle; sample_particle] sample_pic
      sample_corners 64
      = Ok (xy2, xz2, yz2, edges, edges) /\
    calc_velocity_distribution sample_f32 exact_arithmetic exact_arithmetic
      sample_v0 sample_pheader
      ([sample_particle] ++ [sample_particle; sample_particle]) sample_pic
      sample_corners 64
      = Ok (hist_add xy1 xy2, hist_add xz1 xz2, hist_add yz1 yz2,
            edges, edges).
Proof.
  apply (calc_velocity_distribution_additive sample_f32 exact_arithmetic
           exact_arithmetic sample_v0 sample_pheader [sample_particle]
           [sample_particle; sample_particle] sample_pic sample_corners 64).
  - cbn. lra.
  - discriminate.
Defined.


(** ** The floor of the stored distributions *)

Lemma np_min_max_nonzero_floor (l : list R) :
  (0 < length l)%nat -> Forall (fun x => 0.01 <= x) l ->
  exists lo hi,
    np_min_nonzero l = Ok lo /\ np_max_nonzero l = Ok hi /\
    0.01 <= lo /\ forall x, In x l -> lo <= x <= hi.
Proof.
  intros Hlen Hfl. unfold np_min_nonzero, np_max_nonzero.
  assert (Hpos : Forall (fun x => 0 < x) l).
  { revert Hfl. apply Forall_impl. intros x Hx. lra. }
  rewrite (nonzero_pos l Hpos).
  assert (Hne : l <> []) by (destruct l; [cbn in Hlen; lia | discriminate]).
  destruct (py_min_spec l Hne) as (lo & Hlo & Hin & Hle).
  destruct (py_max_spec l Hne) as (hi & Hhi & _ & Hge).
  exists lo, hi. split; [exact Hlo|]. split; [exact Hhi|]. split.
  - rewrite Forall_forall in Hfl. apply Hfl. exact Hin.
  - intros x Hx. split; [apply Hle | apply Hge]; exact Hx.
Qed.

Lemma histogram_floor (f64 : float64 -> R) (b : list byte)
    (offset rows cols : nat) :
  (0 < rows * cols)%nat ->
  Forall (fun x => 0 <= x) (stored64 f64 b offset (rows * cols)) ->
  let a :=
    map (map (fun x => x + 0.01))
        (reshape rows cols (stored64 f64 b offset (rows * cols))) in
  exists lo hi,
    np_min_nonzero (concat a) = Ok lo /\ np_max_nonzero (concat a) = Ok hi /\
    0.01 <= lo /\ forall x, In x (concat a) -> lo <= x <= hi.
Proof.
  intros Hsize Hnn a. unfold a. rewrite <- concat_map.
  apply np_min_max_nonzero_floor.
  - rewrite length_map, length_concat_reshape.
    + exact Hsize.
    + unfold stored64. rewrite length_map, length_chunks. lia.
  - apply Forall_map. apply Forall_reshape.
    revert Hnn. apply Forall_impl. intros x Hx. lra.
Qed.

Lemma vector_floor (f64 : float64 -> R) (b : list byte)
    (offset count : nat) :
  (0 < count)%nat ->
  Forall (fun x => 0 <= x) (stored64 f64 b offset count) ->
  let a := map (fun x => x + 0.01) (stored64 f64 b offset count) in
  exists lo hi,
    np_min_nonzero a = Ok lo /\ np_max_nonzero a = Ok hi /\
    0.01 <= lo /\ forall x, In x a -> lo <= x <= hi.
Proof.
  intros Hsize Hnn a. unfold a.
  apply np_min_max_nonzero_floor.
  - unfold stored64. rewrite !length_map, length_chunks. exact Hsize.
  - apply Forall_map. revert Hnn. apply Forall_impl. intros x Hx. lra.
Qed.

Section ReadVelocityDistributionFloor.

Variable f32 : float32 -> R.
Variable f64 : float64 -> R.
Variable fs : filesystem.
Variables (species : string) (tframe : Z) (pic : pic_info.t) (fpath : string).
Variables (b2 b1 : list byte) (n : nat).

Hypothesis Hfiles : vdist_files f64 fs species tframe fpath b2 b1 n.
Hypothesis Hmime : 0 <= pic_info.mime pic.

(** On well-formed files the reader returns the stored distributions
    raised by [delta = 0.01], and the bounds of what it returns. *)
Lemma read_velocity_distribution_run_floor :
  exists fvel,
    read_velocity_distribution f32 f64 fs species tframe pic fpath = Ok fvel /\
    let add := fun x => x + 0.01 in
    fvelocity.fvel_para_perp fvel
      = map (map add)
          (reshape n (2 * n) (stored64 f64 b2 (36 + 24 * n) (n * (2 * n)))) /\
    fvelocity.fvel_xy fvel
      = map (map add)
          (reshape (2 * n) (2 * n)
             (stored64 f64 b2 (36 + 24 * n + 16 * (n * n))
                (2 * n * (2 * n)))) /\
    fvelocity.fvel_xz fvel
      = map (map add)
          (reshape (2 * n) (2 * n)
             (stored64 f64 b2 (36 + 24 * n + 48 * (n * n))
                (2 * n * (2 * n)))) /\
    fvelocity.fvel_yz fvel
      = map (map add)
          (reshape (2 * n) (2 * n)
             (stored64 f64 b2 (36 + 24 * n + 80 * (n * n))
                (2 * n * (2 * n)))) /\
    fvelocity.fvel_para fvel
      = map add (stored64 f64 b1 (36 + 24 * n) (2 * n)) /\
    fvelocity.fvel_perp fvel
      = map add (stored64 f64 b1 (36 + 40 * n) n) /\
    0.01 <= fvelocity.vmin_2d fvel /\
    (forall x,
       In x (concat (fvelocity.fvel_para_perp fvel)
             ++ concat (fvelocity.fvel_xy fvel)
             ++ concat (fvelocity.fvel_xz fvel)
             ++ concat (fvelocity.fvel_yz fvel)) ->
       fvelocity.vmin_2d fvel <= x <= fvelocity.vmax_2d fvel) /\
    0.01 <= fvelocity.vmin_1d fvel /\
    (forall x,
       In x (fvelocity.fvel_para fvel ++ fvelocity.fvel_perp fvel) ->
       fvelocity.vmin_1d fvel <= x <= fvelocity.vmax_1d fvel).
Proof.
  destruct Hfiles as (H2d & H1d & Hnbins & Hn & Hlen2 & Hlen1 & Hpara_perp
                      & Hxy & Hxz & Hyz & Hpara & Hperp).
  unfold read_velocity_distribution, py_open.
  rewrite H2d. cbn [bind].
  assert (Hpos2 : (0 < length b2)%nat) by lia.
  assert (Hpos1 : (0 < length b1)%nat) by lia.
  repeat memmap_step.
  assert (Hnb : nth 0 (map le_signed
                  (chunks 4 1 (skipn (3 * 4 + 3 * 4 + 2 * 4) b2))) 0%Z
                = Z.of_nat n) by exact Hnbins.
  rewrite Hnb, Nat2Z.id.
  destruct (Z.ltb_spec (Z.of_nat n) 0) as [E|_]; [lia|]. cbn [bind].
  repeat memmap_step.
  rewrite H1d. cbn [bind].
  repeat memmap_step.
  unfold math_sqrt. rewrite (proj2 (Rltb_false _ 0) Hmime). cbn [bind].
  repeat match goal with
         | |- context [map (fun bs => f64 (le_unsigned bs))
                           (chunks 8 ?c (skipn ?o ?b))] =>
             change (map (fun bs => f64 (le_unsigned bs))
                         (chunks 8 c (skipn o b)))
               with (stored64 f64 b o c)
         end.
  replace (3 * 4 + 3 * 4 + 2 * 4 + 4 + 8 * n + 8 * n * 2 + 8 * n * 2 * n
           + 8 * 2 * n * 2 * n + 8 * 2 * n * 2 * n)%nat
    with (36 + 24 * n + 80 * (n * n))%nat by lia.
  replace (3 * 4 + 3 * 4 + 2 * 4 + 4 + 8 * n + 8 * n * 2 + 8 * n * 2 * n
           + 8 * 2 * n * 2 * n)%nat
    with (36 + 24 * n + 48 * (n * n))%nat by lia.
  replace (3 * 4 + 3 * 4 + 2 * 4 + 4 + 8 * n + 8 * n * 2 + 8 * n * 2 * n)%nat
    with (36 + 24 * n + 16 * (n * n))%nat by lia.
  replace (3 * 4 + 3 * 4 + 2 * 4 + 4 + 8 * n + 8 * n * 2)%nat
    with (36 + 24 * n)%nat by lia.
  replace (9 * 4 + 8 * n * 3 + 8 * n * 2)%nat with (36 + 40 * n)%nat by lia.
  replace (9 * 4 + 8 * n * 3)%nat with (36 + 24 * n)%nat by lia.
  destruct (histogram_floor f64 b2 (36 + 24 * n) n (2 * n))
    as (lo1 & hi1 & Hlo1 & Hhi1 & Hf1 & Hb1); [nia | exact Hpara_perp |].
  destruct (histogram_floor f64 b2 (36 + 24 * n + 16 * (n * n))
              (2 * n) (2 * n))
    as (lo2 & hi2 & Hlo2 & Hhi2 & Hf2 & Hb2); [nia | exact Hxy |].
  destruct (histogram_floor f64 b2 (36 + 24 * n + 48 * (n * n))
              (2 * n) (2 * n))
    as (lo3 & hi3 & Hlo3 & Hhi3 & Hf3 & Hb3); [nia | exact Hxz |].
  destruct (histogram_floor f64 b2 (36 + 24 * n + 80 * (n * n))
              (2 * n) (2 * n))
    as (lo4 & hi4 & Hlo4 & Hhi4 & Hf4 & Hb4); [nia | exact Hyz |].
  destruct (vector_floor f64 b1 (36 + 24 * n) (2 * n))
    as (lo5 & hi5 & Hlo5 & Hhi5 & Hf5 & Hb5); [lia | exact Hpara |].
  destruct (vector_floor f64 b1 (36 + 40 * n) n)
    as (lo6 & hi6 & Hlo6 & Hhi6 & Hf6 & Hb6); [lia | exact Hperp |].
  cbv zeta in *.
  destruct (py_min_spec [lo1; lo2; lo3; lo4]) as (m2 & Hm2 & Hm2in & Hm2le);
    [discriminate|].
  destruct (py_max_spec [hi1; hi2; hi3; hi4]) as (M2 & HM2 & _ & HM2ge);
    [discriminate|].
  destruct (py_min_spec [lo5; lo6]) as (m1 & Hm1 & Hm1in & Hm1le);
    [discriminate|].
  destruct (py_max_spec [hi5; hi6]) as (M1 & HM1 & _ & HM1ge);
    [discriminate|].
  assert (Hfloor2 : 0.01 <= m2).
  { cbn [In] in Hm2in. destruct Hm2in as [<-|[<-|[<-|[<-|[]]]]]; assumption. }
  assert (Hfloor1 : 0.01 <= m1).
  { cbn [In] in Hm1in. destruct Hm1in as [<-|[<-|[]]]; assumption. }
  assert (Hl1 := Hm2le lo1 ltac:(cbn; auto)).
  assert (Hl2 := Hm2le lo2 ltac:(cbn; auto)).
  assert (Hl3 := Hm2le lo3 ltac:(cbn; auto)).
  assert (Hl4 := Hm2le lo4 ltac:(cbn; auto)).
  assert (Hh1 := HM2ge hi1 ltac:(cbn; auto)).
  assert (Hh2 := HM2ge hi2 ltac:(cbn; auto)).
  assert (Hh3 := HM2ge hi3 ltac:(cbn; auto)).
  assert (Hh4 := HM2ge hi4 ltac:(cbn; auto)).
  assert (Hl5 := Hm1le lo5 ltac:(cbn; auto)).
  assert (Hl6 := Hm1le lo6 ltac:(cbn; auto)).
  assert (Hh5 := HM1ge hi5 ltac:(cbn; auto)).
  assert (Hh6 := HM1ge hi6 ltac:(cbn; auto)).
  destruct (String.eqb species "h");
    rewrite Hlo1, Hlo2, Hlo3, Hlo4, Hhi1, Hhi2, Hhi3, Hhi4,
            Hlo5, Hlo6, Hhi5, Hhi6;
    cbn [bind]; rewrite Hm2; cbn [bind]; rewrite HM2; cbn [bind];
    rewrite Hm1; cbn [bind]; rewrite HM1; cbn [bind];
    eexists; (split; [reflexivity|]);
    cbn [fvelocity.fvel_para_perp fvelocity.fvel_xy fvelocity.fvel_xz
         fvelocity.fvel_yz fvelocity.fvel_para fvelocity.fvel_perp
         fvelocity.vmin_2d fvelocity.vmax_2d fvelocity.vmin_1d
         fvelocity.vmax_1d];
    (do 6 (split; [reflexivity|]));
    (split; [exact Hfloor2|]);
    (split; [intros x Hx; rewrite !in_app_iff in Hx;
             destruct Hx as [Hx|[Hx|[Hx|Hx]]];
             [ specialize (Hb1 x Hx) | specialize (Hb2 x Hx)
             | specialize (Hb3 x Hx) | specialize (Hb4 x Hx) ]; lra|]);
    (split; [exact Hfloor1|]);
    (intros x Hx; rewrite in_app_iff in Hx;
     destruct Hx as [Hx|Hx];
     [ specialize (Hb5 x Hx) | specialize (Hb6 x Hx) ]; lra).
Qed.

End ReadVelocityDistributionFloor.

(** X29: on well-formed files of a species, for a mass ratio that is not
    negative, [read_velocity_distribution] returns each of the six stored
    distributions raised by 0.01, bin by bin.  The bounds it reports
    enclose every bin of the distributions they are taken from, and the
    lower bounds are at least 0.01: the distributions returned have no
    zero. *)
Theorem read_velocity_distribution_floor
    (f32 : float32 -> R) (f64 : float64 -> R) (fs : filesystem)
    (species : string) (tframe : Z) (pic : pic_info.t) (fpath : string)
    (b2 b1 : list byte) (n : nat) :
  vdist_files f64 fs species tframe fpath b2 b1 n ->
  0 <= pic_info.mime pic ->
  exists fvel,
    read_velocity_distribution f32 f64 fs species tframe pic fpath = Ok fvel /\
    fvelocity.fvel_para_perp fvel
      = map (map (fun x => x + 0.01))
          (reshape n (2 * n) (stored64 f64 b2 (36 + 24 * n) (n * (2 * n)))) /\
    fvelocity.fvel_xy fvel
      = map (map (fun x => x + 0.01))
          (reshape (2 * n) (2 * n)
             (stored64 f64 b2 (36 + 24 * n + 16 * (n * n))
                (2 * n * (2 * n)))) /\
    fvelocity.fvel_xz fvel
      = map (map (fun x => x + 0.01))
          (reshape (2 * n) (2 * n)
             (stored64 f64 b2 (36 + 24 * n + 48 * (n * n))
                (2 * n * (2 * n)))) /\
    fvelocity.fvel_yz fvel
      = map (map (fun x => x + 0.01))
          (reshape (2 * n) (2 * n)
             (stored64 f64 b2 (36 + 24 * n + 80 * (n * n))
                (2 * n * (2 * n)))) /\
    fvelocity.fvel_para fvel
      = map (fun x => x + 0.01) (stored64 f64 b1 (36 + 24 * n) (2 * n)) /\
    fvelocity.fvel_perp fvel
      = map (fun x => x + 0.01) (stored64 f64 b1 (36 + 40 * n) n) /\
    0.01 <= fvelocity.vmin_2d fvel /\
    (forall x,
       In x (concat (fvelocity.fvel_para_perp fvel)
             ++ concat (fvelocity.fvel_xy fvel)
             ++ concat (fvelocity.fvel_xz fvel)
             ++ concat (fvelocity.fvel_yz fvel)) ->
       fvelocity.vmin_2d fvel <= x <= fvelocity.vmax_2d fvel) /\
    0.01 <= fvelocity.vmin_1d fvel /\
    (forall x,
       In x (fvelocity.fvel_para fvel ++ fvelocity.fvel_perp fvel) ->
       fvelocity.vmin_1d fvel <= x <= fvelocity.vmax_1d fvel).
Proof.
  intros Hfiles Hmime.
  exact (read_velocity_distribution_run_floor f32 f64 fs species tframe
           pic fpath b2 b1 n Hfiles Hmime).
Qed.

Lemma read_velocity_distribution_floor_witness :
  exists fvel,
    read_velocity_distribution sample_f32 sample_f64 sample_vdist_fs "h" 10
      sample_pic "" = Ok fvel /\
    fvelocity.fvel_para_perp fvel
      = map (map (fun x => x + 0.01))
          (reshape 1 (2 * 1)
             (stored64 sample_f64 sample_vdist_2d (36 + 24 * 1)
                (1 * (2 * 1)))) /\
    fvelocity.fvel_xy fvel
      = map (map (fun x => x + 0.01))
          (reshape (2 * 1) (2 * 1)
             (stored64 sample_f64 sample_vdist_2d
                (36 + 24 * 1 + 16 * (1 * 1)) (2 * 1 * (2 * 1)))) /\
    fvelocity.fvel_xz fvel
      = map (map (fun x => x + 0.01))
          (reshape (2 * 1) (2 * 1)
             (stored64 sample_f64 sample_vdist_2d
                (36 + 24 * 1 + 48 * (1 * 1)) (2 * 1 * (2 * 1)))) /\
    fvelocity.fvel_yz fvel
      = map (map (fun x => x + 0.01))
          (reshape (2 * 1) (2 * 1)
             (stored64 sample_f64 sample_vdist_2d
                (36 + 24 * 1 + 80 * (1 * 1)) (2 * 1 * (2 * 1)))) /\
    fvelocity.fvel_para fvel
      = map (fun x => x + 0.01)
          (stored64 sample_f64 sample_vdist_1d (36 + 24 * 1) (2 * 1)) /\
    fvelocity.fvel_perp fvel
      = map (fun x => x + 0.01)
          (stored64 sample_f64 sample_vdist_1d (36 + 40 * 1) 1) /\
    0.01 <= fvelocity.vmin_2d fvel /\
    (forall x,
       In x (concat (fvelocity.fvel_para_perp fvel)
             ++ concat (fvelocity.fvel_xy fvel)
             ++ concat (fvelocity.fvel_xz fvel)
             ++ concat (fvelocity.fvel_yz fvel)) ->
       fvelocity.vmin_2d fvel <= x <= fvelocity.vmax_2d fvel) /\
    0.01 <= fvelocity.vmin_1d fvel /\
    (forall x,
       In x (fvelocity.fvel_para fvel ++ fvelocity.fvel_perp fvel) ->
       fvelocity.vmin_1d fvel <= x <= fvelocity.vmax_1d fvel).
Proof.
  apply (read_velocity_distribution_floor sample_f32 sample_f64
           sample_vdist_fs "h" 10 sample_pic "" sample_vdist_2d
           sample_vdist_1d 1).
  - exact sample_vdist_files.
  - cbn. lra.
Defined.


(** ** The box of a query *)

Lemma clamp_range (lo hi : R) (x : coord) :
  lo <= hi -> lo <= fst (clamp lo hi x) <= hi.
Proof.
  intros Hle. unfold clamp.
  destruct (Rltb (fst x) lo) eqn:E1; cbn [fst].
  - destruct (Rltb hi lo) eqn:E2; cbn [fst]; [|lra].
    apply Rltb_true in E2. lra.
  - apply Rltb_false in E1.
    destruct (Rltb hi (fst x)) eqn:E2; cbn [fst]; [lra|].
    apply Rltb_false in E2. lra.
Qed.

(** The rank of a coordinate that is not negative, for a domain size that
    is not zero after rounding. *)
Lemma floor_div_rank (fl : R -> R) (x : coord) (l : R) (n : Z) :
  rounding fl -> 0 < l -> (0 < n)%Z -> fl (l / IZR n) <> 0 ->
  0 <= fst x ->
  exists i, floor_div fl x (fl (l / IZR n)) = Ok i /\ (0 <= i)%Z.
Proof.
  intros Hfl Hl Hn Hd Hx.
  assert (Hn' : 0 < IZR n) by (apply IZR_lt; exact Hn).
  assert (Hd0 : 0 <= fl (l / IZR n)).
  { apply (fl_nonneg fl _ Hfl). apply Rlt_le, Rdiv_lt_0_compat; assumption. }
  set (d := fl (l / IZR n)) in *.
  unfold floor_div.
  destruct (Req_EM_T d 0) as [E|_]; [contradiction|].
  eexists. split; [reflexivity|].
  assert (Hq : 0 <= fl (fst x / d)).
  { apply (fl_nonneg fl _ Hfl). unfold Rdiv.
    apply Rmult_le_pos; [exact Hx|].
    apply Rlt_le, Rinv_0_lt_compat. lra. }
  destruct (base_Int_part (fl (fst x / d))) as [Hlo Hhi].
  apply Z.lt_succ_r. apply lt_IZR. rewrite succ_IZR. lra.
Qed.

Lemma rank_cap (n i : Z) :
  (0 <= i)%Z -> (0 < n)%Z ->
  (0 <= (if (n <=? i)%Z then n - 1 else i) <= n - 1)%Z.
Proof. intros Hi Hn. destruct (Z.leb_spec n i); lia. Qed.

(** X30: [set_mpi_ranks], every operation of which is rounded, on a domain
    of positive lengths and positive numbers of MPI processes whose
    computed sizes per process are not zero: the routine returns.  The
    corners of the box are clamped into the domain, [0 <= x <= lx_di] and
    [|y| <= hy], [|z| <= hz] for the computed halves [hy] of [ly_di] and
    [hz] of [lz_di]; the end ranks are valid ranks, from 0 to
    [topology - 1]; the start ranks, which are not capped, are not
    negative. *)
Theorem set_mpi_ranks_in_domain (fl : R -> R) (pic : pic_run.t)
    (center sizes : R * R * R) :
  let hy := fl (pic_run.ly_di pic * 0.5) in
  let hz := fl (pic_run.lz_di pic * 0.5) in
  rounding fl ->
  0 < pic_run.lx_di pic -> 0 < pic_run.ly_di pic -> 0 < pic_run.lz_di pic ->
  (0 < pic_run.topology_x pic)%Z -> (0 < pic_run.topology_y pic)%Z ->
  (0 < pic_run.topology_z pic)%Z ->
  fl (pic_run.lx_di pic / IZR (pic_run.topology_x pic)) <> 0 ->
  fl (pic_run.ly_di pic / IZR (pic_run.topology_y pic)) <> 0 ->
  fl (pic_run.lz_di pic / IZR (pic_run.topology_z pic)) <> 0 ->
  exists xs xe ys ye zs ze ixs ixe iys iye izs ize,
    set_mpi_ranks fl pic center sizes
      = Ok (((xs, xe), (ys, ye), (zs, ze)),
            ((ixs, ixe), (iys, iye), (izs, ize))) /\
    (0 <= xs <= pic_run.lx_di pic /\ 0 <= xe <= pic_run.lx_di pic) /\
    (- hy <= ys <= hy /\ - hy <= ye <= hy) /\
    (- hz <= zs <= hz /\ - hz <= ze <= hz) /\
    (0 <= ixe <= pic_run.topology_x pic - 1)%Z /\
    (0 <= iye <= pic_run.topology_y pic - 1)%Z /\
    (0 <= ize <= pic_run.topology_z pic - 1)%Z /\
    (0 <= ixs)%Z /\ (0 <= iys)%Z /\ (0 <= izs)%Z.
Proof.
  intros hy hz Hfl Hlx Hly Hlz Htx Hty Htz Hdx Hdy Hdz.
  destruct center as [[c0 c1] c2]. destruct sizes as [[s0 s1] s2].
  unfold set_mpi_ranks, py_div_int.
  destruct (Z.eqb_spec (pic_run.topology_x pic) 0) as [C|_]; [lia|].
  destruct (Z.eqb_spec (pic_run.topology_y pic) 0) as [C|_]; [lia|].
  destruct (Z.eqb_spec (pic_run.topology_z pic) 0) as [C|_]; [lia|].
  cbn [bind].
  replace (- pic_run.ly_di pic * 0.5) with (- (pic_run.ly_di pic * 0.5))
    by lra.
  replace (- pic_run.lz_di pic * 0.5) with (- (pic_run.lz_di pic * 0.5))
    by lra.
  rewrite !(fl_opp fl _ Hfl). fold hy. fold hz.
  assert (Hhy : 0 <= hy) by (apply (fl_nonneg fl _ Hfl); lra).
  assert (Hhz : 0 <= hz) by (apply (fl_nonneg fl _ Hfl); lra).
  set (xs := clamp 0.0 (pic_run.lx_di pic) _).
  set (xe := clamp 0.0 (pic_run.lx_di pic) _).
  set (ys := clamp (- hy) hy _).
  set (ye := clamp (- hy) hy _).
  set (zs := clamp (- hz) hz _).
  set (ze := clamp (- hz) hz _).
  assert (Hxs : 0.0 <= fst xs <= pic_run.lx_di pic)
    by (apply clamp_range; lra).
  assert (Hxe : 0.0 <= fst xe <= pic_run.lx_di pic)
    by (apply clamp_range; lra).
  assert (Hys : - hy <= fst ys <= hy) by (apply clamp_range; lra).
  assert (Hye : - hy <= fst ye <= hy) by (apply clamp_range; lra).
  assert (Hzs : - hz <= fst zs <= hz) by (apply clamp_range; lra).
  assert (Hze : - hz <= fst ze <= hz) by (apply clamp_range; lra).
  destruct (floor_div_rank fl xs _ _ Hfl Hlx Htx Hdx) as (ixs & -> & Hixs);
    [lra|].
  destruct (floor_div_rank fl xe _ _ Hfl Hlx Htx Hdx) as (ixe & -> & Hixe);
    [lra|].
  destruct (floor_div_rank fl (fl (fst ys + hy), snd ys) _ _ Hfl Hly Hty Hdy)
    as (iys & -> & Hiys);
    [cbn [fst]; apply (fl_nonneg fl _ Hfl); lra|].
  destruct (floor_div_rank fl (fl (fst ye + hy), snd ye) _ _ Hfl Hly Hty Hdy)
    as (iye & -> & Hiye);
    [cbn [fst]; apply (fl_nonneg fl _ Hfl); lra|].
  destruct (floor_div_rank fl (fl (fst zs + hz), snd zs) _ _ Hfl Hlz Htz Hdz)
    as (izs & -> & Hizs);
    [cbn [fst]; apply (fl_nonneg fl _ Hfl); lra|].
  destruct (floor_div_rank fl (fl (fst ze + hz), snd ze) _ _ Hfl Hlz Htz Hdz)
    as (ize & -> & Hize);
    [cbn [fst]; apply (fl_nonneg fl _ Hfl); lra|].
  cbn [bind fst] in *.
  do 12 eexists. split; [reflexivity|].
  split; [lra|]. split; [lra|]. split; [lra|].
  split; [apply rank_cap; assumption|].
  split; [apply rank_cap; assumption|].
  split; [apply rank_cap; assumption|].
  split; [exact Hixs|]. split; [exact Hiys | exact Hizs].
Qed.

Lemma set_mpi_ranks_in_domain_witness :
  exists xs xe ys ye zs ze ixs ixe iys iye izs ize,
    set_mpi_ranks exact_arithmetic sample_pic_run (0, 0, 0) (400, 400, 400)
      = Ok (((xs, xe), (ys, ye), (zs, ze)),
            ((ixs, ixe), (iys, iye), (izs, ize))) /\
    (0 <= xs <= 8 /\ 0 <= xe <= 8) /\
    (0 <= ixe <= 3)%Z /\ (0 <= iye <= 1)%Z /\ (0 <= ize <= 1)%Z /\
    (0 <= ixs)%Z /\ (0 <= iys)%Z /\ (0 <= izs)%Z.
Proof.
  destruct (set_mpi_ranks_in_domain exact_arithmetic sample_pic_run (0, 0, 0)
              (400, 400, 400) rounding_exact)
    as (xs & xe & ys & ye & zs & ze & ixs & ixe & iys & iye & izs & ize
        & Hrun & Hx & _ & _ & Hixe & Hiye & Hize & Hixs & Hiys & Hizs);
    try (cbn; lra); try (cbn; lia);
    try (unfold exact_arithmetic; cbn; lra).
  exists xs, xe, ys, ye, zs, ze, ixs, ixe, iys, iye, izs, ize.
  cbn in Hx, Hixe, Hiye, Hize.
  repeat split; try assumption; try lra; try lia.
Defined.
